(** * Eliot-model: exciton + continuum absorption fitting

    A shallow embedding of [fsum2d.py] (the physical model evaluator) and of
    the numerical core of [fitter.py] (class [FSumFitter]: baseline
    estimation, bandgap detection, the per-dataset refit pipeline, the Urbach
    tail estimator), followed by the properties proved about them.

    Numbers.  The program computes with numpy [float64] values.  They are
    modelled here by the real numbers of the Standard Library: [+ - * /],
    comparisons, [abs], [sqrt], [exp], [cosh] and [pi] are the exact real
    operations, so rounding, overflow, infinities and NaN are not
    represented.  In particular [np.sqrt] of a negative number is NaN in the
    program and 0 in [Reals]; statements that go through [sqrt (Eb p)] are
    only meaningful for [0 <= Eb p].

    Faults.  Python exceptions are modelled by the [result] type.  Every
    division written in the source goes through [pydiv], which raises
    [ZeroDivisionError] on a zero divisor: this is the behaviour of Python
    floats and the strictest reading for numpy scalars and arrays (which
    would only warn). *)

From Stdlib Require Import Reals Lra Lia List Bool Arith ZArith Sorted.
Import ListNotations.
Local Open Scope R_scope.

(** ** Exceptions *)

Inductive exn : Type :=
| IndexError
| ValueError
| ZeroDivisionError
| LibraryError.

Inductive result (A : Type) : Type :=
| Ok (a : A)
| Raise (e : exn).

Arguments Ok {A} a.
Arguments Raise {A} e.

Definition bind {A B : Type} (m : result A) (k : A -> result B) : result B :=
  match m with
  | Ok a => k a
  | Raise e => Raise e
  end.

Notation "x <- m ;; k" := (bind m (fun x => k))
  (at level 61, m at next level, right associativity).
Notation "' pat <- m ;; k" := (bind m (fun x => match x with pat => k end))
  (at level 61, pat pattern, m at next level, right associativity).

Fixpoint mapM {A B : Type} (f : A -> result B) (l : list A) : result (list B) :=
  match l with
  | [] => Ok []
  | a :: l' => b <- f a ;; bs <- mapM f l' ;; Ok (b :: bs)
  end.

(** A [for] loop that updates one accumulator and may raise. *)
Fixpoint foldM {A S : Type} (body : S -> A -> result S) (l : list A) (s : S)
  : result S :=
  match l with
  | [] => Ok s
  | a :: l' => s' <- body s a ;; foldM body l' s'
  end.

(** ** Scalars and arrays *)

Definition Rltb (x y : R) : bool := if Rlt_dec x y then true else false.
Definition Rleb (x y : R) : bool := if Rle_dec x y then true else false.

(** [x / y] of the source. *)
Definition pydiv (x y : R) : result R :=
  if Req_dec_T y 0 then Raise ZeroDivisionError else Ok (x / y).

(** [np.clip(x, lo, hi)] is [minimum(maximum(x, lo), hi)]. *)
Definition np_clip (lo hi x : R) : R := Rmin (Rmax x lo) hi.

Definition zeros (n : nat) : list R := repeat 0 n.

Fixpoint zipWith {A B C : Type} (f : A -> B -> C) (l : list A) (m : list B)
  : list C :=
  match l, m with
  | a :: l', b :: m' => f a b :: zipWith f l' m'
  | _, _ => []
  end.

(** Elementwise sum of two arrays of one shape. *)
Definition vadd (a b : list R) : list R := zipWith Rplus a b.

Definition vscale (c : R) (a : list R) : list R := map (fun v => c * v) a.

(** [np.sum]. *)
Definition np_sum (l : list R) : R := fold_right Rplus 0 l.

(** [a - b] on one-dimensional arrays, with numpy's broadcasting: equal
    lengths, or one operand of length 1, else [ValueError]. *)
Definition broadcast_sub (a b : list R) : result (list R) :=
  if Nat.eqb (length a) (length b) then Ok (zipWith Rminus a b)
  else match a, b with
       | [a0], _ => Ok (map (fun y => a0 - y) b)
       | _, [b0] => Ok (map (fun x => x - b0) a)
       | _, _ => Raise ValueError
       end.

(** [np.linspace(start, stop, num)] (endpoint included). *)
Definition linspace (start stop : R) (num : nat) : list R :=
  match num with
  | O => []
  | S O => [start]
  | _ => let step := (stop - start) / INR (num - 1) in
         map (fun i => start + INR i * step) (seq 0 num)
  end.

(** [trapz(a2, E, axis=0)]: the rows of [a2] are indexed by the grid [E];
    the sum of [(E[i+1] - E[i]) * (a2[i+1] + a2[i]) / 2] over consecutive
    rows, accumulated from [acc] (the zero vector of the row shape). *)
Fixpoint trapz_from (r0 : list R) (e0 : R) (a2 : list (list R)) (E : list R)
  (acc : list R) : list R :=
  match a2, E with
  | r1 :: a2', e1 :: E' =>
      trapz_from r1 e1 a2' E'
        (vadd acc (map (fun s => (e1 - e0) * s / 2) (vadd r1 r0)))
  | _, _ => acc
  end.

Definition trapz (a2 : list (list R)) (E : list R) (width : nat) : list R :=
  match a2, E with
  | r0 :: a2', e0 :: E' => trapz_from r0 e0 a2' E' (zeros width)
  | _, _ => zeros width
  end.

(** ** fsum2d.py *)

(** The parameter vector [[Eg, Eb, Gamma, ucvsq, mhcnp, q]]. *)
Record Params : Type := mkParams {
  Eg : R;
  Eb : R;
  Gamma : R;
  ucvsq : R;
  mhcnp : R;
  q : R
}.

(** [gamma_safe = max(abs(gamma), 1e-10)]. *)
Definition gamma_safe (p : Params) : R := Rmax (Rabs (Gamma p)) 1e-10.

(** [np.clip((xdata - center) / gamma_safe, -700, 700)]. *)
Definition cosh_args (gs center : R) (xdata : list R) : result (list R) :=
  args <- mapM (fun x => pydiv (x - center) gs) xdata ;;
  Ok (map (np_clip (-700) 700) args).

(** [1 / np.cosh(cosh_arg)]. *)
Definition inv_cosh (args : list R) : result (list R) :=
  mapM (fun c => pydiv 1 (cosh c)) args.

(** Body of the exciton loop [for i in range(1, 51)], on the accumulator
    [a1]. *)
Definition exciton_step (p : Params) (xdata : list R) (a1 : list R) (i : nat)
  : result (list R) :=
  if Rltb (Rabs (INR i - q p)) 1e-10 then Ok a1
  else
    t <- pydiv (Eb p) ((INR i - q p) ^ 2) ;;
    let Enx := Eg p - t in
    cosh_arg <- cosh_args (gamma_safe p) Enx xdata ;;
    amp <- pydiv (2 * Eb p) ((INR i - q p) ^ 3) ;;
    shape <- inv_cosh cosh_arg ;;
    let anx := map (fun s => amp * s) shape in
    Ok (vadd a1 anx).

(** The denominator of a band row. *)
Definition band_denominator (sqrt_arg : R) : R :=
  if Rleb sqrt_arg 0 then 1
  else
    let denominator := 1 - exp (-2 * PI * sqrt sqrt_arg) in
    if Rltb (Rabs denominator) 1e-10 then 1e-10 else denominator.

(** Body of the band loop [for i in range(len(E))]: the row [a2[i, :]]. *)
Definition band_row (p : Params) (xdata : list R) (Ei : R)
  : result (list R) :=
  let energy_diff := Ei - Eg p in
  if Rleb energy_diff 0 then Ok (zeros (length xdata))
  else
    let b := 10 * mhcnp p * energy_diff
             + 126 * mhcnp p ^ 2 * energy_diff ^ 2 in
    sqrt_arg <- pydiv (Eb p) energy_diff ;;
    let denominator := band_denominator sqrt_arg in
    cosh_arg <- cosh_args (gamma_safe p) Ei xdata ;;
    shape <- inv_cosh cosh_arg ;;
    w <- pydiv (1 + b) denominator ;;
    Ok (map (fun s => s * w) shape).

(** What [fsum2d] returns: [(sse, FittedCurve, exciton, band)]. *)
Record FsumOut : Type := mkFsumOut {
  out_sse : R;
  out_FittedCurve : list R;
  out_exciton : list R;
  out_band : list R
}.

Definition fsum2d (p : Params) (xdata ydata : list R) : result FsumOut :=
  a1 <- foldM (exciton_step p xdata) (seq 1 50) (zeros (length xdata)) ;;
  let E := linspace (Eg p) (2 * Eg p) (10 * length xdata) in
  a2 <- mapM (band_row p xdata) E ;;
  let band_contribution := trapz a2 E (length xdata) in
  let scale := ucvsq p * sqrt (Eb p) in
  let FittedCurve := vscale scale (vadd band_contribution a1) in
  let exciton := vscale scale a1 in
  let band := vscale scale band_contribution in
  ErrorVector <- broadcast_sub FittedCurve ydata ;;
  let sse := np_sum (map (fun e => e ^ 2) ErrorVector) in
  let sse := if Rleb (mhcnp p) 0 then 10 * sse else sse in
  Ok (mkFsumOut sse FittedCurve exciton band).

(** ** Array helpers of fitter.py *)

(** [a[i]] for [0 <= i]. *)
Definition item (a : list R) (i : nat) : result R :=
  match nth_error a i with
  | Some v => Ok v
  | None => Raise IndexError
  end.

(** [a[-1]]. *)
Definition item_last (a : list R) : result R :=
  match a with
  | [] => Raise IndexError
  | _ => Ok (last a 0)
  end.

(** The test [xdata[0] < xdata[-1]] that decides the orientation of the
    energy axis: [true] for an ascending axis. *)
Definition ascending (xdata : list R) : result bool :=
  x0 <- item xdata 0 ;;
  xl <- item_last xdata ;;
  Ok (Rltb x0 xl).

(** [np.sum(mask)] for a boolean mask. *)
Definition count_true (mask : list bool) : nat :=
  length (filter (fun b => b) mask).

(** [mask = np.zeros(len, dtype=bool); mask[:n] = True]. *)
Definition mask_first (len n : nat) : list bool :=
  repeat true (Nat.min n len) ++ repeat false (len - n).

(** [mask = np.zeros(len, dtype=bool); mask[-n:] = True]; the slice [-0:]
    is the whole array. *)
Definition mask_last (len n : nat) : list bool :=
  match n with
  | O => repeat true len
  | _ => repeat false (len - n) ++ repeat true (Nat.min n len)
  end.

(** [a[mask]] where the mask has the length of [a]. *)
Fixpoint select (mask : list bool) (a : list R) : list R :=
  match mask, a with
  | b :: mask', x :: a' => if b then x :: select mask' a' else select mask' a'
  | _, _ => []
  end.

(** [a[mask]]: numpy raises [IndexError] when the lengths differ. *)
Definition bool_index (a : list R) (mask : list bool) : result (list R) :=
  if Nat.eqb (length a) (length mask) then Ok (select mask a)
  else Raise IndexError.

(** [a[start:end]] for [0 <= start], [0 <= end]. *)
Definition slice (a : list R) (start stop : nat) : list R :=
  firstn (stop - start) (skipn start a).

(** [np.mean]. *)
Definition np_mean (l : list R) : R := np_sum l / INR (length l).

(** [max(10, min(50, int(len(xdata) * 0.3)))].  The float product
    [len * 0.3] truncates to the integer quotient [3 * len / 10] for every
    array length. *)
Definition n_points (len : nat) : nat :=
  Nat.max 10 (Nat.min 50 (3 * len / 10)).

(** ** Library functions taken as given

    [scipy.optimize.minimize] (L-BFGS-B), [np.polyfit] of degree 1,
    [np.percentile], [np.median] and [np.log] are outside the repository.
    They are an interface here; every one of them may raise. *)

Class SciLib : Type := {
  (** [minimize(f, x0, bounds=Bounds(lb, rb), ...).x] *)
  minimize : (Params -> result R) -> Params -> Params -> Params
             -> result Params;
  (** [np.polyfit(x, y, 1)]: [(coeffs[0], coeffs[1])], slope first. *)
  polyfit1 : list R -> list R -> result (R * R);
  (** [np.percentile(a, q)] *)
  np_percentile : list R -> nat -> result R;
  (** [np.median(a)] *)
  np_median : list R -> result R;
  (** [np.log], elementwise *)
  np_log : R -> R
}.

(** ** fitter.py: class FSumFitter *)

Record FSumFitter : Type := mkFitter {
  deltaE : R;
  NS : Z;
  fitmode : Z;
  start_point : Params;
  lb : Params;
  rb : Params
}.

(** [FSumFitter.__init__(deltaE, NS, fitmode)]. *)
Definition default_start_point : Params :=
  mkParams 2.62 0.050 0.043 37 0.060 0.
Definition default_lb : Params := mkParams 2.54 0.01 0.00 0.010 0.000 0.0.
Definition default_rb : Params := mkParams 2.68 0.2 0.20 1000.0 0.999 1.5.

Definition init (deltaE : R) (NS fitmode : Z) : FSumFitter :=
  mkFitter deltaE NS fitmode default_start_point default_lb default_rb.

Definition set_start_point (self : FSumFitter) (p : Params) : FSumFitter :=
  mkFitter (deltaE self) (NS self) (fitmode self) p (lb self) (rb self).

Definition set_Eg (p : Params) (v : R) : Params :=
  mkParams v (Eb p) (Gamma p) (ucvsq p) (mhcnp p) (q p).
Definition set_Eb (p : Params) (v : R) : Params :=
  mkParams (Eg p) v (Gamma p) (ucvsq p) (mhcnp p) (q p).
Definition set_q (p : Params) (v : R) : Params :=
  mkParams (Eg p) (Eb p) (Gamma p) (ucvsq p) (mhcnp p) v.

(** *** fit_baseline: the point-selection policy *)

(** The lowest-energy 30 percent window, by orientation. *)
Definition low_energy_window (xdata : list R) : result (list bool) :=
  asc <- ascending xdata ;;
  if asc then Ok (mask_first (length xdata) (n_points (length xdata)))
  else Ok (mask_last (length xdata) (n_points (length xdata))).

(** [xdata < threshold]. *)
Definition below (threshold : R) (xdata : list R) : list bool :=
  map (fun x => Rltb x threshold) xdata.

(** The mask built by [fit_baseline] for [fitmode <> 0]. *)
Definition select_baseline_mask (xdata : list R) (Eg Eb : option R)
  : result (list bool) :=
  match Eg with
  | Some eg =>
      match Eb with
      | Some eb =>
          if Rltb 0 eb then
            let safe_threshold := eg - 1.5 * eb in
            (* both branches of the orientation test build the same mask *)
            _ <- ascending xdata ;;
            let baseline_mask := below safe_threshold xdata in
            if Nat.ltb (count_true baseline_mask) 5
            then low_energy_window xdata
            else Ok baseline_mask
          else
            let baseline_mask := below eg xdata in
            if Nat.ltb (count_true baseline_mask) 5
            then Ok (mask_first (length xdata) (Nat.min 20 (length xdata)))
            else Ok baseline_mask
      | None =>
          let baseline_mask := below eg xdata in
          if Nat.ltb (count_true baseline_mask) 5
          then Ok (mask_first (length xdata) (Nat.min 20 (length xdata)))
          else Ok baseline_mask
      end
  | None => low_energy_window xdata
  end.

(** Mode 2: [a * xdata ** 4] with [a = sum(y * E^4) / sum(E^8)] over the
    masked points, zero when [sum(E^8) < 1e-10]. *)
Definition rayleigh_baseline (xdata x_fit y_fit : list R)
  : result (list R) :=
  let E4_fit := map (fun x => x ^ 4) x_fit in
  let E8_fit := map (fun x => x ^ 8) x_fit in
  if Rltb (np_sum E8_fit) 1e-10 then Ok (zeros (length xdata))
  else
    a <- pydiv (np_sum (zipWith Rmult y_fit E4_fit)) (np_sum E8_fit) ;;
    Ok (map (fun x => a * x ^ 4) xdata).

Section Fitter.
Context {lib : SciLib}.

(** [FSumFitter.fit_baseline(self, xdata, ydata, Eg, Eb)]:
    [(baseline, baseline_mask)]. *)
Definition fit_baseline (self : FSumFitter) (xdata ydata : list R)
  (Eg Eb : option R) : result (list R * list bool) :=
  if Z.eqb (fitmode self) 0
  then Ok (zeros (length xdata), repeat false (length xdata))
  else
    baseline_mask <- select_baseline_mask xdata Eg Eb ;;
    let x_fit := select baseline_mask xdata in
    y_fit <- bool_index ydata baseline_mask ;;
    if Nat.ltb (length x_fit) 2
    then Ok (zeros (length xdata), baseline_mask)
    else if Z.eqb (fitmode self) 1 then
      '(c0, c1) <- polyfit1 x_fit y_fit ;;
      Ok (map (fun x => c0 * x + c1) xdata, baseline_mask)
    else if Z.eqb (fitmode self) 2 then
      baseline <- rayleigh_baseline xdata x_fit y_fit ;;
      Ok (baseline, baseline_mask)
    else Raise ValueError.

(** [FSumFitter.objective_function]. *)
Definition objective_function (xdata ydata : list R) (params : Params)
  : result R :=
  o <- fsum2d params xdata ydata ;;
  Ok (out_sse o).

(** [FSumFitter.fit_data(xdata, ydata, start_point, bounds)]: the estimates
    and the model evaluated at them.  [bounds] is the pair of the lower and
    upper bound vectors. *)
Definition fit_data (self : FSumFitter) (xdata ydata : list R)
  (start : option Params) (bounds : option (Params * Params))
  : result (Params * FsumOut) :=
  let start := match start with Some s => s | None => start_point self end in
  let bounds := match bounds with
                | Some b => b
                | None => (lb self, rb self)
                end in
  estimates <- minimize (objective_function xdata ydata) start
                 (fst bounds) (snd bounds) ;;
  o <- fsum2d estimates xdata ydata ;;
  Ok (estimates, o).

(** Index of the first element satisfying [f]: [np.where(...)[0][0]]. *)
Fixpoint first_index (f : R -> bool) (a : list R) : option nat :=
  match a with
  | [] => None
  | x :: a' => if f x then Some O else option_map S (first_index f a')
  end.

(** [FSumFitter.calculate_urbach_energy(xdata, ydata, Eb, Eg)]:
    [(slope, intersect, fitted_urbach)].  Past the first test the array is
    not empty, so [len(xdata) - 1] is a natural number. *)
Definition calculate_urbach_energy (xdata ydata : list R) (Eb Eg : R)
  : result (R * R * list R) :=
  let threshold := Rabs (Eb - Eg) in
  match first_index (fun x => Rltb x threshold) xdata with
  | None => Ok (0, 0, zeros (length xdata))
  | Some index =>
      let start_idx := Nat.min (index + 2) (length xdata - 1) in
      let end_idx := Nat.min (index + 10) (length xdata) in
      if Nat.leb end_idx start_idx then Ok (0, 0, zeros (length xdata))
      else
        let x_fit := slice xdata start_idx end_idx in
        let y_fit := slice ydata start_idx end_idx in
        let log_y := map np_log y_fit in
        '(slope, intersect) <- polyfit1 x_fit log_y ;;
        Ok (slope, intersect, map (fun x => intersect + slope * x) xdata)
  end.

(** *** process_file: the per-dataset pipeline *)

(** Steps 0 and the start of step 1: the initial baseline from the
    transparent region (no context). *)
Definition initial_baseline (self : FSumFitter) (xdata raw_i : list R)
  : result (list R * list bool) :=
  if Z.eqb (fitmode self) 0
  then Ok (zeros (length xdata), repeat false (length xdata))
  else
    (* the orientation test that builds the unused [transparent_mask] *)
    _ <- ascending xdata ;;
    fit_baseline self xdata raw_i None None.

(** The scan [for idx in ...: if cleaned_data[idx] > 0.01: ...; break]. *)
Definition first_above (cleaned_data : list R) (order : list nat)
  : option nat :=
  find (fun idx => Rltb 0.01 (nth idx cleaned_data 0)) order.

(** Step 1: bandgap detection on [cleaned_data]. *)
Definition detect_bandgap (xdata cleaned_data : list R) : result R :=
  asc <- ascending xdata ;;
  let n := length cleaned_data in
  let order := if asc then seq 0 n else rev (seq 0 n) in
  match first_above cleaned_data order with
  | Some idx => item xdata idx
  | None => np_median xdata
  end.

(** The data searched for the bandgap. *)
Definition bandgap_data (self : FSumFitter) (raw_i initial_baseline : list R)
  : result (list R) :=
  if Z.eqb (fitmode self) 0 then Ok raw_i
  else broadcast_sub raw_i initial_baseline.

(** [mask &= (xdata >= lo)] and [mask &= (xdata <= hi)] for optional
    limits. *)
Definition and_limits (xdata : list R) (min_energy max_energy : option R)
  (mask : list bool) : list bool :=
  let mask := match min_energy with
              | Some lo => zipWith andb mask (map (fun x => Rleb lo x) xdata)
              | None => mask
              end in
  match max_energy with
  | Some hi => zipWith andb mask (map (fun x => Rleb x hi) xdata)
  | None => mask
  end.

(** [(xdata >= lo) & (xdata <= hi)]. *)
Definition between (lo hi : R) (xdata : list R) : list bool :=
  map (fun x => Rleb lo x && Rleb x hi) xdata.

Definition is_given (o : option R) : bool :=
  match o with Some _ => true | None => false end.

(** Everything [process_file] keeps for one dataset. *)
Record DatasetFit : Type := mkDatasetFit {
  fit_estimates : Params;
  fit_quality : R;
  fit_slope : R;
  fit_intersect : R;
  fit_urbach : list R;
  fit_curve : list R;
  fit_exciton : list R;
  fit_band : list R;
  fit_baseline_curve : list R;
  fit_cleandata : list R;
  fit_mask : list bool;
  fit_baseline_mask : list bool
}.

(** What the fits of one dataset hand to the reporting part: the estimates,
    the sse of the last fit, the mask of that fit, and the refined
    baseline, its mask and the cleaned data. *)
Record Fitted : Type := mkFitted {
  fd_estimates : Params;
  fd_sse : R;
  fd_mask : list bool;
  fd_baseline : list R;
  fd_baseline_mask : list bool;
  fd_ydata : list R;
  fd_auto_ran : bool
}.

(** Steps 0 and 1: the initial baseline and the initial [Eg]. *)
Definition initial_bandgap (self : FSumFitter) (xdata raw_i : list R)
  : result (list R * R) :=
  '(initial_bl, _) <- initial_baseline self xdata raw_i ;;
  cleaned_data <- bandgap_data self raw_i initial_bl ;;
  initial_Eg <- detect_bandgap xdata cleaned_data ;;
  Ok (initial_bl, initial_Eg).

(** [dynamic_start_point]: a copy of [self.start_point] with [Eg], [Eb] and
    [q] overwritten. *)
Definition dynamic_start_point (self : FSumFitter) (initial_Eg : R)
  : Params :=
  set_q (set_Eb (set_Eg (start_point self) initial_Eg) 0.050) 0.0.

(** [Bounds(dynamic_lb, dynamic_rb)]. *)
Definition dynamic_bounds (self : FSumFitter) (initial_Eg : R)
  : Params * Params :=
  let dynamic_lb := set_Eg (lb self) (initial_Eg - 0.2) in
  let dynamic_rb := set_Eg (rb self) (initial_Eg + 0.2) in
  if Rleb (Eg dynamic_rb) (Eg dynamic_lb)
  then (set_Eg dynamic_lb (initial_Eg - 0.3),
        set_Eg dynamic_rb (initial_Eg + 0.3))
  else (dynamic_lb, dynamic_rb).

(** Step 5: the mask of the final fit. *)
Definition final_fit_mask (xdata : list R) (min_energy max_energy : option R)
  : list bool :=
  let fit_mask :=
    and_limits xdata min_energy max_energy (repeat true (length xdata)) in
  if Nat.ltb (count_true fit_mask) 10
  then repeat true (length xdata) else fit_mask.

(** The mask of the auto-range refinement around the fitted [Eg]. *)
Definition auto_range_mask (xdata : list R) (min_energy max_energy : option R)
  (estimates : Params) : list bool :=
  let approx_Eg := Eg estimates in
  let auto_min := approx_Eg - 0.5 in
  let auto_max := approx_Eg + 0.5 in
  and_limits xdata min_energy max_energy (between auto_min auto_max xdata).

(** [auto_range is not False]. *)
Definition auto_enabled (auto_range : option bool) : bool :=
  match auto_range with
  | Some false => false
  | _ => true
  end.

(** The state after step 6: the refined baseline, its mask, the cleaned
    data, the bounds, and the final fit with its mask. *)
Record FinalFit : Type := mkFinalFit {
  ff_baseline : list R;
  ff_baseline_mask : list bool;
  ff_ydata : list R;
  ff_bounds : Params * Params;
  ff_estimates : Params;
  ff_sse : R;
  ff_mask : list bool
}.

(** Steps 0 to 6. *)
Definition final_fit (self : FSumFitter) (xdata raw_i : list R)
  (min_energy max_energy : option R) : result FinalFit :=
  '(initial_bl, initial_Eg) <- initial_bandgap self xdata raw_i ;;
  let start := dynamic_start_point self initial_Eg in
  let bounds := dynamic_bounds self initial_Eg in
  initial_cleandata <- broadcast_sub raw_i initial_bl ;;
  p10 <- np_percentile xdata 10%nat ;;
  p90 <- np_percentile xdata 90%nat ;;
  let prelim_mask := between p10 p90 xdata in
  prelim_y <- bool_index initial_cleandata prelim_mask ;;
  '(prelim_estimates, _) <-
     fit_data self (select prelim_mask xdata) prelim_y
       (Some start) (Some bounds) ;;
  let approx_Eg := Eg prelim_estimates in
  let approx_Eb := Eb prelim_estimates in
  '(baseline, baseline_mask) <-
     (if Z.eqb (fitmode self) 0
      then Ok (zeros (length xdata), repeat false (length xdata))
      else fit_baseline self xdata raw_i (Some approx_Eg) (Some approx_Eb)) ;;
  ydata <- broadcast_sub raw_i baseline ;;
  let fit_mask := final_fit_mask xdata min_energy max_energy in
  (* the report of the fitting range takes [np.min] of the selection *)
  _ <- (if (is_given min_energy || is_given max_energy)
           && Nat.eqb (count_true fit_mask) 0
        then Raise ValueError else Ok tt) ;;
  fit_y <- bool_index ydata fit_mask ;;
  '(estimates, o) <-
     fit_data self (select fit_mask xdata) fit_y
       (Some prelim_estimates) (Some bounds) ;;
  Ok (mkFinalFit baseline baseline_mask ydata bounds estimates (out_sse o)
        fit_mask).

(** The auto-range refinement of the final fit. *)
Definition auto_range_refit (self : FSumFitter) (xdata : list R)
  (min_energy max_energy : option R) (auto_range : option bool)
  (s : FinalFit) : result Fitted :=
  let keep := mkFitted (ff_estimates s) (ff_sse s) (ff_mask s)
                (ff_baseline s) (ff_baseline_mask s) (ff_ydata s) false in
  if auto_enabled auto_range then
    let auto_mask :=
      auto_range_mask xdata min_energy max_energy (ff_estimates s) in
    if Nat.ltb 10 (count_true auto_mask) then
      auto_y <- bool_index (ff_ydata s) auto_mask ;;
      '(estimates, o) <-
         fit_data self (select auto_mask xdata) auto_y
           (Some (ff_estimates s)) (Some (ff_bounds s)) ;;
      Ok (mkFitted estimates (out_sse o) auto_mask (ff_baseline s)
            (ff_baseline_mask s) (ff_ydata s) true)
    else Ok keep
  else Ok keep.

(** The loop body up to, and excluding, the assignment to
    [self.start_point]. *)
Definition fit_dataset (self : FSumFitter) (xdata raw_i : list R)
  (min_energy max_energy : option R) (auto_range : option bool)
  : result Fitted :=
  s <- final_fit self xdata raw_i min_energy max_energy ;;
  auto_range_refit self xdata min_energy max_energy auto_range s.

(** [r_squared = 1 - sse / ss_tot if ss_tot > 0 else 0] over the fitting
    range. *)
Definition r_squared (sse : R) (ydata : list R) (fit_mask : list bool)
  : result R :=
  ydata_fit <- bool_index ydata fit_mask ;;
  let m := np_mean ydata_fit in
  let ss_tot := np_sum (map (fun y => (y - m) ^ 2) ydata_fit) in
  if Rltb 0 ss_tot then r <- pydiv sse ss_tot ;; Ok (1 - r) else Ok 0.

(** The rest of the loop body, after [self.start_point] was assigned. *)
Definition report_dataset (xdata : list R) (f : Fitted)
  : result DatasetFit :=
  o <- fsum2d (fd_estimates f) xdata (fd_ydata f) ;;
  quality <- r_squared (fd_sse f) (fd_ydata f) (fd_mask f) ;;
  '(slope, intersect, fitted_urbach) <-
     calculate_urbach_energy xdata (fd_ydata f)
       (Eb (fd_estimates f)) (Eg (fd_estimates f)) ;;
  Ok (mkDatasetFit (fd_estimates f) quality slope intersect fitted_urbach
        (out_FittedCurve o) (out_exciton o) (out_band o)
        (fd_baseline f) (fd_ydata f) (fd_mask f) (fd_baseline_mask f)).

(** One iteration of the dataset loop: the outcome and the fitter as the
    iteration leaves it.  An exception raised before the assignment leaves
    the fitter as it was; one raised after it leaves the new
    [start_point] in place. *)
Definition process_dataset (self : FSumFitter) (xdata raw_i : list R)
  (min_energy max_energy : option R) (auto_range : option bool)
  : result DatasetFit * FSumFitter :=
  match fit_dataset self xdata raw_i min_energy max_energy auto_range with
  | Raise e => (Raise e, self)
  | Ok f =>
      let self' := set_start_point self (fd_estimates f) in
      (report_dataset xdata f, self')
  end.

(** The parsed input table: column 0 and the absorption columns
    [raw[:, 1]], [raw[:, 2]], ...  Reading and decoding the file is left
    out. *)
Record Table : Type := mkTable {
  xdata_original : list R;
  columns : list (list R)
}.

(** [is_nm = np.mean(xdata_original) > 50], and the axis in eV.  A zero
    wavelength makes numpy produce an infinite energy; no such value exists
    here and the conversion stops with the division fault. *)
Definition is_nm (t : Table) : bool := Rltb 50 (np_mean (xdata_original t)).

Definition energy_axis (t : Table) : result (list R) :=
  if is_nm t then mapM (fun x => pydiv 1239.84193 x) (xdata_original t)
  else Ok (xdata_original t).

(** [(i - 1) not in T] is false: dataset [i] (1-indexed) is processed.
    [T] is the caller's 1-indexed list, [None] for all datasets. *)
Definition selected (T : option (list Z)) (i : nat) : bool :=
  match T with
  | None => true
  | Some ts =>
      existsb (fun t => Z.eqb (t - 1) (Z.of_nat i - 1)) ts
  end.

(** The dataset loop [for i in range(1, data_size[1])] over the remaining
    columns, [i] being the index of the first of them.  [acc] collects
    [(i, fit)] in processing order. *)
Fixpoint dataset_loop (self : FSumFitter) (xdata : list R)
  (T : option (list Z)) (min_energy max_energy : option R)
  (auto_range : option bool) (i : nat) (cols : list (list R))
  (acc : list (nat * DatasetFit))
  : result (list (nat * DatasetFit)) * FSumFitter :=
  match cols with
  | [] => (Ok acc, self)
  | raw_i :: cols' =>
      if selected T i then
        match process_dataset self xdata raw_i min_energy max_energy
                auto_range with
        | (Raise e, self') => (Raise e, self')
        | (Ok d, self') =>
            dataset_loop self' xdata T min_energy max_energy auto_range
              (S i) cols' (acc ++ [(i, d)])
        end
      else
        dataset_loop self xdata T min_energy max_energy auto_range
          (S i) cols' acc
  end.

(** [FSumFitter.process_file] on the parsed table: the per-dataset results
    and the fitter after the call. *)
Definition process_file (self : FSumFitter) (t : Table)
  (T : option (list Z)) (min_energy max_energy : option R)
  (auto_range : option bool)
  : result (list (nat * DatasetFit)) * FSumFitter :=
  match energy_axis t with
  | Raise e => (Raise e, self)
  | Ok xdata =>
      dataset_loop self xdata T min_energy max_energy auto_range 1
        (columns t) []
  end.

End Fitter.

(** ** Closed forms of the model evaluator *)

Definition sech (x : R) : R := 1 / cosh x.

(** The shape factor of a line centred at [center], seen from energy [E]:
    the hyperbolic secant, to the first power, of the clamped argument. *)
Definition lineshape (gs center E : R) : R :=
  sech (np_clip (-700) 700 ((E - center) / gs)).

(** The guard [abs(i - q) < 1e-10] of the exciton loop. *)
Definition skipped (p : Params) (n : nat) : bool :=
  Rltb (Rabs (INR n - q p)) 1e-10.

(** The exciton line of principal quantum number [n] over the axis. *)
Definition exciton_line (p : Params) (xdata : list R) (n : nat) : list R :=
  map (fun E => 2 * Eb p / (INR n - q p) ^ 3
                * lineshape (gamma_safe p)
                    (Eg p - Eb p / (INR n - q p) ^ 2) E) xdata.

(** The sum of the lines [n = 1..50] that are not skipped. *)
Definition exciton_series (p : Params) (xdata : list R) : list R :=
  fold_left
    (fun a1 n => if skipped p n then a1 else vadd a1 (exciton_line p xdata n))
    (seq 1 50) (zeros (length xdata)).

(** The continuum weight of the grid energy [Ei]. *)
Definition band_weight (p : Params) (Ei : R) : R :=
  let dE := Ei - Eg p in
  (1 + (10 * mhcnp p * dE + 126 * mhcnp p ^ 2 * dE ^ 2))
  / band_denominator (Eb p / dE).

(** The row of the band-integration grid at [Ei]. *)
Definition band_line (p : Params) (xdata : list R) (Ei : R) : list R :=
  if Rleb (Ei - Eg p) 0 then zeros (length xdata)
  else map (fun E => lineshape (gamma_safe p) Ei E * band_weight p Ei) xdata.

Definition band_grid (p : Params) (xdata : list R) : list R :=
  linspace (Eg p) (2 * Eg p) (10 * length xdata).

Definition band_integral (p : Params) (xdata : list R) : list R :=
  trapz (map (band_line p xdata) (band_grid p xdata)) (band_grid p xdata)
    (length xdata).

(** [ucvsq * sqrt(Eb) * (band + exciton)]. *)
Definition model_curve (p : Params) (xdata : list R) : list R :=
  vscale (ucvsq p * sqrt (Eb p))
    (vadd (band_integral p xdata) (exciton_series p xdata)).

(** The residual sum of squares before the penalty. *)
Definition residual_ss (curve ydata : list R) : R :=
  np_sum (map (fun e => e ^ 2) (zipWith Rminus curve ydata)).

(** ** Statements of the specification, in its own words *)

(** An exciton term with the squared shape factor [sech^2((E - Enx) / Gamma)]. *)
Definition squared_exciton_term (p : Params) (E : R) (n : nat) : R :=
  2 * Eb p / (INR n - q p) ^ 3
  * sech ((E - (Eg p - Eb p / (INR n - q p) ^ 2)) / Gamma p) ^ 2.

(** The parameter vector with [mhcnp] sign-flipped. *)
Definition flip_mhcnp (p : Params) : Params :=
  mkParams (Eg p) (Eb p) (Gamma p) (ucvsq p) (- mhcnp p) (q p).

(** "The lowest-energy [k] points" of an axis: no point outside the mask
    lies strictly below a point inside it, and [k] points are selected. *)
Definition lowest_energy_mask (xdata : list R) (mask : list bool) (k : nat)
  : Prop :=
  length mask = length xdata /\
  count_true mask = k /\
  forall i j, nth i mask false = true -> (j < length xdata)%nat ->
              nth j mask false = false ->
              nth i xdata 0 <= nth j xdata 0.

(** ** A reference instance of the library interface

    Used to run the pipeline on concrete inputs: the least-squares line by
    the normal equations, order statistics through sorting with numpy's
    linear interpolation, and the optimiser that stops at its seed
    projected into the bounds. *)

Fixpoint insert_sorted (x : R) (l : list R) : list R :=
  match l with
  | [] => [x]
  | y :: l' => if Rleb x y then x :: l else y :: insert_sorted x l'
  end.

Definition sort (l : list R) : list R := fold_right insert_sorted [] l.

Definition ref_median (l : list R) : result R :=
  let s := sort l in
  let n := length s in
  if Nat.eqb n 0 then Raise LibraryError
  else if Nat.even n
       then Ok ((nth (n / 2 - 1) s 0 + nth (n / 2) s 0) / 2)
       else Ok (nth (n / 2) s 0).

Definition ref_percentile (l : list R) (pct : nat) : result R :=
  let s := sort l in
  let n := length s in
  if Nat.eqb n 0 then Raise LibraryError
  else
    let pos := ((n - 1) * pct)%nat in
    let lo := (pos / 100)%nat in
    let frac := INR (pos mod 100) / 100 in
    let v0 := nth lo s 0 in
    Ok (v0 + frac * (nth (S lo) s v0 - v0)).

Definition ref_polyfit1 (x y : list R) : result (R * R) :=
  let n := INR (length x) in
  let sx := np_sum x in
  let sy := np_sum y in
  let sxx := np_sum (map (fun v => v * v) x) in
  let sxy := np_sum (zipWith Rmult x y) in
  slope <- pydiv (n * sxy - sx * sy) (n * sxx - sx * sx) ;;
  Ok (slope, (sy - slope * sx) / n).

Definition project (lo hi x : Params) : Params :=
  mkParams (np_clip (Eg lo) (Eg hi) (Eg x)) (np_clip (Eb lo) (Eb hi) (Eb x))
    (np_clip (Gamma lo) (Gamma hi) (Gamma x))
    (np_clip (ucvsq lo) (ucvsq hi) (ucvsq x))
    (np_clip (mhcnp lo) (mhcnp hi) (mhcnp x)) (np_clip (q lo) (q hi) (q x)).

Definition ref_minimize (f : Params -> result R) (x0 lo hi : Params)
  : result Params :=
  _ <- f (project lo hi x0) ;;
  Ok (project lo hi x0).

Definition reference_lib : SciLib :=
  {| minimize := ref_minimize;
     polyfit1 := ref_polyfit1;
     np_percentile := ref_percentile;
     np_median := ref_median;
     np_log := ln |}.

(** ** Reported quantities and the contract of the optimiser *)

(** The effective dimension [3 - 2*estimates[5]] that [process_file] prints
    and [save_results] writes. *)
Definition Deff (p : Params) : R := 3 - 2 * q p.

(** [lo <= x <= hi], component by component. *)
Definition within (lo hi x : Params) : Prop :=
  Eg lo <= Eg x <= Eg hi /\ Eb lo <= Eb x <= Eb hi
  /\ Gamma lo <= Gamma x <= Gamma hi /\ ucvsq lo <= ucvsq x <= ucvsq hi
  /\ mhcnp lo <= mhcnp x <= mhcnp hi /\ q lo <= q x <= q hi.

(** A feasible box: [lo <= hi], component by component. *)
Definition ordered (lo hi : Params) : Prop :=
  Eg lo <= Eg hi /\ Eb lo <= Eb hi /\ Gamma lo <= Gamma hi
  /\ ucvsq lo <= ucvsq hi /\ mhcnp lo <= mhcnp hi /\ q lo <= q hi.

(** What [method='L-BFGS-B'] with [bounds=Bounds(lb, rb)] guarantees of
    [result.x] on a feasible box. *)
Definition respects_bounds (lib : SciLib) : Prop :=
  forall (f : Params -> result R) (x0 lo hi x : Params),
    ordered lo hi -> minimize f x0 lo hi = Ok x -> within lo hi x.

(** The seed of the preliminary fit lies in the box handed to the optimiser,
    whatever [Eg] was detected. *)
Definition feasible_seed (self : FSumFitter) : Prop :=
  forall initial_Eg : R,
    within (fst (dynamic_bounds self initial_Eg))
      (snd (dynamic_bounds self initial_Eg))
      (dynamic_start_point self initial_Eg).

(** ** plot_results: the grid of subplots *)

(** [int(np.ceil(x))]. *)
Definition np_ceil (x : R) : Z := (1 - up (- x))%Z.

(** [plot_results]: [None] when no dataset was processed, else
    [(n_rows, n_cols)] as passed to [plt.subplots]. *)
Definition plot_grid (num_datasets : nat) : result (option (nat * nat)) :=
  if Nat.eqb num_datasets 0 then Ok None
  else
    let n_cols := Z.to_nat (np_ceil (sqrt (INR num_datasets))) in
    ratio <- pydiv (INR num_datasets) (INR n_cols) ;;
    let n_rows := Z.to_nat (np_ceil ratio) in
    Ok (Some (n_rows, n_cols)).

(** * Properties *)

(** ** Comparisons, division and the monadic combinators *)

Lemma Rltb_true (x y : R) : x < y -> Rltb x y = true.
Proof. intros H. unfold Rltb. destruct (Rlt_dec x y); [reflexivity | contradiction]. Qed.

Lemma Rltb_false (x y : R) : ~ x < y -> Rltb x y = false.
Proof. intros H. unfold Rltb. destruct (Rlt_dec x y); [contradiction | reflexivity]. Qed.

Lemma Rltb_true_iff (x y : R) : Rltb x y = true <-> x < y.
Proof.
  unfold Rltb. destruct (Rlt_dec x y); split; intros; try assumption;
    try reflexivity; try discriminate; contradiction.
Qed.

Lemma Rltb_false_iff (x y : R) : Rltb x y = false <-> y <= x.
Proof.
  unfold Rltb. destruct (Rlt_dec x y); split; intros; try discriminate;
    try reflexivity; lra.
Qed.

Lemma Rleb_true (x y : R) : x <= y -> Rleb x y = true.
Proof. intros H. unfold Rleb. destruct (Rle_dec x y); [reflexivity | contradiction]. Qed.

Lemma Rleb_false (x y : R) : ~ x <= y -> Rleb x y = false.
Proof. intros H. unfold Rleb. destruct (Rle_dec x y); [contradiction | reflexivity]. Qed.

Lemma Rleb_true_iff (x y : R) : Rleb x y = true <-> x <= y.
Proof.
  unfold Rleb. destruct (Rle_dec x y); split; intros; try assumption;
    try reflexivity; try discriminate; contradiction.
Qed.

Lemma Rleb_false_iff (x y : R) : Rleb x y = false <-> y < x.
Proof.
  unfold Rleb. destruct (Rle_dec x y); split; intros; try discriminate;
    try reflexivity; lra.
Qed.

Lemma pydiv_ok (x y : R) : y <> 0 -> pydiv x y = Ok (x / y).
Proof. intros H. unfold pydiv. destruct (Req_dec_T y 0); [contradiction | reflexivity]. Qed.

Lemma mapM_ok {A B : Type} (f : A -> result B) (g : A -> B) (l : list A) :
  (forall a, In a l -> f a = Ok (g a)) -> mapM f l = Ok (map g l).
Proof.
  induction l as [|a l IH]; intros H; simpl; [reflexivity|].
  rewrite (H a (or_introl eq_refl)). simpl.
  rewrite IH by (intros b Hb; apply H; right; exact Hb). reflexivity.
Qed.

Lemma foldM_ok {A S : Type} (body : S -> A -> result S) (g : S -> A -> S)
  (l : list A) (s : S) :
  (forall s a, body s a = Ok (g s a)) -> foldM body l s = Ok (fold_left g l s).
Proof.
  intros H. revert s. induction l as [|a l IH]; intros s; simpl;
    [reflexivity|]. rewrite H. simpl. apply IH.
Qed.

(** ** Lengths *)

Lemma zipWith_length {A B C : Type} (f : A -> B -> C) (l : list A)
  (m : list B) : length (zipWith f l m) = Nat.min (length l) (length m).
Proof.
  revert m. induction l as [|a l IH]; intros [|b m]; simpl; try reflexivity.
  now rewrite IH.
Qed.

Lemma vadd_length (a b : list R) :
  length a = length b -> length (vadd a b) = length a.
Proof. intros H. unfold vadd. rewrite zipWith_length, <- H. apply Nat.min_id. Qed.

Lemma zeros_length (n : nat) : length (zeros n) = n.
Proof. apply repeat_length. Qed.

Lemma exciton_line_length (p : Params) (xdata : list R) (n : nat) :
  length (exciton_line p xdata n) = length xdata.
Proof. apply length_map. Qed.

Lemma exciton_series_length (p : Params) (xdata : list R) :
  length (exciton_series p xdata) = length xdata.
Proof.
  unfold exciton_series.
  assert (H : forall l a1, length a1 = length xdata ->
            length (fold_left (fun a1 n => if skipped p n then a1
                       else vadd a1 (exciton_line p xdata n)) l a1)
            = length xdata).
  { induction l as [|n l IH]; intros a1 Ha; simpl; [exact Ha|].
    apply IH. destruct (skipped p n); [exact Ha|].
    rewrite vadd_length; [exact Ha|]. now rewrite exciton_line_length. }
  apply H, zeros_length.
Qed.

Lemma band_line_length (p : Params) (xdata : list R) (Ei : R) :
  length (band_line p xdata Ei) = length xdata.
Proof.
  unfold band_line. destruct (Rleb _ _); [apply zeros_length | apply length_map].
Qed.

Lemma trapz_from_length (w : nat) (a2 : list (list R)) :
  Forall (fun r => length r = w) a2 ->
  forall E r0 e0 acc, length r0 = w -> length acc = w ->
  length (trapz_from r0 e0 a2 E acc) = w.
Proof.
  induction 1 as [|r1 a2 Hr1 _ IH]; intros E r0 e0 acc Hr0 Hacc; simpl;
    [exact Hacc|].
  destruct E as [|e1 E]; [exact Hacc|].
  apply IH; [exact Hr1|].
  rewrite vadd_length; [exact Hacc|].
  rewrite length_map, vadd_length; congruence.
Qed.

Lemma trapz_length (w : nat) (a2 : list (list R)) (E : list R) :
  Forall (fun r => length r = w) a2 -> length (trapz a2 E w) = w.
Proof.
  intros H. unfold trapz. destruct a2 as [|r0 a2]; [apply zeros_length|].
  destruct E as [|e0 E]; [apply zeros_length|].
  inversion H; subst. apply trapz_from_length; auto using zeros_length.
Qed.

Lemma band_integral_length (p : Params) (xdata : list R) :
  length (band_integral p xdata) = length xdata.
Proof.
  unfold band_integral. apply trapz_length.
  apply Forall_forall. intros r Hr. apply in_map_iff in Hr.
  destruct Hr as [Ei [<- _]]. apply band_line_length.
Qed.

Lemma model_curve_length (p : Params) (xdata : list R) :
  length (model_curve p xdata) = length xdata.
Proof.
  unfold model_curve, vscale. rewrite length_map, vadd_length.
  - apply band_integral_length.
  - now rewrite band_integral_length, exciton_series_length.
Qed.

(** ** The numeric guards of fsum2d *)

Lemma cosh_ge_1 (x : R) : 1 <= cosh x.
Proof.
  unfold cosh. rewrite exp_Ropp.
  pose proof (exp_pos x) as Hp.
  assert (H : 2 <= exp x + / exp x).
  { set (a := exp x) in *.
    assert (Hi : 0 < / a) by (apply Rinv_0_lt_compat; exact Hp).
    assert (He : a + / a - 2 = (a - 1) * (a - 1) * / a) by (field; lra).
    pose proof (Rle_0_sqr (a - 1)) as Hs. unfold Rsqr in Hs.
    pose proof (Rmult_le_pos _ _ Hs (Rlt_le _ _ Hi)). lra. }
  lra.
Qed.

Lemma cosh_neq_0 (x : R) : cosh x <> 0.
Proof. pose proof (cosh_ge_1 x). lra. Qed.

Lemma sech_pos (x : R) : 0 < sech x.
Proof.
  unfold sech. pose proof (cosh_ge_1 x).
  apply Rdiv_lt_0_compat; lra.
Qed.

Lemma gamma_safe_floor (p : Params) : 1e-10 <= gamma_safe p.
Proof. unfold gamma_safe. apply Rmax_r. Qed.

Lemma gamma_safe_neq_0 (p : Params) : gamma_safe p <> 0.
Proof. pose proof (gamma_safe_floor p). lra. Qed.

Lemma band_denominator_pos (s : R) : 0 < band_denominator s.
Proof.
  unfold band_denominator.
  destruct (Rleb s 0) eqn:Hs; [lra|].
  apply Rleb_false_iff in Hs.
  destruct (Rltb _ _) eqn:Hd; [lra|].
  assert (Hlt : exp (-2 * PI * sqrt s) < 1).
  { rewrite <- exp_0. apply exp_increasing.
    pose proof PI_RGT_0. pose proof (sqrt_lt_R0 s Hs). nra. }
  lra.
Qed.

Lemma cosh_args_ok (gs center : R) (xdata : list R) :
  gs <> 0 ->
  cosh_args gs center xdata
  = Ok (map (fun x => np_clip (-700) 700 ((x - center) / gs)) xdata).
Proof.
  intros H. unfold cosh_args.
  rewrite (mapM_ok _ (fun x => (x - center) / gs))
    by (intros; now apply pydiv_ok).
  simpl. now rewrite map_map.
Qed.

Lemma inv_cosh_ok (args : list R) : inv_cosh args = Ok (map sech args).
Proof.
  unfold inv_cosh. apply mapM_ok. intros c _. apply pydiv_ok, cosh_neq_0.
Qed.

(** The loop body of the exciton sum never faults: it leaves the accumulator
    alone for a skipped term and adds the line otherwise. *)
Lemma exciton_step_ok (p : Params) (xdata a1 : list R) (n : nat) :
  exciton_step p xdata a1 n
  = Ok (if skipped p n then a1 else vadd a1 (exciton_line p xdata n)).
Proof.
  unfold exciton_step, skipped.
  destruct (Rltb (Rabs (INR n - q p)) 1e-10) eqn:Hs; [reflexivity|].
  apply Rltb_false_iff in Hs.
  assert (Hd : INR n - q p <> 0).
  { intros H0. rewrite H0, Rabs_R0 in Hs. lra. }
  rewrite pydiv_ok by (apply pow_nonzero; exact Hd). cbn [bind].
  rewrite cosh_args_ok by apply gamma_safe_neq_0. cbn [bind].
  rewrite pydiv_ok by (apply pow_nonzero; exact Hd). cbn [bind].
  rewrite inv_cosh_ok. cbn [bind].
  unfold exciton_line, lineshape. now rewrite !map_map.
Qed.

(** A row of the band grid never faults. *)
Lemma band_row_ok (p : Params) (xdata : list R) (Ei : R) :
  band_row p xdata Ei = Ok (band_line p xdata Ei).
Proof.
  unfold band_row, band_line.
  destruct (Rleb (Ei - Eg p) 0) eqn:Hd; [reflexivity|].
  apply Rleb_false_iff in Hd.
  rewrite pydiv_ok by lra. cbn [bind].
  rewrite cosh_args_ok by apply gamma_safe_neq_0. cbn [bind].
  rewrite inv_cosh_ok. cbn [bind].
  rewrite pydiv_ok
    by (pose proof (band_denominator_pos (Eb p / (Ei - Eg p))); lra).
  cbn [bind]. unfold band_weight, lineshape. now rewrite !map_map.
Qed.

(** [fsum2d] in closed form: the only exception it can raise is the
    broadcasting error of [FittedCurve - ydata]. *)
Lemma fsum2d_eq (p : Params) (xdata ydata : list R) :
  fsum2d p xdata ydata
  = (ErrorVector <- broadcast_sub (model_curve p xdata) ydata ;;
     let sse := np_sum (map (fun e => e ^ 2) ErrorVector) in
     Ok (mkFsumOut (if Rleb (mhcnp p) 0 then 10 * sse else sse)
           (model_curve p xdata)
           (vscale (ucvsq p * sqrt (Eb p)) (exciton_series p xdata))
           (vscale (ucvsq p * sqrt (Eb p)) (band_integral p xdata)))).
Proof.
  unfold fsum2d.
  rewrite (foldM_ok _ (fun a1 n => if skipped p n then a1
                         else vadd a1 (exciton_line p xdata n)))
    by (intros; apply exciton_step_ok).
  cbn [bind].
  rewrite (mapM_ok _ (band_line p xdata)) by (intros; apply band_row_ok).
  cbn [bind].
  unfold model_curve, band_integral, band_grid, exciton_series.
  destruct (broadcast_sub _ ydata); reflexivity.
Qed.

Lemma broadcast_sub_same_length (a b : list R) :
  length a = length b -> broadcast_sub a b = Ok (zipWith Rminus a b).
Proof. intros H. unfold broadcast_sub. now rewrite H, Nat.eqb_refl. Qed.

(** On arrays of one length [fsum2d] returns. *)
Lemma fsum2d_same_length (p : Params) (xdata ydata : list R) :
  length xdata = length ydata ->
  fsum2d p xdata ydata
  = Ok (mkFsumOut
          (if Rleb (mhcnp p) 0
           then 10 * residual_ss (model_curve p xdata) ydata
           else residual_ss (model_curve p xdata) ydata)
          (model_curve p xdata)
          (vscale (ucvsq p * sqrt (Eb p)) (exciton_series p xdata))
          (vscale (ucvsq p * sqrt (Eb p)) (band_integral p xdata))).
Proof.
  intros H. rewrite fsum2d_eq, broadcast_sub_same_length
    by (now rewrite model_curve_length).
  reflexivity.
Qed.

Lemma broadcast_sub_raises (a b : list R) (e : exn) :
  broadcast_sub a b = Raise e -> e = ValueError /\ length a <> length b.
Proof.
  unfold broadcast_sub. destruct (Nat.eqb _ _) eqn:Hl; [discriminate|].
  apply Nat.eqb_neq in Hl.
  destruct a as [|a0 [|a1 a]], b as [|b0 [|b1 b]]; try discriminate;
    intros H; inversion H; auto.
Qed.

Lemma cosh_gt_1 (x : R) : x <> 0 -> 1 < cosh x.
Proof.
  intros Hx. unfold cosh. rewrite exp_Ropp.
  pose proof (exp_pos x) as Hp. set (a := exp x) in *.
  assert (Ha : a <> 1).
  { intros H1. apply Hx. apply exp_inv. rewrite exp_0. exact H1. }
  assert (Hi : 0 < / a) by (apply Rinv_0_lt_compat; exact Hp).
  assert (He : a + / a - 2 = (a - 1) * (a - 1) * / a) by (field; lra).
  assert (Hs : 0 < (a - 1) * (a - 1)) by nra.
  pose proof (Rmult_lt_0_compat _ _ Hs Hi). lra.
Qed.

Lemma sech_lt_1 (x : R) : x <> 0 -> sech x < 1.
Proof.
  intros Hx. unfold sech. pose proof (cosh_gt_1 x Hx) as H.
  apply Rmult_lt_reg_r with (cosh x); [lra|].
  unfold Rdiv. rewrite Rmult_assoc, Rinv_l by lra. lra.
Qed.

Lemma np_clip_id (lo hi x : R) : lo <= x <= hi -> np_clip lo hi x = x.
Proof.
  intros [H1 H2]. unfold np_clip.
  rewrite Rmax_left by exact H1. now rewrite Rmin_left.
Qed.

(** Skipped terms can be dropped from the loop. *)
Lemma exciton_series_filter (p : Params) (xdata : list R) :
  exciton_series p xdata
  = fold_left (fun a1 n => vadd a1 (exciton_line p xdata n))
      (filter (fun n => negb (skipped p n)) (seq 1 50))
      (zeros (length xdata)).
Proof.
  unfold exciton_series. generalize (zeros (length xdata)) as a1.
  induction (seq 1 50) as [|n l IH]; intros a1; simpl; [reflexivity|].
  destruct (skipped p n); simpl; apply IH.
Qed.

(** ** The lineshape of the model evaluator *)

(** C1, as the code has it.  In [fsum2d] every exciton term [n] that is not
    skipped adds to the accumulator a line centred at
    [Enx = Eg - Eb/(n-q)^2] with amplitude [2 Eb/(n-q)^3], weighted by the
    hyperbolic secant TO THE FIRST POWER of [(E - Enx)/gamma_safe] clamped to
    [-700, 700]; every row of the band grid with a positive energy
    difference [dE] is the same first-power shape factor times
    [(1 + 10 m dE + 126 m^2 dE^2) / denominator], the denominator being
    [1 - exp(-2 pi sqrt(Eb/dE))] behind its two guards; and the outputs of
    [fsum2d] are [ucvsq * sqrt Eb] times the sum of these lines over
    [n = 1..50] and times the trapezoidal integral of these rows. *)
Theorem fsum2d_lineshape_first_power (p : Params) (xdata ydata : list R) :
  (forall (a1 : list R) (n : nat),
      exciton_step p xdata a1 n
      = Ok (if Rltb (Rabs (INR n - q p)) 1e-10 then a1
            else vadd a1
                   (map (fun E =>
                           2 * Eb p / (INR n - q p) ^ 3
                           * sech (np_clip (-700) 700
                                     ((E - (Eg p - Eb p / (INR n - q p) ^ 2))
                                      / gamma_safe p)))
                        xdata)))
  /\ (forall Ei : R,
         band_row p xdata Ei
         = Ok (if Rleb (Ei - Eg p) 0 then zeros (length xdata)
               else map (fun E =>
                           sech (np_clip (-700) 700 ((E - Ei) / gamma_safe p))
                           * ((1 + (10 * mhcnp p * (Ei - Eg p)
                                    + 126 * mhcnp p ^ 2 * (Ei - Eg p) ^ 2))
                              / band_denominator (Eb p / (Ei - Eg p))))
                        xdata))
  /\ (forall s : R,
         band_denominator s
         = if Rleb s 0 then 1
           else if Rltb (Rabs (1 - exp (-2 * PI * sqrt s))) 1e-10 then 1e-10
                else 1 - exp (-2 * PI * sqrt s))
  /\ fsum2d p xdata ydata
     = (ErrorVector <- broadcast_sub (model_curve p xdata) ydata ;;
        let sse := np_sum (map (fun e => e ^ 2) ErrorVector) in
        Ok (mkFsumOut (if Rleb (mhcnp p) 0 then 10 * sse else sse)
              (vscale (ucvsq p * sqrt (Eb p))
                 (vadd (band_integral p xdata) (exciton_series p xdata)))
              (vscale (ucvsq p * sqrt (Eb p)) (exciton_series p xdata))
              (vscale (ucvsq p * sqrt (Eb p)) (band_integral p xdata)))).
Proof.
  split; [|split; [|split]].
  - intros a1 n. rewrite exciton_step_ok. reflexivity.
  - intros Ei. rewrite band_row_ok. reflexivity.
  - intros s. reflexivity.
  - apply fsum2d_eq.
Qed.

(** C1, as it is stated, fails.  At [Eg = Eb = Gamma = 1], [q = 0] and the
    one-point axis [E = 1], the first exciton term has [Enx = 0], so the
    shape argument is 1: the code adds [2 sech 1], not [2 sech^2 1]. *)
Lemma exciton_term_not_sech_squared :
  exciton_step (mkParams 1 1 1 1 1 0) [1] (zeros 1) 1
  <> Ok (vadd (zeros 1) [squared_exciton_term (mkParams 1 1 1 1 1 0) 1 1]).
Proof.
  rewrite exciton_step_ok.
  unfold skipped, exciton_line, lineshape, squared_exciton_term, gamma_safe.
  cbn [q Eg Eb Gamma map zeros repeat vadd zipWith INR].
  replace (1 - 0) with 1 by lra.
  rewrite Rabs_R1, Rltb_false by lra.
  rewrite Rmax_left by lra.
  replace ((1 - (1 - 1 / 1 ^ 2)) / 1) with 1 by field.
  rewrite np_clip_id by lra.
  intros H. injection H as H.
  pose proof (sech_pos 1) as Hp.
  pose proof (sech_lt_1 1 ltac:(lra)) as Hl.
  replace (2 * 1 / 1 ^ 3) with 2 in H by field.
  nra.
Qed.

(** ** Guards against singular terms *)

(** C9.  A term [n] of the exciton series with [|n - q| < 1e-10], in
    particular [q = n], leaves the accumulator as it is and is absent from
    the sum; [fsum2d] raises no division fault on any input and returns on
    arrays of one length; the linewidth in every shape denominator is
    [gamma_safe = max(|Gamma|, 1e-10)], which is [1e-10] for [Gamma = 0]. *)
Theorem singular_exciton_term_skipped
  (p : Params) (xdata ydata : list R) (n : nat) :
  (1 <= n <= 50)%nat ->
  Rabs (INR n - q p) < 1e-10 ->
  (forall a1, exciton_step p xdata a1 n = Ok a1)
  /\ (exciton_series p xdata
      = fold_left (fun a1 m => vadd a1 (exciton_line p xdata m))
          (filter (fun m => negb (skipped p m)) (seq 1 50))
          (zeros (length xdata))
      /\ ~ In n (filter (fun m => negb (skipped p m)) (seq 1 50)))
  /\ fsum2d p xdata ydata <> Raise ZeroDivisionError
  /\ (length xdata = length ydata -> exists o, fsum2d p xdata ydata = Ok o)
  /\ gamma_safe p = Rmax (Rabs (Gamma p)) 1e-10
  /\ 1e-10 <= gamma_safe p
  /\ (Gamma p = 0 -> gamma_safe p = 1e-10)
  /\ (forall center,
         cosh_args (gamma_safe p) center xdata
         = Ok (map (fun E => np_clip (-700) 700 ((E - center) / gamma_safe p))
                 xdata)).
Proof.
  intros Hn Hq.
  assert (Hs : skipped p n = true) by (apply Rltb_true; exact Hq).
  repeat split.
  - intros a1. rewrite exciton_step_ok, Hs. reflexivity.
  - apply exciton_series_filter.
  - intros Hin. apply filter_In in Hin. destruct Hin as [_ Hf].
    rewrite Hs in Hf. discriminate.
  - rewrite fsum2d_eq. intros H.
    destruct (broadcast_sub (model_curve p xdata) ydata) eqn:Hb;
      cbn [bind] in H; [discriminate|].
    apply broadcast_sub_raises in Hb. destruct Hb as [-> _]. discriminate.
  - intros Hl. rewrite (fsum2d_same_length _ _ _ Hl). eexists; reflexivity.
  - apply gamma_safe_floor.
  - intros H0. unfold gamma_safe. rewrite H0, Rabs_R0.
    apply Rmax_right. lra.
  - intros center. apply cosh_args_ok, gamma_safe_neq_0.
Qed.

(** [q = 3] and [Gamma = 0]: the third term is skipped. *)
Lemma singular_exciton_term_skipped_witness :
  (forall a1, exciton_step (mkParams 1 1 0 1 1 3) [1] a1 3 = Ok a1)
  /\ fsum2d (mkParams 1 1 0 1 1 3) [1] [0] <> Raise ZeroDivisionError
  /\ gamma_safe (mkParams 1 1 0 1 1 3) = 1e-10.
Proof.
  assert (H1 : (1 <= 3 <= 50)%nat) by lia.
  assert (H2 : Rabs (INR 3 - q (mkParams 1 1 0 1 1 3)) < 1e-10).
  { cbn [q INR]. replace (1 + 1 + 1 - 3) with 0 by lra.
    rewrite Rabs_R0. lra. }
  destruct (singular_exciton_term_skipped (mkParams 1 1 0 1 1 3) [1] [0] 3
              H1 H2) as (Ha & _ & Hb & _ & _ & _ & Hc & _).
  split; [exact Ha|]. split; [exact Hb|]. apply Hc. reflexivity.
Defined.

(** ** Pointwise order on arrays and the trapezoidal rule *)

Lemma zipWith_Forall2 {A B C : Type} (f : A -> B -> C)
  (P : A -> A -> Prop) (Q : B -> B -> Prop) (S : C -> C -> Prop) :
  (forall x x' y y', P x x' -> Q y y' -> S (f x y) (f x' y')) ->
  forall a a', Forall2 P a a' -> forall b b', Forall2 Q b b' ->
  Forall2 S (zipWith f a b) (zipWith f a' b').
Proof.
  intros Hf a a' Ha. induction Ha as [|x x' a a' Hx _ IH];
    intros b b' Hb; simpl; [constructor|].
  destruct Hb as [|y y' b b' Hy Hb]; constructor; auto.
Qed.

Lemma zipWith_Forall {A B C : Type} (f : A -> B -> C)
  (P : A -> Prop) (Q : B -> Prop) (S : C -> Prop) :
  (forall x y, P x -> Q y -> S (f x y)) ->
  forall a, Forall P a -> forall b, Forall Q b -> Forall S (zipWith f a b).
Proof.
  intros Hf a Ha. induction Ha as [|x a Hx _ IH]; intros b Hb; simpl;
    [constructor|].
  destruct Hb as [|y b Hy Hb]; constructor; auto.
Qed.

Lemma map_Forall2 {A B : Type} (f g : A -> B) (P : A -> A -> Prop)
  (Q : B -> B -> Prop) :
  (forall x x', P x x' -> Q (f x) (g x')) ->
  forall a a', Forall2 P a a' -> Forall2 Q (map f a) (map g a').
Proof. intros Hf a a' Ha. induction Ha; simpl; constructor; auto. Qed.

Lemma map_same_Forall2 {A B : Type} (f g : A -> B) (Q : B -> B -> Prop)
  (l : list A) :
  (forall x, In x l -> Q (f x) (g x)) -> Forall2 Q (map f l) (map g l).
Proof.
  induction l as [|x l IH]; intros H; simpl; constructor.
  - apply H. now left.
  - apply IH. intros y Hy. apply H. now right.
Qed.

Lemma Forall2_Rlt_Rle (a b : list R) : Forall2 Rlt a b -> Forall2 Rle a b.
Proof. apply Forall2_impl. intros; lra. Qed.

Lemma Forall2_refl_Rle (a : list R) : Forall2 Rle a a.
Proof. induction a; constructor; auto; lra. Qed.

(** One step of the rule is monotone in the rows and in the accumulator. *)
Lemma trapz_term_le (e0 e1 : R) (r0 r0' r1 r1' acc acc' : list R) :
  e0 <= e1 -> Forall2 Rle r0 r0' -> Forall2 Rle r1 r1' ->
  Forall2 Rle acc acc' ->
  Forall2 Rle (vadd acc (map (fun s => (e1 - e0) * s / 2) (vadd r1 r0)))
    (vadd acc' (map (fun s => (e1 - e0) * s / 2) (vadd r1' r0'))).
Proof.
  intros He H0 H1 Ha. unfold vadd.
  apply (zipWith_Forall2 Rplus Rle Rle Rle); [intros; lra | exact Ha |].
  apply (map_Forall2 _ _ Rle Rle); [intros; nra|].
  apply (zipWith_Forall2 Rplus Rle Rle Rle); [intros; lra | exact H1 | exact H0].
Qed.

Lemma trapz_term_lt (e0 e1 : R) (r0 r0' r1 r1' acc acc' : list R) :
  e0 < e1 -> Forall2 Rle r0 r0' -> Forall2 Rlt r1 r1' ->
  Forall2 Rle acc acc' ->
  Forall2 Rlt (vadd acc (map (fun s => (e1 - e0) * s / 2) (vadd r1 r0)))
    (vadd acc' (map (fun s => (e1 - e0) * s / 2) (vadd r1' r0'))).
Proof.
  intros He H0 H1 Ha. unfold vadd.
  apply (zipWith_Forall2 Rplus Rle Rlt Rlt); [intros; lra | exact Ha |].
  apply (map_Forall2 _ _ Rlt Rlt); [intros; nra|].
  apply (zipWith_Forall2 Rplus Rlt Rle Rlt); [intros; lra | exact H1 | exact H0].
Qed.

Lemma trapz_from_lt_acc (a2 a2' : list (list R)) :
  Forall2 (Forall2 Rle) a2 a2' ->
  forall E r0 r0' e0 acc acc',
    Sorted Rlt (e0 :: E) -> Forall2 Rle r0 r0' -> Forall2 Rlt acc acc' ->
    Forall2 Rlt (trapz_from r0 e0 a2 E acc) (trapz_from r0' e0 a2' E acc').
Proof.
  induction 1 as [|r1 r1' a2 a2' Hr1 _ IH]; intros E r0 r0' e0 acc acc'
    Hs H0 Ha; simpl; [exact Ha|].
  destruct E as [|e1 E]; [exact Ha|].
  inversion Hs as [|? ? Hs' Hhd]; subst. inversion Hhd; subst.
  apply IH; [exact Hs' | exact Hr1 |].
  unfold vadd.
  apply (zipWith_Forall2 Rplus Rlt Rle Rlt); [intros; lra | exact Ha |].
  apply (map_Forall2 _ _ Rle Rle); [intros; nra|].
  apply (zipWith_Forall2 Rplus Rle Rle Rle); [intros; lra | exact Hr1 | exact H0].
Qed.

(** Strictly larger rows after the first one give a strictly larger
    integral. *)
Lemma trapz_from_lt (a2 a2' : list (list R)) (E : list R)
  (r0 r0' : list R) (e0 : R) (acc acc' : list R) :
  Forall2 (Forall2 Rlt) a2 a2' -> a2 <> [] -> length E = length a2 ->
  Sorted Rlt (e0 :: E) -> Forall2 Rle r0 r0' -> Forall2 Rle acc acc' ->
  Forall2 Rlt (trapz_from r0 e0 a2 E acc) (trapz_from r0' e0 a2' E acc').
Proof.
  intros H Hne Hlen Hs H0 Ha.
  destruct H as [|r1 r1' a2 a2' Hr1 Hrest]; [contradiction|].
  destruct E as [|e1 E]; [discriminate|]. simpl.
  inversion Hs as [|? ? Hs' Hhd]; subst. inversion Hhd; subst.
  apply trapz_from_lt_acc.
  - revert Hrest. apply Forall2_impl. intros. now apply Forall2_Rlt_Rle.
  - exact Hs'.
  - now apply Forall2_Rlt_Rle.
  - now apply trapz_term_lt.
Qed.

Lemma trapz_from_nonneg (a2 : list (list R)) :
  Forall (Forall (Rle 0)) a2 ->
  forall E r0 e0 acc,
    Sorted Rlt (e0 :: E) -> Forall (Rle 0) r0 -> Forall (Rle 0) acc ->
    Forall (Rle 0) (trapz_from r0 e0 a2 E acc).
Proof.
  induction 1 as [|r1 a2 Hr1 _ IH]; intros E r0 e0 acc Hs H0 Ha; simpl;
    [exact Ha|].
  destruct E as [|e1 E]; [exact Ha|].
  inversion Hs as [|? ? Hs' Hhd]; subst. inversion Hhd; subst.
  apply IH; [exact Hs' | exact Hr1 |].
  unfold vadd.
  apply (zipWith_Forall Rplus (Rle 0) (Rle 0) (Rle 0));
    [intros; lra | exact Ha |].
  apply Forall_map.
  apply (zipWith_Forall Rplus (Rle 0) (Rle 0)
           (fun s => 0 <= (e1 - e0) * s / 2)); [intros; nra | exact Hr1 | exact H0].
Qed.

Lemma zeros_nonneg (n : nat) : Forall (Rle 0) (zeros n).
Proof. unfold zeros. induction n; simpl; constructor; auto; lra. Qed.

(** The grid of [np.linspace] for at least two points. *)
Lemma linspace_cons (a b : R) (k : nat) :
  linspace a b (S (S k))
  = (a + INR 0 * ((b - a) / INR (S k)))
    :: map (fun i => a + INR i * ((b - a) / INR (S k))) (seq 1 (S k)).
Proof.
  unfold linspace. replace (S (S k) - 1)%nat with (S k) by lia.
  reflexivity.
Qed.

Lemma affine_grid_sorted (a step : R) (n s : nat) :
  0 < step -> Sorted Rlt (map (fun i => a + INR i * step) (seq s n)).
Proof.
  intros Hstep. revert s. induction n as [|n IH]; intros s; cbn [map seq];
    [constructor|].
  constructor; [apply IH|].
  destruct n; cbn [map seq]; constructor.
  rewrite S_INR. nra.
Qed.

(** ** The continuum depends on the sign of mhcnp *)

Lemma lineshape_pos (gs center E : R) : 0 < lineshape gs center E.
Proof. apply sech_pos. Qed.

Lemma band_weight_nonneg (p : Params) (Ei : R) : 0 <= band_weight p Ei.
Proof.
  unfold band_weight. cbv zeta.
  pose proof (band_denominator_pos (Eb p / (Ei - Eg p))) as HD.
  set (t := mhcnp p * (Ei - Eg p)).
  replace (10 * mhcnp p * (Ei - Eg p)
           + 126 * mhcnp p ^ 2 * (Ei - Eg p) ^ 2)
    with (10 * t + 126 * t ^ 2) by (unfold t; ring).
  apply Rlt_le, Rdiv_lt_0_compat; [nra | exact HD].
Qed.

Lemma band_weight_flip_lt (p : Params) (Ei : R) :
  0 < Ei - Eg p -> mhcnp p < 0 ->
  band_weight p Ei < band_weight (flip_mhcnp p) Ei.
Proof.
  intros HdE Hm. unfold band_weight, flip_mhcnp. cbn [Eg Eb mhcnp]. cbv zeta.
  pose proof (band_denominator_pos (Eb p / (Ei - Eg p))) as HD.
  unfold Rdiv at 1 3.
  apply Rmult_lt_compat_r; [now apply Rinv_0_lt_compat|]. nra.
Qed.

Lemma grid_length_two (xdata : list R) :
  xdata <> [] -> exists k, (10 * length xdata = S (S k))%nat.
Proof.
  destruct xdata as [|x l]; [contradiction|]. intros _.
  exists (8 + 10 * length l)%nat. simpl length. lia.
Qed.

(** With a positive gap and a non-empty axis the integral is that of the
    affine grid [Eg + i * step], whose first row is zero. *)
Lemma band_integral_unfold (p : Params) (xdata : list R) (k : nat) :
  (10 * length xdata = S (S k))%nat ->
  band_integral p xdata
  = trapz_from (zeros (length xdata)) (Eg p + INR 0 * ((2 * Eg p - Eg p) / INR (S k)))
      (map (fun i => band_line p xdata
                       (Eg p + INR i * ((2 * Eg p - Eg p) / INR (S k))))
         (seq 1 (S k)))
      (map (fun i => Eg p + INR i * ((2 * Eg p - Eg p) / INR (S k)))
         (seq 1 (S k)))
      (zeros (length xdata)).
Proof.
  intros Hk. unfold band_integral, band_grid. rewrite Hk, linspace_cons.
  cbn [map trapz]. rewrite map_map. f_equal.
  unfold band_line. rewrite Rleb_true; [reflexivity|].
  cbn [INR]. lra.
Qed.

Lemma grid_step_pos (p : Params) (k : nat) :
  0 < Eg p -> 0 < (2 * Eg p - Eg p) / INR (S k).
Proof.
  intros Hg. apply Rdiv_lt_0_compat; [lra|]. apply lt_0_INR. lia.
Qed.

Lemma grid_point_above (p : Params) (k i : nat) :
  0 < Eg p -> In i (seq 1 (S k)) ->
  0 < Eg p + INR i * ((2 * Eg p - Eg p) / INR (S k)) - Eg p.
Proof.
  intros Hg Hi. apply in_seq in Hi.
  pose proof (grid_step_pos p k Hg) as Hs.
  assert (0 < INR i) by (apply lt_0_INR; lia). nra.
Qed.

Lemma grid_sorted (p : Params) (k : nat) :
  0 < Eg p ->
  Sorted Rlt ((Eg p + INR 0 * ((2 * Eg p - Eg p) / INR (S k)))
              :: map (fun i => Eg p + INR i * ((2 * Eg p - Eg p) / INR (S k)))
                   (seq 1 (S k))).
Proof.
  intros Hg.
  apply (affine_grid_sorted (Eg p) _ (S (S k)) 0 (grid_step_pos p k Hg)).
Qed.

Lemma band_integral_nonneg (p : Params) (xdata : list R) :
  0 < Eg p -> Forall (Rle 0) (band_integral p xdata).
Proof.
  intros Hg. destruct xdata as [|x l] eqn:Hx.
  - unfold band_integral. cbn. constructor.
  - rewrite <- Hx. assert (Hne : xdata <> []) by (rewrite Hx; discriminate).
    destruct (grid_length_two xdata Hne) as [k Hk].
    rewrite (band_integral_unfold p xdata k Hk).
    apply trapz_from_nonneg; auto using zeros_nonneg, grid_sorted.
    apply Forall_forall. intros r Hr. apply in_map_iff in Hr.
    destruct Hr as [i [<- Hi]]. unfold band_line.
    destruct (Rleb _ _); [apply zeros_nonneg|].
    apply Forall_forall. intros v Hv. apply in_map_iff in Hv.
    destruct Hv as [E [<- _]].
    pose proof (lineshape_pos (gamma_safe p)
                  (Eg p + INR i * ((2 * Eg p - Eg p) / INR (S k))) E).
    pose proof (band_weight_nonneg p
                  (Eg p + INR i * ((2 * Eg p - Eg p) / INR (S k)))).
    nra.
Qed.

(** For a negative [mhcnp] the sign-flipped vector has a strictly larger
    continuum at every point of the axis. *)
Lemma band_integral_flip_lt (p : Params) (xdata : list R) :
  0 < Eg p -> mhcnp p < 0 -> xdata <> [] ->
  Forall2 Rlt (band_integral p xdata) (band_integral (flip_mhcnp p) xdata).
Proof.
  intros Hg Hm Hne. destruct (grid_length_two xdata Hne) as [k Hk].
  rewrite (band_integral_unfold p xdata k Hk),
    (band_integral_unfold (flip_mhcnp p) xdata k Hk).
  change (Eg (flip_mhcnp p)) with (Eg p).
  apply trapz_from_lt.
  - apply map_same_Forall2. intros i Hi.
    pose proof (grid_point_above p k i Hg Hi) as Hd.
    unfold band_line. change (Eg (flip_mhcnp p)) with (Eg p).
    rewrite Rleb_false by lra.
    apply map_same_Forall2. intros E _.
    change (gamma_safe (flip_mhcnp p)) with (gamma_safe p).
    apply Rmult_lt_compat_l; [apply lineshape_pos|].
    now apply band_weight_flip_lt.
  - discriminate.
  - now rewrite !length_map.
  - now apply grid_sorted.
  - apply Forall2_refl_Rle.
  - apply Forall2_refl_Rle.
Qed.

Lemma exciton_series_flip (p : Params) (xdata : list R) :
  exciton_series (flip_mhcnp p) xdata = exciton_series p xdata.
Proof.
  unfold exciton_series.
  apply (f_equal (fun g => fold_left g (seq 1 50) (zeros (length xdata)))).
  reflexivity.
Qed.

Lemma exciton_series_nonneg (p : Params) (xdata : list R) :
  0 <= Eb p -> q p < 1 -> Forall (Rle 0) (exciton_series p xdata).
Proof.
  intros Hb Hq. unfold exciton_series.
  assert (H : forall l a1, (forall n, In n l -> (1 <= n)%nat) ->
            Forall (Rle 0) a1 ->
            Forall (Rle 0)
              (fold_left (fun a1 n => if skipped p n then a1
                            else vadd a1 (exciton_line p xdata n)) l a1)).
  { induction l as [|n l IH]; intros a1 Hl Ha; simpl; [exact Ha|].
    apply IH; [intros m Hm; apply Hl; now right|].
    destruct (skipped p n); [exact Ha|].
    unfold vadd.
    apply (zipWith_Forall Rplus (Rle 0) (Rle 0) (Rle 0));
      [intros; lra | exact Ha |].
    apply Forall_forall. intros v Hv. apply in_map_iff in Hv.
    destruct Hv as [E [<- _]].
    assert (Hn : 1 <= INR n).
    { change 1 with (INR 1). apply le_INR. apply Hl. now left. }
    assert (Hd : 0 < (INR n - q p) ^ 3) by (apply pow_lt; lra).
    pose proof (lineshape_pos (gamma_safe p)
                  (Eg p - Eb p / (INR n - q p) ^ 2) E) as Hs.
    assert (0 <= 2 * Eb p / (INR n - q p) ^ 3).
    { apply Rmult_le_pos; [lra|]. apply Rlt_le. now apply Rinv_0_lt_compat. }
    nra. }
  apply H; [|apply zeros_nonneg].
  intros n Hn. apply in_seq in Hn. lia.
Qed.

(** With a positive gap, a non-empty axis and a non-zero amplitude, the
    fitted curve of a negative [mhcnp] differs from that of its sign flip. *)
Lemma model_curve_flip_neq (p : Params) (xdata : list R) :
  0 < Eg p -> mhcnp p < 0 -> xdata <> [] -> ucvsq p * sqrt (Eb p) <> 0 ->
  model_curve p xdata <> model_curve (flip_mhcnp p) xdata.
Proof.
  intros Hg Hm Hne Hc.
  pose proof (band_integral_flip_lt p xdata Hg Hm Hne) as Hlt.
  pose proof (band_integral_length p xdata) as L1.
  pose proof (exciton_series_length p xdata) as L3.
  unfold model_curve. rewrite exciton_series_flip.
  change (ucvsq (flip_mhcnp p)) with (ucvsq p).
  change (Eb (flip_mhcnp p)) with (Eb p).
  destruct xdata as [|x l]; [contradiction|].
  destruct Hlt as [|b1 b2 B1 B2 Hb _]; [discriminate L1|].
  destruct (exciton_series p (x :: l)) as [|a A]; [discriminate L3|].
  unfold vscale, vadd. cbn [zipWith map]. intros Heq.
  injection Heq as Heq _.
  apply Rmult_eq_reg_l in Heq; [lra | exact Hc].
Qed.

(** ** The penalty for a non-positive mhcnp *)

(** C2, as the code has it.  For [mhcnp <= 0] the sse that [fsum2d]
    returns is exactly 10 times the residual sum of squares of the curve it
    returns for that same parameter vector; for [mhcnp > 0], which is the
    case of the sign-flipped vector of a negative [mhcnp], it is that
    residual itself, taken against the flipped vector's own curve, and that
    curve is another one whenever the gap is positive, the axis is not
    empty and the amplitude [ucvsq * sqrt Eb] is not zero. *)
Theorem sse_penalty_same_vector (p : Params) (xdata ydata : list R) :
  length xdata = length ydata ->
  mhcnp p <= 0 ->
  (exists o, fsum2d p xdata ydata = Ok o
             /\ out_FittedCurve o = model_curve p xdata
             /\ out_sse o = 10 * residual_ss (out_FittedCurve o) ydata)
  /\ (mhcnp p < 0 ->
      exists o', fsum2d (flip_mhcnp p) xdata ydata = Ok o'
                 /\ out_FittedCurve o' = model_curve (flip_mhcnp p) xdata
                 /\ out_sse o' = residual_ss (out_FittedCurve o') ydata)
  /\ (mhcnp p < 0 -> 0 < Eg p -> xdata <> [] ->
      ucvsq p * sqrt (Eb p) <> 0 ->
      model_curve p xdata <> model_curve (flip_mhcnp p) xdata).
Proof.
  intros Hl Hm. split; [|split; [|intros; now apply model_curve_flip_neq]].
  - rewrite (fsum2d_same_length p xdata ydata Hl).
    eexists. split; [reflexivity|]. cbn [out_sse out_FittedCurve].
    rewrite Rleb_true by exact Hm. auto.
  - intros Hneg. rewrite (fsum2d_same_length (flip_mhcnp p) xdata ydata Hl).
    eexists. split; [reflexivity|]. cbn [out_sse out_FittedCurve].
    rewrite Rleb_false by (cbn [flip_mhcnp mhcnp]; lra). auto.
Qed.

Lemma sse_penalty_same_vector_witness :
  exists o, fsum2d (mkParams 1 1 1 1 (-1) 0) [1] [0] = Ok o
            /\ out_sse o = 10 * residual_ss (out_FittedCurve o) [0].
Proof.
  assert (Hl : length [1] = length [0]) by reflexivity.
  assert (Hm : mhcnp (mkParams 1 1 1 1 (-1) 0) <= 0) by (cbn [mhcnp]; lra).
  destruct (sse_penalty_same_vector (mkParams 1 1 1 1 (-1) 0) [1] [0] Hl Hm)
    as ((o & Ho & _ & Hs) & _ & _).
  exists o. split; assumption.
Defined.

(** C2, as it is stated, fails.  At [Eg = Eb = Gamma = ucvsq = 1], [q = 0],
    [mhcnp = -1], on the one-point axis [E = 1] with observation 0, the
    sse is not 10 times the sse of the vector with [mhcnp = 1]: the
    continuum weight [1 + 10 m dE + 126 m^2 dE^2] is larger for [m = 1], so
    the two runs compare different curves with the data. *)
Lemma sse_not_ten_times_flipped :
  exists o1 o2,
    fsum2d (mkParams 1 1 1 1 (-1) 0) [1] [0] = Ok o1
    /\ fsum2d (flip_mhcnp (mkParams 1 1 1 1 (-1) 0)) [1] [0] = Ok o2
    /\ out_sse o1 <> 10 * out_sse o2.
Proof.
  set (p := mkParams 1 1 1 1 (-1) 0).
  rewrite (fsum2d_same_length p [1] [0] eq_refl).
  rewrite (fsum2d_same_length (flip_mhcnp p) [1] [0] eq_refl).
  do 2 eexists. split; [reflexivity|]. split; [reflexivity|].
  cbn [out_sse].
  rewrite (Rleb_true (mhcnp p) 0) by (cbn; lra).
  rewrite (Rleb_false (mhcnp (flip_mhcnp p)) 0) by (cbn; lra).
  assert (Hg : 0 < Eg p) by (cbn; lra).
  assert (Hm : mhcnp p < 0) by (cbn; lra).
  pose proof (band_integral_flip_lt p [1] Hg Hm ltac:(discriminate)) as Hlt.
  pose proof (band_integral_nonneg p [1] Hg) as Hnn.
  pose proof (exciton_series_nonneg p [1] ltac:(cbn; lra) ltac:(cbn; lra))
    as Hex.
  pose proof (band_integral_length p [1]) as L1.
  pose proof (band_integral_length (flip_mhcnp p) [1]) as L2.
  pose proof (exciton_series_length p [1]) as L3.
  unfold model_curve. rewrite exciton_series_flip.
  change (ucvsq (flip_mhcnp p)) with 1. change (Eb (flip_mhcnp p)) with 1.
  change (ucvsq p) with 1. change (Eb p) with 1.
  destruct (band_integral p [1]) as [|b1 [|? ?]]; try discriminate L1.
  destruct (band_integral (flip_mhcnp p) [1]) as [|b2 [|? ?]];
    try discriminate L2.
  destruct (exciton_series p [1]) as [|a [|? ?]]; try discriminate L3.
  inversion Hlt as [|? ? ? ? Hb _]; subst.
  inversion Hnn as [|? ? Hb1 _]; subst.
  inversion Hex as [|? ? Ha _]; subst.
  unfold residual_ss, vscale, vadd. cbn [zipWith map np_sum fold_right].
  rewrite sqrt_1. nra.
Qed.

(** ** fit_baseline *)

Ltac decide_cmp :=
  repeat match goal with
    | |- context [Rltb ?a ?b] =>
        first [ rewrite (Rltb_true a b) by lra
              | rewrite (Rltb_false a b) by lra ]
    | |- context [Rleb ?a ?b] =>
        first [ rewrite (Rleb_true a b) by lra
              | rewrite (Rleb_false a b) by lra ]
    end.

Lemma mask_first_length (len n : nat) : length (mask_first len n) = len.
Proof. unfold mask_first. rewrite length_app, !repeat_length. lia. Qed.

Lemma mask_last_length (len n : nat) : length (mask_last len n) = len.
Proof.
  unfold mask_last. destruct n; [apply repeat_length|].
  rewrite length_app, !repeat_length. lia.
Qed.

Lemma below_length (t : R) (xdata : list R) :
  length (below t xdata) = length xdata.
Proof. apply length_map. Qed.

Lemma low_energy_window_length (xdata : list R) (mask : list bool) :
  low_energy_window xdata = Ok mask -> length mask = length xdata.
Proof.
  unfold low_energy_window. destruct (ascending xdata) as [[|]|]; cbn [bind];
    intros H; inversion H; auto using mask_first_length, mask_last_length.
Qed.

Lemma select_baseline_mask_length (xdata : list R) (Eg Eb : option R)
  (mask : list bool) :
  select_baseline_mask xdata Eg Eb = Ok mask -> length mask = length xdata.
Proof.
  unfold select_baseline_mask.
  destruct Eg as [eg|]; [|apply low_energy_window_length].
  assert (Hlegacy :
    (if Nat.ltb (count_true (below eg xdata)) 5
     then Ok (mask_first (length xdata) (Nat.min 20 (length xdata)))
     else Ok (below eg xdata)) = Ok mask -> length mask = length xdata).
  { destruct (Nat.ltb _ _); intros H; inversion H;
      auto using mask_first_length, below_length. }
  destruct Eb as [eb|]; [|exact Hlegacy].
  destruct (Rltb 0 eb); [|exact Hlegacy]. clear Hlegacy.
  destruct (ascending xdata); cbn [bind]; [|discriminate].
  destruct (Nat.ltb (count_true (below (eg - 1.5 * eb) xdata)) 5);
    [apply low_energy_window_length|].
  intros H; inversion H. apply below_length.
Qed.

Lemma select_length (mask : list bool) (a : list R) :
  length mask = length a -> length (select mask a) = count_true mask.
Proof.
  revert a. induction mask as [|b mask IH]; intros [|x a] H;
    try discriminate; [reflexivity|].
  injection H as H. unfold count_true in *. simpl.
  destruct b; simpl; now rewrite IH.
Qed.

Lemma bool_index_ok (a : list R) (mask : list bool) :
  length a = length mask -> bool_index a mask = Ok (select mask a).
Proof. intros H. unfold bool_index. now rewrite H, Nat.eqb_refl. Qed.

Lemma bool_index_inv (a : list R) (mask : list bool) (r : list R) :
  bool_index a mask = Ok r -> length a = length mask /\ r = select mask a.
Proof.
  unfold bool_index. destruct (Nat.eqb _ _) eqn:H; [|discriminate].
  apply Nat.eqb_eq in H. intros E. inversion E. auto.
Qed.

(** The legacy fallback ([Eg] known, [Eb] absent or not positive, fewer than
    5 points below [Eg]) marks the first [min(20, len)] array positions,
    whatever the orientation of the axis. *)
Lemma legacy_fallback_mask (xdata : list R) (eg : R) (Eb : option R) :
  (count_true (below eg xdata) < 5)%nat ->
  (forall eb, Eb = Some eb -> eb <= 0) ->
  select_baseline_mask xdata (Some eg) Eb
  = Ok (mask_first (length xdata) (Nat.min 20 (length xdata))).
Proof.
  intros Hc Hb. apply Nat.ltb_lt in Hc. unfold select_baseline_mask.
  destruct Eb as [eb|]; [|now rewrite Hc].
  rewrite Rltb_false by (specialize (Hb eb eq_refl); lra).
  now rewrite Hc.
Qed.

(** C3 at a failing input.  On the descending axis 3.0, 2.9, ..., 1.0 eV
    (21 points) with [Eg = 1.25] and no [Eb], three points lie below [Eg],
    so the fallback applies: [fit_baseline] returns the mask of the first
    20 array positions, which are the 20 highest energies.  It misses the
    lowest-energy point (index 20) and is not the lowest-energy 20 points. *)
Theorem legacy_fallback_ignores_orientation :
  let xdata := [3.0; 2.9; 2.8; 2.7; 2.6; 2.5; 2.4; 2.3; 2.2; 2.1; 2.0;
                1.9; 1.8; 1.7; 1.6; 1.5; 1.4; 1.3; 1.2; 1.1; 1.0] in
  let mask := repeat true 20 ++ [false] in
  count_true (below 1.25 xdata) = 3%nat
  /\ select_baseline_mask xdata (Some 1.25) None = Ok mask
  /\ (exists baseline,
         fit_baseline (lib := reference_lib) (init 0.2 20 2) xdata
           (zeros 21) (Some 1.25) None = Ok (baseline, mask))
  /\ nth 0 mask false = true /\ nth 0 xdata 0 = 3.0
  /\ nth 20 mask false = false /\ nth 20 xdata 0 = 1.0
  /\ ~ lowest_energy_mask xdata mask 20.
Proof.
  intros xdata mask.
  assert (Hc : count_true (below 1.25 xdata) = 3%nat).
  { unfold xdata, below. cbn [map]. decide_cmp. reflexivity. }
  assert (Hm : select_baseline_mask xdata (Some 1.25) None = Ok mask).
  { rewrite legacy_fallback_mask; [reflexivity | rewrite Hc; lia |
      discriminate]. }
  split; [exact Hc|]. split; [exact Hm|]. split.
  { unfold fit_baseline. cbn [fitmode init Z.eqb]. rewrite Hm. cbn [bind].
    rewrite bool_index_ok by reflexivity. cbn [bind].
    rewrite select_length by reflexivity.
    change (Nat.ltb (count_true mask) 2) with false. cbv iota.
    unfold rayleigh_baseline.
    set (s8 := np_sum (map (fun x => x ^ 8) (select mask xdata))).
    destruct (Rltb s8 1e-10) eqn:Hs; [eexists; reflexivity|].
    apply Rltb_false_iff in Hs.
    rewrite pydiv_ok by lra. cbn [bind]. eexists; reflexivity. }
  repeat split; try reflexivity.
  intros (_ & _ & H). specialize (H 0%nat 20%nat eq_refl).
  cbn [length xdata] in H. specialize (H ltac:(unfold xdata; simpl; lia) eq_refl).
  unfold xdata in H. cbn [nth] in H. lra.
Qed.

(** [fit_baseline] past the mode-0 exit, for a mask that was built. *)
Lemma fit_baseline_after_mask {lib : SciLib} (self : FSumFitter)
  (xdata ydata : list R) (Eg Eb : option R) (mask : list bool) :
  fitmode self <> 0%Z ->
  select_baseline_mask xdata Eg Eb = Ok mask ->
  length ydata = length xdata ->
  fit_baseline self xdata ydata Eg Eb
  = if Nat.ltb (count_true mask) 2 then Ok (zeros (length xdata), mask)
    else if Z.eqb (fitmode self) 1 then
      '(c0, c1) <- polyfit1 (select mask xdata) (select mask ydata) ;;
      Ok (map (fun x => c0 * x + c1) xdata, mask)
    else if Z.eqb (fitmode self) 2 then
      baseline <- rayleigh_baseline xdata (select mask xdata)
                    (select mask ydata) ;;
      Ok (baseline, mask)
    else Raise ValueError.
Proof.
  intros H0 Hm Hl. unfold fit_baseline.
  apply Z.eqb_neq in H0. rewrite H0, Hm. cbn [bind].
  pose proof (select_baseline_mask_length _ _ _ _ Hm) as Hlen.
  rewrite bool_index_ok by congruence. cbn [bind].
  now rewrite select_length by exact Hlen.
Qed.

(** C4, as the code has it.  With an unsupported mode, once the mask is
    built: the call raises [ValueError] when the mask selects at least 2
    points, and returns the zero baseline with the mask, without raising,
    when it selects fewer than 2. *)
Theorem unsupported_mode_after_point_check {lib : SciLib}
  (self : FSumFitter) (xdata ydata : list R) (Eg Eb : option R)
  (mask : list bool) :
  fitmode self <> 0%Z -> fitmode self <> 1%Z -> fitmode self <> 2%Z ->
  select_baseline_mask xdata Eg Eb = Ok mask ->
  length ydata = length xdata ->
  ((2 <= count_true mask)%nat ->
   fit_baseline self xdata ydata Eg Eb = Raise ValueError)
  /\ ((count_true mask < 2)%nat ->
      fit_baseline self xdata ydata Eg Eb
      = Ok (zeros (length xdata), mask)).
Proof.
  intros H0 H1 H2 Hm Hl.
  rewrite (fit_baseline_after_mask self xdata ydata Eg Eb mask H0 Hm Hl).
  apply Z.eqb_neq in H1, H2. rewrite H1, H2. split; intros Hc.
  - apply Nat.ltb_ge in Hc. now rewrite Hc.
  - apply Nat.ltb_lt in Hc. now rewrite Hc.
Qed.

Lemma ascending_two (x0 x1 : R) : ascending [x0; x1] = Ok (Rltb x0 x1).
Proof. reflexivity. Qed.

(** Mode 3 on a two-point axis: both points are in the mask, the call
    raises. *)
Lemma unsupported_mode_after_point_check_witness :
  fit_baseline (lib := reference_lib) (init 0.2 20 3) [1; 2] [0; 0] None None
  = Raise ValueError.
Proof.
  assert (Hm : select_baseline_mask [1; 2] None None = Ok [true; true]).
  { unfold select_baseline_mask, low_energy_window.
    rewrite ascending_two, Rltb_true by lra. reflexivity. }
  apply (unsupported_mode_after_point_check (lib := reference_lib)
           (init 0.2 20 3) [1; 2] [0; 0] None None [true; true]);
    try (cbn; discriminate); try reflexivity; try exact Hm.
  all: cbn; lia.
Defined.

(** C4, as it is stated, fails.  Mode 3 on a one-point axis: the mask holds
    one point, and the call returns the zero baseline instead of raising. *)
Lemma unsupported_mode_returns_on_short_mask :
  fit_baseline (lib := reference_lib) (init 0.2 20 3) [1] [0] None None
  = Ok ([0], [true])
  /\ ~ (exists e, fit_baseline (lib := reference_lib) (init 0.2 20 3)
                    [1] [0] None None = Raise e).
Proof.
  assert (H : fit_baseline (lib := reference_lib) (init 0.2 20 3) [1] [0]
                None None = Ok ([0], [true])).
  { unfold fit_baseline, select_baseline_mask, low_energy_window, ascending.
    cbn [fitmode init Z.eqb item item_last nth_error last bind].
    rewrite Rltb_false by lra. reflexivity. }
  split; [exact H|]. intros [e He]. rewrite H in He. discriminate.
Qed.

(** C5.  In mode 2, for a mask that selects at least 2 points: when the sum
    of [E^8] over the masked points is at least [1e-10] the baseline is
    [a * E^4] over the whole axis with [a = sum(y E^4) / sum(E^8)] over the
    masked points; when that sum is below [1e-10] the baseline is zero; the
    mask is returned in both cases. *)
Theorem rayleigh_baseline_closed_form {lib : SciLib} (self : FSumFitter)
  (xdata ydata : list R) (Eg Eb : option R) (mask : list bool) :
  fitmode self = 2%Z ->
  select_baseline_mask xdata Eg Eb = Ok mask ->
  length ydata = length xdata ->
  (2 <= count_true mask)%nat ->
  let x_fit := select mask xdata in
  let y_fit := select mask ydata in
  let sum_E8 := np_sum (map (fun E => E ^ 8) x_fit) in
  let a := np_sum (zipWith Rmult y_fit (map (fun E => E ^ 4) x_fit))
           / sum_E8 in
  (1e-10 <= sum_E8 ->
   fit_baseline self xdata ydata Eg Eb
   = Ok (map (fun E => a * E ^ 4) xdata, mask))
  /\ (sum_E8 < 1e-10 ->
      fit_baseline self xdata ydata Eg Eb
      = Ok (zeros (length xdata), mask)).
Proof.
  intros H2 Hm Hl Hc x_fit y_fit sum_E8 a.
  rewrite (fit_baseline_after_mask self xdata ydata Eg Eb mask
             ltac:(rewrite H2; discriminate) Hm Hl).
  apply Nat.ltb_ge in Hc. rewrite Hc, H2. cbn [Z.eqb Pos.eqb].
  unfold rayleigh_baseline. fold x_fit y_fit sum_E8. split; intros Hs.
  - rewrite Rltb_false by lra. rewrite pydiv_ok by lra. reflexivity.
  - rewrite Rltb_true by exact Hs. reflexivity.
Qed.

(** Mode 2 on the axis [1, 2] with [y = 3 E^4]: the coefficient is
    [(3 + 48 * 16) / (1 + 256) = 3]. *)
Lemma rayleigh_baseline_closed_form_witness :
  fit_baseline (lib := reference_lib) (init 0.2 20 2) [1; 2] [3; 48]
    None None
  = Ok (map (fun E => np_sum (zipWith Rmult [3; 48]
                                (map (fun E => E ^ 4) [1; 2]))
                      / np_sum (map (fun E => E ^ 8) [1; 2]) * E ^ 4)
          [1; 2], [true; true]).
Proof.
  assert (Hm : select_baseline_mask [1; 2] None None = Ok [true; true]).
  { unfold select_baseline_mask, low_energy_window.
    rewrite ascending_two, Rltb_true by lra. reflexivity. }
  apply (rayleigh_baseline_closed_form (lib := reference_lib)
           (init 0.2 20 2) [1; 2] [3; 48] None None [true; true]
           eq_refl Hm eq_refl).
  - cbn. lia.
  - cbn. lra.
Defined.

(** ** calculate_urbach_energy *)

Lemma first_index_none (f : R -> bool) (a : list R) :
  (forall x, In x a -> f x = false) -> first_index f a = None.
Proof.
  induction a as [|x a IH]; intros H; simpl; [reflexivity|].
  rewrite (H x (or_introl eq_refl)).
  rewrite IH by (intros y Hy; apply H; now right). reflexivity.
Qed.

(** [first_index] is the first crossing in scan order. *)
Lemma first_index_some (f : R -> bool) (a : list R) (i : nat) :
  first_index f a = Some i ->
  (i < length a)%nat /\ f (nth i a 0) = true
  /\ forall j, (j < i)%nat -> f (nth j a 0) = false.
Proof.
  revert i. induction a as [|x a IH]; intros i; simpl; [discriminate|].
  destruct (f x) eqn:Hx.
  - intros H. inversion H; subst. repeat split; [lia | exact Hx | lia].
  - destruct (first_index f a) as [k|]; [|discriminate].
    intros H. inversion H; subst. destruct (IH k eq_refl) as (H1 & H2 & H3).
    repeat split; [lia | exact H2 |].
    intros [|j] Hj; [exact Hx | apply H3; lia].
Qed.

(** After a crossing the clamped window [start_idx : end_idx] always holds
    at least one point: the test [end_idx <= start_idx] cannot succeed. *)
Lemma urbach_window_not_empty (f : R -> bool) (xdata : list R) (index : nat) :
  first_index f xdata = Some index ->
  (Nat.min (index + 2) (length xdata - 1)
   < Nat.min (index + 10) (length xdata))%nat.
Proof. intros H. apply first_index_some in H. lia. Qed.

(** C7.  The threshold is [|Eb - Eg|]; when no point of the axis lies below
    it, and when the window from [min(index + 2, len - 1)] to
    [min(index + 10, len)] after the first crossing is empty, the function
    returns slope 0, intercept 0 and the zero curve of the length of the
    axis, and raises nothing. *)
Theorem urbach_fallback {lib : SciLib} (xdata ydata : list R) (Eb Eg : R) :
  (forall x, In x xdata -> ~ x < Rabs (Eb - Eg))
  \/ (exists index,
         first_index (fun x => Rltb x (Rabs (Eb - Eg))) xdata = Some index
         /\ (Nat.min (index + 10) (length xdata)
             <= Nat.min (index + 2) (length xdata - 1))%nat) ->
  calculate_urbach_energy xdata ydata Eb Eg
  = Ok (0, 0, zeros (length xdata))
  /\ length (zeros (length xdata)) = length xdata.
Proof.
  intros H. split; [|apply zeros_length].
  unfold calculate_urbach_energy. destruct H as [H | [index [Hi Hw]]].
  - rewrite first_index_none; [reflexivity|].
    intros x Hx. apply Rltb_false. now apply H.
  - rewrite Hi. apply Nat.leb_le in Hw. now rewrite Hw.
Qed.

(** [Eb = 0.05], [Eg = 2.6]: the threshold is 2.55 and the axis [3, 4] has
    no point below it. *)
Lemma urbach_fallback_witness :
  calculate_urbach_energy (lib := reference_lib) [3; 4] [1; 1] 0.05 2.6
  = Ok (0, 0, [0; 0]).
Proof.
  apply (urbach_fallback (lib := reference_lib) [3; 4] [1; 1] 0.05 2.6).
  left. intros x Hx.
  assert (Ht : Rabs (0.05 - 2.6) = 2.55).
  { rewrite Rabs_left by lra. lra. }
  rewrite Ht. destruct Hx as [<- | [<- | []]]; lra.
Defined.

(** ** Bandgap detection *)

Lemma find_seq_first (f : nat -> bool) (n s a : nat) :
  find f (seq s n) = Some a ->
  (s <= a < s + n)%nat /\ f a = true
  /\ forall j, (s <= j < a)%nat -> f j = false.
Proof.
  revert s. induction n as [|n IH]; intros s; simpl; [discriminate|].
  destruct (f s) eqn:Hs.
  - intros H. inversion H; subst. repeat split; try lia. exact Hs.
  - intros H. destruct (IH (S s) H) as (H1 & H2 & H3).
    repeat split; [lia | lia | exact H2 |].
    intros j Hj. destruct (Nat.eq_dec j s) as [->|]; [exact Hs|].
    apply H3. lia.
Qed.

Lemma find_rev_seq_last (f : nat -> bool) (n s a : nat) :
  find f (rev (seq s n)) = Some a ->
  (s <= a < s + n)%nat /\ f a = true
  /\ forall j, (a < j < s + n)%nat -> f j = false.
Proof.
  induction n as [|n IH]; [simpl; discriminate|].
  rewrite seq_S, rev_app_distr. cbn [rev app find].
  destruct (f (s + n)%nat) eqn:Hs.
  - intros H. inversion H; subst. repeat split; try lia. exact Hs.
  - intros H. destruct (IH H) as (H1 & H2 & H3).
    repeat split; [lia | lia | exact H2 |].
    intros j Hj. destruct (Nat.eq_dec j (s + n)) as [->|]; [exact Hs|].
    apply H3. lia.
Qed.

Lemma last_is_nth (a : list R) : last a 0 = nth (length a - 1) a 0.
Proof.
  induction a as [|x a IH]; [reflexivity|].
  destruct a as [|y a]; [reflexivity|].
  change (last (x :: y :: a) 0) with (last (y :: a) 0). rewrite IH.
  cbn [length]. replace (S (S (length a)) - 1)%nat with (S (length a)) by lia.
  replace (S (length a) - 1)%nat with (length a) by lia. reflexivity.
Qed.

Lemma StronglySorted_nth (rel : R -> R -> Prop) (l : list R) :
  StronglySorted rel l ->
  forall i j, (i < j < length l)%nat -> rel (nth i l 0) (nth j l 0).
Proof.
  induction 1 as [|x l Hs IH Hx]; intros i j Hij; [simpl in Hij; lia|].
  destruct j as [|j]; [lia|]. destruct i as [|i].
  - cbn [nth]. rewrite Forall_forall in Hx. apply Hx, nth_In.
    simpl in Hij. lia.
  - cbn [nth]. apply IH. simpl in Hij. lia.
Qed.

Lemma ascending_nonempty (xdata : list R) :
  xdata <> [] ->
  ascending xdata
  = Ok (Rltb (nth 0 xdata 0) (nth (length xdata - 1) xdata 0)).
Proof.
  intros H. destruct xdata as [|x l]; [contradiction|].
  unfold ascending, item, item_last. cbn [nth_error bind].
  now rewrite last_is_nth.
Qed.

Lemma item_nth (a : list R) (i : nat) :
  (i < length a)%nat -> item a i = Ok (nth i a 0).
Proof.
  intros H. unfold item.
  destruct (nth_error a i) eqn:E.
  - now rewrite (nth_error_nth _ _ 0 E).
  - apply nth_error_None in E. lia.
Qed.

(** The detection step on a strictly monotone axis: the energy returned is
    that of a point above 0.01 and the lowest energy of all such points,
    which is the first of them met from the low-energy end; with no such
    point it is the median. *)
Lemma detect_bandgap_spec {lib : SciLib} (xdata cleaned : list R) :
  length cleaned = length xdata ->
  StronglySorted Rlt xdata \/ StronglySorted Rgt xdata ->
  xdata <> [] ->
  ((exists i, (i < length xdata)%nat /\ 0.01 < nth i cleaned 0) ->
   exists i, (i < length xdata)%nat /\ 0.01 < nth i cleaned 0
             /\ (forall j, (j < length xdata)%nat -> 0.01 < nth j cleaned 0 ->
                           nth i xdata 0 <= nth j xdata 0)
             /\ detect_bandgap xdata cleaned = Ok (nth i xdata 0))
  /\ ((forall i, (i < length xdata)%nat -> ~ 0.01 < nth i cleaned 0) ->
      detect_bandgap xdata cleaned = np_median xdata).
Proof.
  intros Hlen Hsorted Hne. unfold detect_bandgap.
  rewrite (ascending_nonempty xdata Hne). cbn [bind]. rewrite Hlen.
  set (n := length xdata).
  set (f := fun idx => Rltb 0.01 (nth idx cleaned 0)).
  unfold first_above. fold f.
  destruct (Rltb (nth 0 xdata 0) (nth (n - 1) xdata 0)) eqn:Hasc.
  - (* scan from index 0 upwards *)
    apply Rltb_true_iff in Hasc.
    assert (Hup : StronglySorted Rlt xdata).
    { destruct Hsorted as [H|H]; [exact H|]. exfalso.
      destruct (Nat.eq_dec (n - 1) 0) as [E|E]; [rewrite E in Hasc; lra|].
      pose proof (StronglySorted_nth Rgt xdata H 0 (n - 1)
                    ltac:(fold n; lia)). unfold Rgt in *. lra. }
    split.
    + intros [i [Hi Hc]].
      destruct (find f (seq 0 n)) as [a|] eqn:Hf.
      * destruct (find_seq_first f n 0 a Hf) as (Ha & Hfa & Hfirst).
        exists a. repeat split; [lia | now apply Rltb_true_iff in Hfa | |
                                 apply item_nth; fold n; lia].
        intros j Hj Hcj.
        destruct (Nat.lt_ge_cases j a) as [Hlt|Hge].
        -- specialize (Hfirst j ltac:(lia)). unfold f in Hfirst.
           apply Rltb_false_iff in Hfirst. lra.
        -- destruct (Nat.eq_dec j a) as [->|]; [lra|].
           apply Rlt_le, (StronglySorted_nth Rlt xdata Hup). fold n. lia.
      * exfalso. pose proof (find_none f _ Hf i) as Hn.
        specialize (Hn ltac:(apply in_seq; lia)). unfold f in Hn.
        apply Rltb_false_iff in Hn. lra.
    + intros Hnone. destruct (find f (seq 0 n)) as [a|] eqn:Hf;
        [|reflexivity].
      exfalso. destruct (find_seq_first f n 0 a Hf) as (Ha & Hfa & _).
      apply (Hnone a ltac:(lia)). now apply Rltb_true_iff in Hfa.
  - (* scan from the last index downwards *)
    apply Rltb_false_iff in Hasc.
    assert (Hdown : forall i j, (i < j < n)%nat ->
                      nth j xdata 0 <= nth i xdata 0).
    { intros i j Hij. destruct Hsorted as [H|H].
      - exfalso.
        pose proof (StronglySorted_nth Rlt xdata H 0 (n - 1)
                      ltac:(fold n; lia)). lra.
      - pose proof (StronglySorted_nth Rgt xdata H i j Hij).
        unfold Rgt in *. lra. }
    split.
    + intros [i [Hi Hc]].
      destruct (find f (rev (seq 0 n))) as [a|] eqn:Hf.
      * destruct (find_rev_seq_last f n 0 a Hf) as (Ha & Hfa & Hlast).
        exists a. repeat split; [lia | now apply Rltb_true_iff in Hfa | |
                                 apply item_nth; fold n; lia].
        intros j Hj Hcj.
        destruct (Nat.lt_ge_cases a j) as [Hlt|Hge].
        -- specialize (Hlast j ltac:(lia)). unfold f in Hlast.
           apply Rltb_false_iff in Hlast. lra.
        -- destruct (Nat.eq_dec j a) as [->|]; [lra|].
           apply Hdown. lia.
      * exfalso. pose proof (find_none f _ Hf i) as Hn.
        specialize (Hn ltac:(apply in_rev; rewrite rev_involutive;
                             apply in_seq; lia)).
        unfold f in Hn. apply Rltb_false_iff in Hn. lra.
    + intros Hnone. destruct (find f (rev (seq 0 n))) as [a|] eqn:Hf;
        [|reflexivity].
      exfalso. destruct (find_rev_seq_last f n 0 a Hf) as (Ha & Hfa & _).
      apply (Hnone a ltac:(lia)). now apply Rltb_true_iff in Hfa.
Qed.

Lemma rayleigh_baseline_length (xdata x_fit y_fit bl : list R) :
  rayleigh_baseline xdata x_fit y_fit = Ok bl -> length bl = length xdata.
Proof.
  unfold rayleigh_baseline. destruct (Rltb _ _).
  - intros H. inversion H. apply zeros_length.
  - destruct (pydiv _ _); cbn [bind]; intros H; inversion H.
    apply length_map.
Qed.

Lemma fit_baseline_length {lib : SciLib} (self : FSumFitter)
  (xdata ydata : list R) (Eg Eb : option R) (bl : list R) (m : list bool) :
  fit_baseline self xdata ydata Eg Eb = Ok (bl, m) ->
  length bl = length xdata.
Proof.
  unfold fit_baseline. destruct (Z.eqb (fitmode self) 0).
  { intros H. inversion H. apply zeros_length. }
  destruct (select_baseline_mask xdata Eg Eb) as [mask|]; cbn [bind];
    [|discriminate].
  destruct (bool_index ydata mask) as [y_fit|]; cbn [bind]; [|discriminate].
  destruct (Nat.ltb _ _).
  { intros H. inversion H. apply zeros_length. }
  destruct (Z.eqb (fitmode self) 1).
  { destruct (polyfit1 _ _) as [[c0 c1]|]; cbn [bind]; intros H;
      inversion H. apply length_map. }
  destruct (Z.eqb (fitmode self) 2); [|discriminate].
  destruct (rayleigh_baseline _ _ _) as [b|] eqn:Hr; cbn [bind];
    intros H; inversion H; subst. now apply rayleigh_baseline_length in Hr.
Qed.

Lemma nth_zipWith_Rminus (a b : list R) (i : nat) :
  (i < length a)%nat -> length a = length b ->
  nth i (zipWith Rminus a b) 0 = nth i a 0 - nth i b 0.
Proof.
  revert b i. induction a as [|x a IH]; intros [|y b] i Hi Hl;
    simpl in *; try lia.
  destruct i as [|i]; [reflexivity|]. apply IH; lia.
Qed.

(** The data searched for the bandgap is raw minus initial baseline, point
    by point, in every mode. *)
Lemma bandgap_data_spec {lib : SciLib} (self : FSumFitter)
  (xdata raw_i bl : list R) (m : list bool) :
  length raw_i = length xdata ->
  initial_baseline self xdata raw_i = Ok (bl, m) ->
  exists cleaned,
    bandgap_data self raw_i bl = Ok cleaned
    /\ length cleaned = length xdata
    /\ forall i, (i < length xdata)%nat ->
                 nth i cleaned 0 = nth i raw_i 0 - nth i bl 0.
Proof.
  intros Hl Hb. unfold bandgap_data. unfold initial_baseline in Hb.
  destruct (Z.eqb (fitmode self) 0).
  - inversion Hb; subst. exists raw_i. repeat split; [exact Hl|].
    intros i Hi. unfold zeros. rewrite nth_repeat. lra.
  - destruct (ascending xdata); cbn [bind] in Hb; [|discriminate].
    apply fit_baseline_length in Hb.
    rewrite broadcast_sub_same_length by congruence.
    exists (zipWith Rminus raw_i bl). repeat split.
    + rewrite zipWith_length. lia.
    + intros i Hi. apply nth_zipWith_Rminus; congruence.
Qed.

(** C6.  On a strictly ascending or strictly descending axis, once the
    initial baseline is there: if some point has raw minus initial baseline
    above 0.01, the initial [Eg] is the energy of such a point and no other
    such point has a lower energy (it is the first one met from the
    low-energy end); if no point has, the initial [Eg] is the median of the
    axis. *)
Theorem bandgap_detection_from_low_energy_end {lib : SciLib}
  (self : FSumFitter) (xdata raw_i bl : list R) (m : list bool) :
  length raw_i = length xdata ->
  StronglySorted Rlt xdata \/ StronglySorted Rgt xdata ->
  xdata <> [] ->
  initial_baseline self xdata raw_i = Ok (bl, m) ->
  ((exists i, (i < length xdata)%nat /\ 0.01 < nth i raw_i 0 - nth i bl 0) ->
   exists i, (i < length xdata)%nat
             /\ 0.01 < nth i raw_i 0 - nth i bl 0
             /\ (forall j, (j < length xdata)%nat ->
                           0.01 < nth j raw_i 0 - nth j bl 0 ->
                           nth i xdata 0 <= nth j xdata 0)
             /\ initial_bandgap self xdata raw_i = Ok (bl, nth i xdata 0))
  /\ ((forall i, (i < length xdata)%nat ->
                 ~ 0.01 < nth i raw_i 0 - nth i bl 0) ->
      initial_bandgap self xdata raw_i
      = (initial_Eg <- np_median xdata ;; Ok (bl, initial_Eg))).
Proof.
  intros Hl Hs Hne Hb.
  destruct (bandgap_data_spec self xdata raw_i bl m Hl Hb)
    as (cleaned & Hc & Hcl & Hnth).
  destruct (detect_bandgap_spec xdata cleaned Hcl Hs Hne) as [Hsome Hnone].
  unfold initial_bandgap. rewrite Hb. cbn [bind]. rewrite Hc. cbn [bind].
  split.
  - intros [i [Hi Hx]].
    destruct Hsome as (a & Ha & Hxa & Hmin & Hd).
    { exists i. split; [exact Hi|]. now rewrite Hnth. }
    exists a. repeat split; [exact Ha | now rewrite <- Hnth | |].
    + intros j Hj Hxj. apply Hmin; [exact Hj|]. now rewrite Hnth.
    + rewrite Hd. reflexivity.
  - intros Hno. rewrite Hnone; [reflexivity|].
    intros i Hi. rewrite Hnth by exact Hi. now apply Hno.
Qed.

(** No baseline, axis [1, 2, 3], raw data [0, 0.5, 1]: a point exceeds
    0.01, and the step returns the energy of one. *)
Lemma bandgap_detection_from_low_energy_end_witness :
  exists i, (i < 3)%nat
            /\ initial_bandgap (lib := reference_lib) (init 0.2 20 0)
                 [1; 2; 3] [0; 0.5; 1]
               = Ok (zeros 3, nth i [1; 2; 3] 0).
Proof.
  assert (Hs : StronglySorted Rlt [1; 2; 3]).
  { repeat constructor; lra. }
  destruct (bandgap_detection_from_low_energy_end (lib := reference_lib)
              (init 0.2 20 0) [1; 2; 3] [0; 0.5; 1] (zeros 3)
              (repeat false 3) eq_refl (or_introl Hs) ltac:(discriminate)
              eq_refl) as [H _].
  destruct H as (i & Hi & _ & _ & He).
  - exists 1%nat. split; [simpl; lia|]. cbn [nth zeros repeat]. lra.
  - exists i. split; [exact Hi | exact He].
Defined.

(** ** The per-dataset pipeline *)

Ltac inv_bind H :=
  repeat match type of H with
    | bind ?m _ = Ok _ =>
        let E := fresh "E" in
        destruct m eqn:E; cbn [bind] in H; [|discriminate H]
    | match ?x with (_, _) => _ end = Ok _ => destruct x
    end.

Lemma between_length (lo hi : R) (xdata : list R) :
  length (between lo hi xdata) = length xdata.
Proof. apply length_map. Qed.

Lemma and_limits_length (xdata : list R) (mn mx : option R)
  (mask : list bool) :
  length mask = length xdata ->
  length (and_limits xdata mn mx mask) = length xdata.
Proof.
  intros H. unfold and_limits.
  destruct mn, mx; rewrite ?zipWith_length, ?length_map, ?zipWith_length,
    ?length_map; lia.
Qed.

Lemma final_fit_mask_length (xdata : list R) (mn mx : option R) :
  length (final_fit_mask xdata mn mx) = length xdata.
Proof.
  unfold final_fit_mask. destruct (Nat.ltb _ _); [apply repeat_length|].
  apply and_limits_length, repeat_length.
Qed.

Lemma auto_range_mask_length (xdata : list R) (mn mx : option R)
  (e : Params) : length (auto_range_mask xdata mn mx e) = length xdata.
Proof. apply and_limits_length, between_length. Qed.

Lemma count_true_le_length (mask : list bool) :
  (count_true mask <= length mask)%nat.
Proof. apply filter_length_le. Qed.

(** [fit_data] returns the model evaluated at the estimates it returns. *)
Lemma fit_data_inv {lib : SciLib} (self : FSumFitter) (xdata ydata : list R)
  (start : option Params) (bounds : option (Params * Params))
  (estimates : Params) (o : FsumOut) :
  fit_data self xdata ydata start bounds = Ok (estimates, o) ->
  fsum2d estimates xdata ydata = Ok o.
Proof.
  unfold fit_data. intros H. inv_bind H. now inversion H; subst.
Qed.

(** What step 6 leaves behind. *)
Lemma final_fit_inv {lib : SciLib} (self : FSumFitter) (xdata raw_i : list R)
  (mn mx : option R) (s : FinalFit) :
  final_fit self xdata raw_i mn mx = Ok s ->
  ff_mask s = final_fit_mask xdata mn mx
  /\ length (ff_ydata s) = length xdata
  /\ exists o,
       fsum2d (ff_estimates s) (select (ff_mask s) xdata)
         (select (ff_mask s) (ff_ydata s)) = Ok o
       /\ ff_sse s = out_sse o.
Proof.
  unfold final_fit. intros H. inv_bind H. inversion H; subst; clear H.
  cbn [ff_mask ff_ydata ff_estimates ff_sse].
  match goal with
  | Hb : bool_index ?y (final_fit_mask _ _ _) = Ok ?r |- _ =>
      apply bool_index_inv in Hb; destruct Hb as [Hlen ->]
  end.
  rewrite final_fit_mask_length in Hlen.
  split; [reflexivity|]. split; [exact Hlen|].
  match goal with
  | Hf : fit_data _ (select (final_fit_mask _ _ _) _) _ _ _ = Ok (_, ?o)
    |- _ => exists o; split; [exact (fit_data_inv _ _ _ _ _ _ _ Hf)
                             | reflexivity]
  end.
Qed.

(** The auto-range refinement: which mask, estimates and sse stand. *)
Lemma auto_range_refit_inv {lib : SciLib} (self : FSumFitter)
  (xdata : list R) (mn mx : option R) (ar : option bool) (s : FinalFit)
  (f : Fitted) :
  auto_range_refit self xdata mn mx ar s = Ok f ->
  fd_ydata f = ff_ydata s
  /\ fd_baseline f = ff_baseline s
  /\ fd_baseline_mask f = ff_baseline_mask s
  /\ fd_auto_ran f
     = (auto_enabled ar
        && Nat.ltb 10 (count_true (auto_range_mask xdata mn mx
                                     (ff_estimates s))))%bool
  /\ (fd_auto_ran f = true ->
      fd_mask f = auto_range_mask xdata mn mx (ff_estimates s)
      /\ exists o,
           fsum2d (fd_estimates f) (select (fd_mask f) xdata)
             (select (fd_mask f) (fd_ydata f)) = Ok o
           /\ fd_sse f = out_sse o)
  /\ (fd_auto_ran f = false ->
      fd_mask f = ff_mask s /\ fd_estimates f = ff_estimates s
      /\ fd_sse f = ff_sse s).
Proof.
  unfold auto_range_refit. intros H.
  destruct (auto_enabled ar); cbn [andb].
  - destruct (Nat.ltb 10 _) eqn:Hc.
    + inv_bind H. inversion H; subst; clear H.
      cbn [fd_ydata fd_baseline fd_baseline_mask fd_auto_ran fd_mask
             fd_estimates fd_sse].
      repeat split; try discriminate.
      match goal with
      | Hb : bool_index _ _ = Ok ?r |- _ =>
          apply bool_index_inv in Hb; destruct Hb as [_ ->]
      end.
      match goal with
      | Hf : fit_data _ _ _ _ _ = Ok (_, ?o) |- _ =>
          exists o; split; [exact (fit_data_inv _ _ _ _ _ _ _ Hf)
                           | reflexivity]
      end.
    + inversion H; subst; clear H. cbn. repeat split; discriminate.
  - inversion H; subst; clear H. cbn. repeat split; discriminate.
Qed.

(** [r_squared] never divides by zero. *)
Lemma r_squared_ok (sse : R) (ydata : list R) (mask : list bool) :
  length ydata = length mask ->
  r_squared sse ydata mask
  = Ok (let y_fit := select mask ydata in
        let ss_tot :=
          np_sum (map (fun y => (y - np_mean y_fit) ^ 2) y_fit) in
        if Rltb 0 ss_tot then 1 - sse / ss_tot else 0).
Proof.
  intros H. unfold r_squared. rewrite bool_index_ok by exact H. cbn [bind].
  cbv zeta. destruct (Rltb 0 _) eqn:Hs; [|reflexivity].
  apply Rltb_true_iff in Hs. rewrite pydiv_ok by lra. reflexivity.
Qed.

Lemma r_squared_no_division_fault (sse : R) (ydata : list R)
  (mask : list bool) : r_squared sse ydata mask <> Raise ZeroDivisionError.
Proof.
  unfold r_squared, bool_index. destruct (Nat.eqb _ _); cbn [bind];
    [|discriminate].
  destruct (Rltb 0 _) eqn:Hs; [|discriminate].
  apply Rltb_true_iff in Hs. rewrite pydiv_ok by lra. discriminate.
Qed.

Lemma report_dataset_inv {lib : SciLib} (xdata : list R) (f : Fitted)
  (d : DatasetFit) :
  report_dataset xdata f = Ok d ->
  fit_estimates d = fd_estimates f /\ fit_mask d = fd_mask f
  /\ fit_cleandata d = fd_ydata f
  /\ r_squared (fd_sse f) (fd_ydata f) (fd_mask f) = Ok (fit_quality d).
Proof.
  unfold report_dataset. intros H. inv_bind H.
  inversion H; subst. cbn. auto.
Qed.

(** The quality reported for one dataset, on the fitter the loop body
    started from. *)
Lemma process_dataset_quality {lib : SciLib}
  (self self' : FSumFitter) (xdata raw_i : list R) (mn mx : option R)
  (ar : option bool) (d : DatasetFit) :
  process_dataset self xdata raw_i mn mx ar = (Ok d, self') ->
  let y_fit := select (fit_mask d) (fit_cleandata d) in
  let ss_tot := np_sum (map (fun y => (y - np_mean y_fit) ^ 2) y_fit) in
  (exists s f,
      final_fit self xdata raw_i mn mx = Ok s
      /\ auto_range_refit self xdata mn mx ar s = Ok f
      /\ fit_mask d = fd_mask f
      /\ (fd_auto_ran f = true ->
          fit_mask d = auto_range_mask xdata mn mx (ff_estimates s))
      /\ (fd_auto_ran f = false -> fit_mask d = final_fit_mask xdata mn mx))
  /\ (exists o,
         fsum2d (fit_estimates d) (select (fit_mask d) xdata) y_fit = Ok o
         /\ (0 < ss_tot -> fit_quality d = 1 - out_sse o / ss_tot)
         /\ (ss_tot = 0 -> fit_quality d = 0))
  /\ (forall sse y mask, r_squared sse y mask <> Raise ZeroDivisionError).
Proof.
  intros H y_fit ss_tot. unfold process_dataset in H.
  destruct (fit_dataset self xdata raw_i mn mx ar) as [f|] eqn:Hf;
    [|discriminate].
  inversion H as [[Hr Hself]]; clear H.
  unfold fit_dataset in Hf.
  destruct (final_fit self xdata raw_i mn mx) as [s|] eqn:Hs;
    cbn [bind] in Hf; [|discriminate].
  destruct (final_fit_inv _ _ _ _ _ _ Hs) as (Hm6 & Hlen & o6 & Ho6 & Hsse6).
  destruct (auto_range_refit_inv _ _ _ _ _ _ _ Hf)
    as (Hy & _ & _ & _ & Hran & Hkept).
  destruct (report_dataset_inv _ _ _ Hr) as (He & Hm & Hc & Hq).
  assert (Hmlen : length (fd_ydata f) = length (fd_mask f)).
  { rewrite Hy, Hlen. destruct (fd_auto_ran f).
    - destruct (Hran eq_refl) as [-> _].
      now rewrite auto_range_mask_length.
    - destruct (Hkept eq_refl) as (-> & _ & _).
      now rewrite Hm6, final_fit_mask_length. }
  rewrite (r_squared_ok _ _ _ Hmlen) in Hq.
  apply (f_equal (fun r => match r with Ok v => v | Raise _ => 0 end)) in Hq.
  cbv beta iota zeta in Hq.
  split; [|split].
  - exists s, f. repeat split; auto.
    + intros Ht. rewrite Hm. now destruct (Hran Ht).
    + intros Ht. rewrite Hm. destruct (Hkept Ht) as (-> & _ & _). exact Hm6.
  - assert (Ho : exists o,
               fsum2d (fd_estimates f) (select (fd_mask f) xdata)
                 (select (fd_mask f) (fd_ydata f)) = Ok o
               /\ fd_sse f = out_sse o).
    { destruct (fd_auto_ran f) eqn:Hauto.
      - now destruct (Hran eq_refl) as [_ Ho].
      - destruct (Hkept eq_refl) as (-> & -> & ->). rewrite Hy.
        exists o6. auto. }
    destruct Ho as (o & Ho & Hsse). exists o.
    subst ss_tot y_fit. rewrite He, Hm, Hc. split; [exact Ho|].
    rewrite <- Hsse, <- Hq. split; intros Hss.
    + now rewrite Rltb_true by exact Hss.
    + rewrite Hss. now rewrite Rltb_false by lra.
  - apply r_squared_no_division_fault.
Qed.



(** ** The warm start *)

Lemma process_dataset_frame {lib : SciLib} (self : FSumFitter)
  (xdata raw_i : list R) (mn mx : option R) (ar : option bool) :
  let r := process_dataset self xdata raw_i mn mx ar in
  deltaE (snd r) = deltaE self /\ NS (snd r) = NS self
  /\ fitmode (snd r) = fitmode self /\ lb (snd r) = lb self
  /\ rb (snd r) = rb self
  /\ (forall d, fst r = Ok d -> start_point (snd r) = fit_estimates d).
Proof.
  unfold process_dataset.
  destruct (fit_dataset self xdata raw_i mn mx ar) as [f|] eqn:Hf;
    cbn [fst snd set_start_point deltaE NS fitmode lb rb start_point].
  - repeat split. intros d Hd. apply report_dataset_inv in Hd.
    now destruct Hd as [-> _].
  - repeat split. discriminate.
Qed.

Lemma last_cons_default {A : Type} (l : list A) :
  forall a dflt : A, last (a :: l) dflt = last l a.
Proof.
  induction l as [|b l IH]; intros a dflt; [reflexivity|].
  change (last (a :: b :: l) dflt) with (last (b :: l) dflt).
  now rewrite !IH.
Qed.

Lemma dataset_loop_frame {lib : SciLib} (xdata : list R) (T : option (list Z))
  (mn mx : option R) (ar : option bool) (cols : list (list R)) :
  forall (self : FSumFitter) (i : nat) (acc : list (nat * DatasetFit)),
  let r := dataset_loop self xdata T mn mx ar i cols acc in
  deltaE (snd r) = deltaE self /\ NS (snd r) = NS self
  /\ fitmode (snd r) = fitmode self /\ lb (snd r) = lb self
  /\ rb (snd r) = rb self
  /\ (forall ds, fst r = Ok ds ->
        exists new, ds = acc ++ new
                    /\ start_point (snd r)
                       = last (map (fun x => fit_estimates (snd x)) new)
                           (start_point self)).
Proof.
  induction cols as [|raw_i cols IH]; intros self i acc; cbn [dataset_loop].
  - cbn [fst snd]. repeat split. intros ds Hds. inversion Hds; subst.
    exists []. now rewrite app_nil_r.
  - destruct (selected T i); [|apply IH].
    pose proof (process_dataset_frame self xdata raw_i mn mx ar) as Hp.
    cbv zeta in Hp.
    destruct (process_dataset self xdata raw_i mn mx ar) as [[d|e] self1].
    + cbn [fst snd] in Hp. destruct Hp as (H1 & H2 & H3 & H4 & H5 & H6).
      specialize (IH self1 (S i) (acc ++ [(i, d)])). cbv zeta in IH.
      destruct IH as (I1 & I2 & I3 & I4 & I5 & I6).
      repeat split; try congruence.
      intros ds Hds. destruct (I6 ds Hds) as (new & -> & Hsp).
      exists ((i, d) :: new). split; [now rewrite <- app_assoc|].
      rewrite Hsp, (H6 d eq_refl). cbn [map snd].
      now rewrite last_cons_default.
    + cbn [fst snd] in *. destruct Hp as (H1 & H2 & H3 & H4 & H5 & _).
      repeat split; try assumption. discriminate.
Qed.

(** The optimiser call of the preliminary fit, and the one of the final fit
    that starts from its result. *)
Lemma final_fit_seed {lib : SciLib} (self : FSumFitter)
  (xdata raw_i : list R) (mn mx : option R) (s : FinalFit) :
  final_fit self xdata raw_i mn mx = Ok s ->
  exists initial_bl initial_Eg initial_cleandata p10 p90 prelim,
    initial_bandgap self xdata raw_i = Ok (initial_bl, initial_Eg)
    /\ broadcast_sub raw_i initial_bl = Ok initial_cleandata
    /\ np_percentile xdata 10 = Ok p10
    /\ np_percentile xdata 90 = Ok p90
    /\ minimize
         (objective_function (select (between p10 p90 xdata) xdata)
            (select (between p10 p90 xdata) initial_cleandata))
         (mkParams initial_Eg 0.050 (Gamma (start_point self))
            (ucvsq (start_point self)) (mhcnp (start_point self)) 0.0)
         (fst (dynamic_bounds self initial_Eg))
         (snd (dynamic_bounds self initial_Eg)) = Ok prelim
    /\ minimize
         (objective_function (select (ff_mask s) xdata)
            (select (ff_mask s) (ff_ydata s)))
         prelim
         (fst (dynamic_bounds self initial_Eg))
         (snd (dynamic_bounds self initial_Eg)) = Ok (ff_estimates s).
Proof.
  unfold final_fit. intros H.
  destruct (initial_bandgap self xdata raw_i) as [[initial_bl initial_Eg]|]
    eqn:Hi; cbn [bind] in H; [|discriminate H].
  destruct (broadcast_sub raw_i initial_bl) as [initial_cleandata|] eqn:Hc;
    cbn [bind] in H; [|discriminate H].
  destruct (np_percentile xdata 10) as [p10|] eqn:H10; cbn [bind] in H;
    [|discriminate H].
  destruct (np_percentile xdata 90) as [p90|] eqn:H90; cbn [bind] in H;
    [|discriminate H].
  destruct (bool_index initial_cleandata (between p10 p90 xdata))
    as [prelim_y|] eqn:Hy; cbn [bind] in H; [|discriminate H].
  apply bool_index_inv in Hy. destruct Hy as [_ ->].
  destruct (fit_data self _ _ (Some (dynamic_start_point self initial_Eg)) _)
    as [[prelim o1]|] eqn:Hp; cbn [bind] in H; [|discriminate H].
  exists initial_bl, initial_Eg, initial_cleandata, p10, p90, prelim.
  do 4 (split; [first [reflexivity | assumption]|]). split.
  - unfold fit_data in Hp. cbn [fst snd] in Hp.
    destruct (minimize _ _ _ _) as [x|] eqn:Hmin; cbn [bind] in Hp;
      [|discriminate Hp].
    destruct (fsum2d x _ _); cbn [bind] in Hp; [|discriminate Hp].
    assert (x = prelim) by congruence. subst x.
    first [exact Hmin | reflexivity].
  - inv_bind H.
    match goal with
    | Hb : bool_index _ (final_fit_mask _ _ _) = Ok _ |- _ =>
        apply bool_index_inv in Hb; destruct Hb as [_ ->]
    end.
    match goal with
    | Hf : fit_data _ _ _ (Some prelim) _ = Ok (?est, _) |- _ =>
        unfold fit_data in Hf; cbn [fst snd] in Hf;
        destruct (minimize _ _ _ _) as [x|] eqn:Hmin in Hf;
        cbn [bind] in Hf; [|discriminate Hf];
        destruct (fsum2d x _ _) eqn:Hx in Hf; cbn [bind] in Hf;
        [|discriminate Hf];
        assert (x = est) by congruence; subst x
    end.
    apply (f_equal (fun r => match r with Ok v => v | Raise _ => s end))
      in H. cbv beta iota in H. subst s.
    cbn [ff_mask ff_ydata ff_estimates]. exact Hmin.
Qed.

(** The first dataset that the loop reports was processed on the fitter
    the loop started with. *)
Lemma dataset_loop_first {lib : SciLib} (xdata : list R)
  (T : option (list Z)) (mn mx : option R) (ar : option bool)
  (cols : list (list R)) :
  forall (self : FSumFitter) (i j : nat) (d : DatasetFit)
         (rest : list (nat * DatasetFit)),
    fst (dataset_loop self xdata T mn mx ar i cols []) = Ok ((j, d) :: rest) ->
    exists raw_j self',
      (i <= j)%nat /\ nth_error cols (j - i) = Some raw_j
      /\ process_dataset self xdata raw_j mn mx ar = (Ok d, self').
Proof.
  induction cols as [|raw_i cols IH]; intros self i j d rest H;
    cbn [dataset_loop] in H.
  - discriminate H.
  - destruct (selected T i).
    + destruct (process_dataset self xdata raw_i mn mx ar) as [[d1|e] self1]
        eqn:Hp; [|discriminate H].
      pose proof (dataset_loop_frame xdata T mn mx ar cols self1 (S i)
                    ([] ++ [(i, d1)])) as Hf.
      cbv zeta in Hf. destruct Hf as (_ & _ & _ & _ & _ & Hf).
      destruct (Hf _ H) as (new & Hnew & _). cbn [app] in Hnew.
      inversion Hnew; subst. exists raw_i, self1.
      split; [lia|]. split; [now rewrite Nat.sub_diag | exact Hp].
    + destruct (IH self (S i) j d rest H) as (raw_j & self' & Hle & Hn & Hp).
      exists raw_j, self'. split; [lia|]. split; [|exact Hp].
      replace (j - i)%nat with (S (j - S i)) by lia. exact Hn.
Qed.

(** C10.  Whatever its outcome, [process_file] leaves [deltaE], [NS],
    [fitmode], [lb] and [rb] of the fitter as they were; when it returns,
    [start_point] is the estimates of the last dataset it processed
    (unchanged if it processed none).  A second call on the fitter it
    leaves behind is seeded from that [start_point]: for the first dataset
    the second call reports, processed from column [j] of its table, the
    optimiser of the preliminary fit was called on the middle of that
    column, within the dynamic bounds, from the seed that takes [Gamma],
    [ucvsq] and [mhcnp] from the [start_point] the first call left (with
    the detected [Eg], [Eb = 0.050] and [q = 0]), not from the
    constructor's defaults; and the optimiser of the final fit was called
    from the result of that preliminary fit. *)
Theorem process_file_overwrites_start_point {lib : SciLib}
  (self : FSumFitter) (t : Table) (T : option (list Z)) (mn mx : option R)
  (ar : option bool) :
  let r := process_file self t T mn mx ar in
  deltaE (snd r) = deltaE self /\ NS (snd r) = NS self
  /\ fitmode (snd r) = fitmode self /\ lb (snd r) = lb self
  /\ rb (snd r) = rb self
  /\ (forall ds, fst r = Ok ds ->
        start_point (snd r)
        = last (map (fun x => fit_estimates (snd x)) ds) (start_point self))
  /\ (forall t' T' mn' mx' ar' j d rest,
        fst (process_file (snd r) t' T' mn' mx' ar') = Ok ((j, d) :: rest) ->
        exists xdata raw_j s initial_bl initial_Eg initial_cleandata p10 p90
               prelim,
          energy_axis t' = Ok xdata
          /\ (1 <= j)%nat /\ nth_error (columns t') (j - 1) = Some raw_j
          /\ final_fit (snd r) xdata raw_j mn' mx' = Ok s
          /\ initial_bandgap (snd r) xdata raw_j
             = Ok (initial_bl, initial_Eg)
          /\ broadcast_sub raw_j initial_bl = Ok initial_cleandata
          /\ np_percentile xdata 10 = Ok p10
          /\ np_percentile xdata 90 = Ok p90
          /\ minimize
               (objective_function (select (between p10 p90 xdata) xdata)
                  (select (between p10 p90 xdata) initial_cleandata))
               (mkParams initial_Eg 0.050 (Gamma (start_point (snd r)))
                  (ucvsq (start_point (snd r)))
                  (mhcnp (start_point (snd r))) 0.0)
               (fst (dynamic_bounds (snd r) initial_Eg))
               (snd (dynamic_bounds (snd r) initial_Eg)) = Ok prelim
          /\ minimize
               (objective_function (select (ff_mask s) xdata)
                  (select (ff_mask s) (ff_ydata s)))
               prelim
               (fst (dynamic_bounds (snd r) initial_Eg))
               (snd (dynamic_bounds (snd r) initial_Eg))
             = Ok (ff_estimates s)).
Proof.
  cbv zeta.
  assert (Hframe :
    deltaE (snd (process_file self t T mn mx ar)) = deltaE self
    /\ NS (snd (process_file self t T mn mx ar)) = NS self
    /\ fitmode (snd (process_file self t T mn mx ar)) = fitmode self
    /\ lb (snd (process_file self t T mn mx ar)) = lb self
    /\ rb (snd (process_file self t T mn mx ar)) = rb self
    /\ (forall ds, fst (process_file self t T mn mx ar) = Ok ds ->
          start_point (snd (process_file self t T mn mx ar))
          = last (map (fun x => fit_estimates (snd x)) ds)
              (start_point self))).
  { unfold process_file. destruct (energy_axis t) as [xdata|e].
    - pose proof (dataset_loop_frame xdata T mn mx ar (columns t) self 1 [])
        as H. cbv zeta in H.
      destruct H as (H1 & H2 & H3 & H4 & H5 & H6).
      repeat split; try assumption.
      intros ds Hds. destruct (H6 ds Hds) as (new & -> & Hsp). exact Hsp.
    - cbn [fst snd]. repeat split. discriminate. }
  destruct Hframe as (H1 & H2 & H3 & H4 & H5 & H6).
  repeat (split; [assumption|]).
  generalize (snd (process_file self t T mn mx ar)). intros self1.
  intros t' T' mn' mx' ar' j d rest H. unfold process_file in H.
  destruct (energy_axis t') as [xdata|e]; [|discriminate H].
  destruct (dataset_loop_first _ _ _ _ _ _ _ _ _ _ _ H)
    as (raw_j & self' & Hle & Hn & Hp).
  unfold process_dataset, fit_dataset in Hp.
  destruct (final_fit self1 xdata raw_j mn' mx') as [s|] eqn:Hs;
    cbn [bind] in Hp; [|discriminate Hp].
  destruct (final_fit_seed _ _ _ _ _ _ Hs)
    as (bl & e & cd & p10 & p90 & prelim & Hi & Hc & H10 & H90 & Hm1 & Hm2).
  exists xdata, raw_j, s, bl, e, cd, p10, p90, prelim.
  repeat (split; [first [reflexivity | assumption]|]). exact Hm2.
Qed.

(** ** A run of the pipeline on the reference instance

    Mode 0 (no baseline), the axis [1, 2, 3] and the flat dataset
    [1, 1, 1].  The first point exceeds 0.01, so the initial [Eg] is 1; the
    reference optimiser returns the seed projected into the bounds; the
    auto-range mask holds at most 3 points and is not used; no point lies
    below [|Eb - Eg| = 0.95], so the Urbach estimate is the fallback. *)

Lemma insert_sorted_length (x : R) (l : list R) :
  length (insert_sorted x l) = S (length l).
Proof.
  induction l as [|y l IH]; simpl; [reflexivity|].
  destruct (Rleb x y); simpl; [reflexivity | now rewrite IH].
Qed.

Lemma sort_length (l : list R) : length (sort l) = length l.
Proof.
  induction l as [|x l IH]; simpl; [reflexivity|].
  now rewrite insert_sorted_length, IH.
Qed.

Lemma ref_percentile_ok (l : list R) (pct : nat) :
  l <> [] -> exists v, ref_percentile l pct = Ok v.
Proof.
  intros H. unfold ref_percentile. rewrite sort_length.
  destruct l as [|x l]; [contradiction|]. cbn [length Nat.eqb].
  eexists; reflexivity.
Qed.

Lemma ref_fit_data (self : FSumFitter) (xdata ydata : list R)
  (start : Params) (bounds : Params * Params) :
  length xdata = length ydata ->
  exists o,
    fit_data (lib := reference_lib) self xdata ydata (Some start)
      (Some bounds)
    = Ok (project (fst bounds) (snd bounds) start, o).
Proof.
  intros H. unfold fit_data. cbn [minimize reference_lib].
  unfold ref_minimize, objective_function.
  rewrite (fsum2d_same_length _ _ _ H). cbn [bind].
  rewrite (fsum2d_same_length _ _ _ H). cbn [bind].
  eexists; reflexivity.
Qed.

Lemma sample_initial_bandgap :
  initial_bandgap (lib := reference_lib) (init 0.2 20 0) [1; 2; 3] [1; 1; 1]
  = Ok (zeros 3, 1).
Proof.
  unfold initial_bandgap, initial_baseline, bandgap_data.
  cbn [fitmode init Z.eqb bind length].
  unfold detect_bandgap. rewrite ascending_nonempty by discriminate.
  cbn [bind length nth Nat.sub]. rewrite Rltb_true by lra.
  unfold first_above. cbn [seq find nth]. rewrite Rltb_true by lra.
  reflexivity.
Qed.

Lemma sample_fit_dataset :
  exists f,
    fit_dataset (lib := reference_lib) (init 0.2 20 0) [1; 2; 3] [1; 1; 1]
      None None None = Ok f
    /\ fd_mask f = repeat true 3
    /\ fd_ydata f = [1 - 0; 1 - 0; 1 - 0]
    /\ Eg (fd_estimates f) = 1
    /\ Eb (fd_estimates f) = 0.050.
Proof.
  unfold fit_dataset, final_fit. rewrite sample_initial_bandgap.
  cbn [bind].
  rewrite broadcast_sub_same_length by reflexivity. cbn [bind].
  cbn [np_percentile reference_lib].
  destruct (ref_percentile_ok [1; 2; 3] 10) as [p10 ->]; [discriminate|].
  destruct (ref_percentile_ok [1; 2; 3] 90) as [p90 ->]; [discriminate|].
  cbn [bind].
  rewrite bool_index_ok
    by (rewrite between_length, zipWith_length; reflexivity).
  cbn [bind].
  set (start := dynamic_start_point (init 0.2 20 0) 1).
  set (bounds := dynamic_bounds (init 0.2 20 0) 1).
  destruct (ref_fit_data (init 0.2 20 0)
              (select (between p10 p90 [1; 2; 3]) [1; 2; 3])
              (select (between p10 p90 [1; 2; 3])
                 (zipWith Rminus [1; 1; 1] (zeros 3))) start bounds)
    as [o1 Ho1].
  { rewrite !select_length; rewrite ?between_length; reflexivity. }
  rewrite Ho1. cbn [bind fitmode init Z.eqb].
  change (length [1; 2; 3]) with 3%nat.
  rewrite broadcast_sub_same_length by reflexivity. cbn [bind].
  change (final_fit_mask [1; 2; 3] None None) with (repeat true 3).
  cbn [is_given orb andb bind].
  rewrite bool_index_ok by reflexivity. cbn [bind].
  destruct (ref_fit_data (init 0.2 20 0) (select (repeat true 3) [1; 2; 3])
              (select (repeat true 3) (zipWith Rminus [1; 1; 1] (zeros 3)))
              (project (fst bounds) (snd bounds) start) bounds)
    as [o2 Ho2]; [reflexivity|].
  rewrite Ho2. cbn [bind].
  unfold auto_range_refit. cbn [auto_enabled ff_estimates].
  assert (Hc : Nat.ltb 10 (count_true
                 (auto_range_mask [1; 2; 3] None None
                    (project (fst bounds) (snd bounds)
                       (project (fst bounds) (snd bounds) start))))
               = false).
  { apply Nat.ltb_ge.
    pose proof (count_true_le_length
                  (auto_range_mask [1; 2; 3] None None
                     (project (fst bounds) (snd bounds)
                        (project (fst bounds) (snd bounds) start)))) as Hle.
    rewrite auto_range_mask_length in Hle. simpl length in Hle. lia. }
  rewrite Hc. eexists. split; [reflexivity|].
  cbn [fd_mask fd_ydata fd_estimates ff_mask ff_ydata ff_estimates].
  split; [reflexivity|]. split; [reflexivity|].
  assert (Hb : bounds = (set_Eg default_lb (1 - 0.2),
                         set_Eg default_rb (1 + 0.2))).
  { unfold bounds, dynamic_bounds. cbn [lb rb init set_Eg Eg].
    rewrite Rleb_false by lra. reflexivity. }
  rewrite Hb. unfold start, dynamic_start_point, project.
  cbn [fst snd Eg Eb set_Eg set_Eb set_q start_point init default_lb
         default_rb default_start_point].
  split.
  - now rewrite !(np_clip_id _ _ 1) by (split; lra).
  - now rewrite !(np_clip_id _ _ 0.050) by (split; lra).
Qed.

Lemma sample_report_dataset (f : Fitted) :
  fd_mask f = repeat true 3 ->
  fd_ydata f = [1 - 0; 1 - 0; 1 - 0] ->
  Eg (fd_estimates f) = 1 ->
  Eb (fd_estimates f) = 0.050 ->
  exists d, report_dataset (lib := reference_lib) [1; 2; 3] f = Ok d.
Proof.
  intros Hm Hy Hg Hb. unfold report_dataset.
  rewrite fsum2d_same_length by (rewrite Hy; reflexivity). cbn [bind].
  rewrite r_squared_ok by (rewrite Hy, Hm; reflexivity). cbn [bind].
  unfold calculate_urbach_energy. rewrite Hg, Hb.
  assert (Ht : Rabs (0.050 - 1) = 0.95) by (rewrite Rabs_left by lra; lra).
  rewrite Ht, first_index_none.
  - cbn [bind]. eexists; reflexivity.
  - intros x [<- | [<- | [<- | []]]]; apply Rltb_false; lra.
Qed.

Lemma sample_process_dataset :
  exists d,
    process_dataset (lib := reference_lib) (init 0.2 20 0) [1; 2; 3]
      [1; 1; 1] None None None
    = (Ok d, set_start_point (init 0.2 20 0) (fit_estimates d))
    /\ Eg (fit_estimates d) = 1
    /\ fit_mask d = repeat true 3
    /\ fit_cleandata d = [1 - 0; 1 - 0; 1 - 0].
Proof.
  destruct sample_fit_dataset as (f & Hf & Hm & Hy & Hg & Hb).
  destruct (sample_report_dataset f Hm Hy Hg Hb) as [d Hd].
  exists d. unfold process_dataset. rewrite Hf, Hd.
  destruct (report_dataset_inv _ _ _ Hd) as (He & Hmd & Hcd & _).
  rewrite He, Hmd, Hcd. auto.
Qed.

Lemma sample_process_file :
  exists d,
    process_file (lib := reference_lib) (init 0.2 20 0)
      (mkTable [1; 2; 3] [[1; 1; 1]]) None None None None
    = (Ok [(1%nat, d)], set_start_point (init 0.2 20 0) (fit_estimates d))
    /\ Eg (fit_estimates d) = 1
    /\ fit_mask d = repeat true 3
    /\ fit_cleandata d = [1 - 0; 1 - 0; 1 - 0].
Proof.
  destruct sample_process_dataset as (d & Hd & Hg & Hm & Hc).
  exists d. split; [|auto].
  unfold process_file, energy_axis, is_nm, np_mean.
  cbn [xdata_original columns np_sum fold_right length INR].
  rewrite Rltb_false by lra.
  cbn [dataset_loop selected]. rewrite Hd. reflexivity.
Qed.


(** The same run on a fitter whose [start_point] is any [sp]: the outcome
    has the same shape, since the seed is projected into the bounds. *)
Lemma warm_initial_bandgap (sp : Params) :
  initial_bandgap (lib := reference_lib)
    (mkFitter 0.2 20 0 sp default_lb default_rb) [1; 2; 3] [1; 1; 1]
  = Ok (zeros 3, 1).
Proof.
  unfold initial_bandgap, initial_baseline, bandgap_data.
  cbn [fitmode Z.eqb bind length].
  unfold detect_bandgap. rewrite ascending_nonempty by discriminate.
  cbn [bind length nth Nat.sub]. rewrite Rltb_true by lra.
  unfold first_above. cbn [seq find nth]. rewrite Rltb_true by lra.
  reflexivity.
Qed.

Lemma warm_fit_dataset (sp : Params) :
  exists f,
    fit_dataset (lib := reference_lib)
      (mkFitter 0.2 20 0 sp default_lb default_rb) [1; 2; 3] [1; 1; 1]
      None None None = Ok f
    /\ fd_mask f = repeat true 3
    /\ fd_ydata f = [1 - 0; 1 - 0; 1 - 0]
    /\ Eg (fd_estimates f) = 1
    /\ Eb (fd_estimates f) = 0.050.
Proof.
  set (self := mkFitter 0.2 20 0 sp default_lb default_rb).
  unfold fit_dataset, final_fit. unfold self at 1.
  rewrite warm_initial_bandgap. fold self.
  cbn [bind].
  rewrite broadcast_sub_same_length by reflexivity. cbn [bind].
  cbn [np_percentile reference_lib].
  destruct (ref_percentile_ok [1; 2; 3] 10) as [p10 ->]; [discriminate|].
  destruct (ref_percentile_ok [1; 2; 3] 90) as [p90 ->]; [discriminate|].
  cbn [bind].
  rewrite bool_index_ok
    by (rewrite between_length, zipWith_length; reflexivity).
  cbn [bind].
  set (start := dynamic_start_point self 1).
  set (bounds := dynamic_bounds self 1).
  destruct (ref_fit_data self
              (select (between p10 p90 [1; 2; 3]) [1; 2; 3])
              (select (between p10 p90 [1; 2; 3])
                 (zipWith Rminus [1; 1; 1] (zeros 3))) start bounds)
    as [o1 Ho1].
  { rewrite !select_length; rewrite ?between_length; reflexivity. }
  rewrite Ho1. cbn [bind]. change (fitmode self) with 0%Z.
  cbn [Z.eqb bind].
  change (length [1; 2; 3]) with 3%nat.
  rewrite broadcast_sub_same_length by reflexivity. cbn [bind].
  change (final_fit_mask [1; 2; 3] None None) with (repeat true 3).
  cbn [is_given orb andb bind].
  rewrite bool_index_ok by reflexivity. cbn [bind].
  destruct (ref_fit_data self (select (repeat true 3) [1; 2; 3])
              (select (repeat true 3) (zipWith Rminus [1; 1; 1] (zeros 3)))
              (project (fst bounds) (snd bounds) start) bounds)
    as [o2 Ho2]; [reflexivity|].
  rewrite Ho2. cbn [bind].
  unfold auto_range_refit. cbn [auto_enabled ff_estimates].
  assert (Hc : Nat.ltb 10 (count_true
                 (auto_range_mask [1; 2; 3] None None
                    (project (fst bounds) (snd bounds)
                       (project (fst bounds) (snd bounds) start))))
               = false).
  { apply Nat.ltb_ge.
    pose proof (count_true_le_length
                  (auto_range_mask [1; 2; 3] None None
                     (project (fst bounds) (snd bounds)
                        (project (fst bounds) (snd bounds) start)))) as Hle.
    rewrite auto_range_mask_length in Hle. simpl length in Hle. lia. }
  rewrite Hc. eexists. split; [reflexivity|].
  cbn [fd_mask fd_ydata fd_estimates ff_mask ff_ydata ff_estimates].
  split; [reflexivity|]. split; [reflexivity|].
  assert (Hb : bounds = (set_Eg default_lb (1 - 0.2),
                         set_Eg default_rb (1 + 0.2))).
  { unfold bounds, dynamic_bounds, self. cbn [lb rb set_Eg Eg].
    rewrite Rleb_false by lra. reflexivity. }
  rewrite Hb. unfold start, dynamic_start_point, project, self.
  cbn [fst snd Eg Eb set_Eg set_Eb set_q start_point default_lb
         default_rb].
  split.
  - now rewrite !(np_clip_id _ _ 1) by (split; lra).
  - now rewrite !(np_clip_id _ _ 0.050) by (split; lra).
Qed.

Lemma warm_process_file (sp : Params) :
  exists d,
    fst (process_file (lib := reference_lib)
           (mkFitter 0.2 20 0 sp default_lb default_rb)
           (mkTable [1; 2; 3] [[1; 1; 1]]) None None None None)
    = Ok [(1%nat, d)].
Proof.
  destruct (warm_fit_dataset sp) as (f & Hf & Hm & Hy & Hg & Hb).
  destruct (sample_report_dataset f Hm Hy Hg Hb) as [d Hd].
  exists d.
  unfold process_file, energy_axis, is_nm, np_mean.
  cbn [xdata_original columns np_sum fold_right length INR].
  rewrite Rltb_false by lra.
  cbn [dataset_loop selected]. unfold process_dataset. rewrite Hf, Hd.
  reflexivity.
Qed.

(** After the run the fitter keeps its bounds and mode, and its
    [start_point] is the estimates of dataset 1, whose [Eg] is 1 and not the
    default 2.62; a second call on the same table returns, and the seed of
    its preliminary fit carries the [Gamma], [ucvsq] and [mhcnp] of those
    estimates. *)
Lemma process_file_overwrites_start_point_witness :
  exists d d' prelim xs ys,
    fst (process_file (lib := reference_lib) (init 0.2 20 0)
           (mkTable [1; 2; 3] [[1; 1; 1]]) None None None None)
    = Ok [(1%nat, d)]
    /\ start_point
         (snd (process_file (lib := reference_lib) (init 0.2 20 0)
                 (mkTable [1; 2; 3] [[1; 1; 1]]) None None None None))
       = fit_estimates d
    /\ Eg (fit_estimates d) = 1
    /\ lb (snd (process_file (lib := reference_lib) (init 0.2 20 0)
                  (mkTable [1; 2; 3] [[1; 1; 1]]) None None None None))
       = default_lb
    /\ fst (process_file (lib := reference_lib)
              (snd (process_file (lib := reference_lib) (init 0.2 20 0)
                      (mkTable [1; 2; 3] [[1; 1; 1]]) None None None None))
              (mkTable [1; 2; 3] [[1; 1; 1]]) None None None None)
       = Ok [(1%nat, d')]
    /\ minimize (SciLib := reference_lib) (objective_function xs ys)
         (mkParams 1 0.050 (Gamma (fit_estimates d))
            (ucvsq (fit_estimates d)) (mhcnp (fit_estimates d)) 0.0)
         (set_Eg default_lb (1 - 0.2)) (set_Eg default_rb (1 + 0.2))
       = Ok prelim.
Proof.
  destruct sample_process_file as (d & Hd & Hg & _).
  destruct (warm_process_file (fit_estimates d)) as (d' & Hd').
  pose proof (process_file_overwrites_start_point (lib := reference_lib)
                (init 0.2 20 0) (mkTable [1; 2; 3] [[1; 1; 1]])
                None None None None) as H.
  cbv zeta in H. destruct H as (_ & _ & _ & Hlb & _ & Hsp & Hseed).
  specialize (Hsp [(1%nat, d)]). rewrite Hd in Hsp, Hseed, Hlb.
  cbn [fst snd] in Hsp, Hseed, Hlb. specialize (Hsp eq_refl).
  cbn [map last snd] in Hsp.
  destruct (Hseed (mkTable [1; 2; 3] [[1; 1; 1]]) None None None None
              1%nat d' [] Hd')
    as (xdata & raw_j & s & bl & e & cd & p10 & p90 & prelim & Hx & _ & Hn
        & _ & Hi & _ & _ & _ & Hm & _).
  assert (Hxd : xdata = [1; 2; 3]).
  { unfold energy_axis, is_nm, np_mean in Hx.
    cbn [xdata_original np_sum fold_right length INR] in Hx.
    rewrite Rltb_false in Hx by lra. congruence. }
  assert (Hr : raw_j = [1; 1; 1]) by (cbn in Hn; congruence).
  subst xdata raw_j.
  assert (He : e = 1).
  { change (set_start_point (init 0.2 20 0) (fit_estimates d))
      with (mkFitter 0.2 20 0 (fit_estimates d) default_lb default_rb) in Hi.
    rewrite warm_initial_bandgap in Hi. congruence. }
  subst e.
  unfold dynamic_bounds in Hm. cbn [set_Eg Eg] in Hm.
  rewrite Rleb_false in Hm by lra. cbn [fst snd] in Hm.
  exists d, d', prelim,
    (select (between p10 p90 [1; 2; 3]) [1; 2; 3]),
    (select (between p10 p90 [1; 2; 3]) cd).
  rewrite Hd. cbn [fst snd].
  split; [reflexivity|]. split; [exact Hsp|]. split; [exact Hg|].
  split; [exact Hlb|]. split; [exact Hd'|].
  cbn [set_start_point start_point lb rb init] in Hm. exact Hm.
Defined.

(** * Further properties of the code *)

(** ** Further properties of the model evaluator *)

Lemma vscale_vadd (c : R) (a b : list R) :
  vscale c (vadd a b) = vadd (vscale c a) (vscale c b).
Proof.
  unfold vscale, vadd. revert b.
  induction a as [|x a IH]; intros [|y b]; simpl; try reflexivity.
  rewrite IH. f_equal. ring.
Qed.

Lemma vscale_length (c : R) (a : list R) : length (vscale c a) = length a.
Proof. apply length_map. Qed.

Lemma fold_left_ext {A B : Type} (f g : A -> B -> A) (l : list B) (z : A) :
  (forall a b, f a b = g a b) -> fold_left f l z = fold_left g l z.
Proof.
  intros H. revert z. induction l as [|b l IH]; intros z; simpl;
    [reflexivity|]. now rewrite H, IH.
Qed.

(** The exciton series reads only [Eg], [Eb], [q] and the floored
    linewidth. *)
Lemma exciton_series_ext (p p' : Params) (xdata : list R) :
  Eg p = Eg p' -> Eb p = Eb p' -> q p = q p' ->
  gamma_safe p = gamma_safe p' ->
  exciton_series p xdata = exciton_series p' xdata.
Proof.
  intros Hg Hb Hq Hs. unfold exciton_series. apply fold_left_ext.
  intros a1 n. unfold skipped, exciton_line. now rewrite Hg, Hb, Hq, Hs.
Qed.

(** The band integral reads only [Eg], [Eb], [mhcnp] and the floored
    linewidth. *)
Lemma band_integral_ext (p p' : Params) (xdata : list R) :
  Eg p = Eg p' -> Eb p = Eb p' -> mhcnp p = mhcnp p' ->
  gamma_safe p = gamma_safe p' ->
  band_integral p xdata = band_integral p' xdata.
Proof.
  intros Hg Hb Hm Hs. unfold band_integral, band_grid. rewrite Hg.
  f_equal. apply map_ext. intros Ei.
  unfold band_line, band_weight. now rewrite Hg, Hb, Hm, Hs.
Qed.

Lemma fsum2d_inv (p : Params) (xdata ydata : list R) (o : FsumOut) :
  fsum2d p xdata ydata = Ok o ->
  out_FittedCurve o = model_curve p xdata
  /\ out_exciton o = vscale (ucvsq p * sqrt (Eb p)) (exciton_series p xdata)
  /\ out_band o = vscale (ucvsq p * sqrt (Eb p)) (band_integral p xdata)
  /\ exists err, broadcast_sub (model_curve p xdata) ydata = Ok err
       /\ out_sse o = (if Rleb (mhcnp p) 0 then 10 else 1)
                      * np_sum (map (fun e => e ^ 2) err).
Proof.
  rewrite fsum2d_eq. intros H.
  destruct (broadcast_sub (model_curve p xdata) ydata) as [err|] eqn:Hb;
    cbn [bind] in H; [|discriminate].
  apply (f_equal (fun r => match r with Ok v => v | Raise _ => o end)) in H.
  cbv beta iota zeta in H. subst o.
  cbn [out_FittedCurve out_exciton out_band out_sse].
  split; [reflexivity|]. split; [reflexivity|]. split; [reflexivity|].
  exists err. split; [reflexivity|].
  destruct (Rleb (mhcnp p) 0); lra.
Qed.

(** The three curves [fsum2d] returns: their lengths, and the total as
    the sum of the parts. *)
Lemma fsum2d_out_shapes (p : Params) (xdata ydata : list R) (o : FsumOut) :
  fsum2d p xdata ydata = Ok o ->
  out_FittedCurve o = vadd (out_band o) (out_exciton o)
  /\ length (out_FittedCurve o) = length xdata
  /\ length (out_exciton o) = length xdata
  /\ length (out_band o) = length xdata.
Proof.
  intros H. destruct (fsum2d_inv p xdata ydata o H) as (Hf & He & Hb & _).
  rewrite Hf, He, Hb. unfold model_curve. rewrite vscale_vadd.
  rewrite vadd_length, !vscale_length
    by now rewrite !vscale_length, band_integral_length,
         exciton_series_length.
  rewrite band_integral_length, exciton_series_length. auto.
Qed.

(** X1.  Whenever [fsum2d] returns, the fitted curve it returns is, point by
    point, the sum of the band curve and the exciton curve it returns, and
    each of the three curves has one value per point of [xdata]. *)
Theorem fitted_is_band_plus_exciton (p : Params) (xdata ydata : list R)
  (o : FsumOut) :
  fsum2d p xdata ydata = Ok o ->
  out_FittedCurve o = vadd (out_band o) (out_exciton o)
  /\ length (out_FittedCurve o) = length xdata
  /\ length (out_exciton o) = length xdata
  /\ length (out_band o) = length xdata.
Proof.
  intros H. destruct (fsum2d_inv p xdata ydata o H) as (Hf & He & Hb & _).
  rewrite Hf, He, Hb. unfold model_curve. rewrite vscale_vadd.
  repeat split.
  - rewrite vadd_length; rewrite !vscale_length.
    + apply band_integral_length.
    + now rewrite band_integral_length, exciton_series_length.
  - rewrite vscale_length. apply exciton_series_length.
  - rewrite vscale_length. apply band_integral_length.
Qed.

Lemma fitted_is_band_plus_exciton_witness :
  exists o, fsum2d (mkParams 1 1 1 1 1 0) [1; 2] [0; 0] = Ok o
            /\ out_FittedCurve o = vadd (out_band o) (out_exciton o)
            /\ length (out_FittedCurve o) = 2%nat.
Proof.
  pose proof (fsum2d_same_length (mkParams 1 1 1 1 1 0) [1; 2] [0; 0] eq_refl)
    as H.
  eexists. split; [exact H|].
  destruct (fitted_is_band_plus_exciton _ _ _ _ H) as (H1 & H2 & _).
  split; [exact H1 | exact H2].
Defined.

Lemma np_sum_squares_nonneg (l : list R) :
  0 <= np_sum (map (fun e => e ^ 2) l).
Proof.
  induction l as [|x l IH]; cbn [map np_sum fold_right]; [lra|].
  pose proof (pow2_ge_0 x). fold (np_sum (map (fun e => e ^ 2) l)). lra.
Qed.

Lemma np_sum_squares_zero (l : list R) :
  np_sum (map (fun e => e ^ 2) l) = 0 <-> Forall (fun e => e = 0) l.
Proof.
  induction l as [|x l IH]; cbn [map np_sum fold_right].
  - split; [constructor | reflexivity].
  - fold (np_sum (map (fun e => e ^ 2) l)).
    pose proof (np_sum_squares_nonneg l) as Hl.
    pose proof (pow2_ge_0 x) as Hx. split.
    + intros H. assert (Hx0 : x ^ 2 = 0) by lra.
      constructor; [|apply IH; lra].
      destruct (Req_dec x 0) as [E|E]; [exact E|].
      exfalso. apply (pow_nonzero x 2) in E. contradiction.
    + intros H. inversion H as [|? ? H0 Hr]; subst. apply IH in Hr.
      rewrite Hr. ring.
Qed.

Lemma zipWith_Rminus_zero (a b : list R) :
  length a = length b ->
  Forall (fun e => e = 0) (zipWith Rminus a b) <-> a = b.
Proof.
  revert b. induction a as [|x a IH]; intros [|y b] Hl; try discriminate.
  - split; [reflexivity | constructor].
  - injection Hl as Hl. simpl. split.
    + intros H. inversion H; subst. f_equal; [lra | now apply IH].
    + intros H. inversion H; subst. constructor; [lra | now apply IH].
Qed.

Lemma fsum2d_sse_nonneg (p : Params) (xdata ydata : list R) (o : FsumOut) :
  fsum2d p xdata ydata = Ok o -> 0 <= out_sse o.
Proof.
  intros H. destruct (fsum2d_inv p xdata ydata o H)
    as (_ & _ & _ & err & _ & Hs).
  pose proof (np_sum_squares_nonneg err) as Hn.
  rewrite Hs. destruct (Rleb _ _); nra.
Qed.

(** X2.  The sse that [fsum2d] returns is never negative, with or without the
    penalty; against data of the length of the axis it is zero exactly when
    the fitted curve equals the data point for point. *)
Theorem sse_nonneg_zero_iff_exact (p : Params) (xdata ydata : list R)
  (o : FsumOut) :
  fsum2d p xdata ydata = Ok o ->
  0 <= out_sse o
  /\ (length xdata = length ydata ->
      (out_sse o = 0 <-> out_FittedCurve o = ydata)).
Proof.
  intros H. destruct (fsum2d_inv p xdata ydata o H)
    as (Hf & _ & _ & err & Herr & Hs).
  pose proof (np_sum_squares_nonneg err) as Hn.
  assert (Hpen : 0 < (if Rleb (mhcnp p) 0 then 10 else 1))
    by (destruct (Rleb _ _); lra).
  split; [rewrite Hs; nra|].
  intros Hl. rewrite broadcast_sub_same_length in Herr
    by now rewrite model_curve_length.
  inversion Herr; subst err; clear Herr. rewrite Hs, Hf.
  rewrite <- (zipWith_Rminus_zero (model_curve p xdata) ydata)
    by now rewrite model_curve_length.
  rewrite <- np_sum_squares_zero. split; intros H0; nra.
Qed.

Lemma sse_nonneg_zero_iff_exact_witness :
  exists o, fsum2d (mkParams 1 1 1 1 1 0) [1; 2] [0; 0] = Ok o
            /\ 0 <= out_sse o.
Proof.
  pose proof (fsum2d_same_length (mkParams 1 1 1 1 1 0) [1; 2] [0; 0] eq_refl)
    as H.
  eexists. split; [exact H|].
  exact (proj1 (sse_nonneg_zero_iff_exact _ _ _ _ H)).
Defined.

(** X3.  [fsum2d] raises exactly when [xdata] and [ydata] differ in length and
    neither has length 1 (the subtraction [FittedCurve - ydata] cannot be
    broadcast), and the exception is then a [ValueError]; on every other
    input, whatever the parameters, it returns. *)
Theorem fsum2d_raises_only_on_shape_mismatch (p : Params)
  (xdata ydata : list R) :
  ((exists e, fsum2d p xdata ydata = Raise e)
   <-> (length xdata <> length ydata /\ length xdata <> 1%nat
        /\ length ydata <> 1%nat))
  /\ (forall e, fsum2d p xdata ydata = Raise e -> e = ValueError).
Proof.
  rewrite fsum2d_eq. pose proof (model_curve_length p xdata) as Hlen.
  unfold broadcast_sub. rewrite Hlen.
  destruct (Nat.eqb (length xdata) (length ydata)) eqn:He.
  - apply Nat.eqb_eq in He. cbn [bind]. split.
    + split; [intros [e H]; discriminate | intros (H & _); contradiction].
    + discriminate.
  - apply Nat.eqb_neq in He.
    destruct (model_curve p xdata) as [|a0 [|a1 a]];
      destruct ydata as [|b0 [|b1 b]]; cbn [bind length] in *;
      rewrite <- Hlen in *; cbn [length] in *; split;
      try (split; [intros [e H]; discriminate H
                  | intros (H1 & H2 & H3); try contradiction; lia]);
      try discriminate;
      try (split; [intros _; repeat split; lia | intros _; eexists; reflexivity]);
      try (intros e H; now inversion H).
Qed.

Lemma model_curve_ext (p p' : Params) (xdata : list R) :
  Eg p = Eg p' -> Eb p = Eb p' -> q p = q p' -> mhcnp p = mhcnp p' ->
  ucvsq p = ucvsq p' -> gamma_safe p = gamma_safe p' ->
  model_curve p xdata = model_curve p' xdata.
Proof.
  intros Hg Hb Hq Hm Hu Hs. unfold model_curve.
  rewrite (exciton_series_ext p p' xdata Hg Hb Hq Hs).
  rewrite (band_integral_ext p p' xdata Hg Hb Hm Hs).
  now rewrite Hu, Hb.
Qed.

Lemma fsum2d_ext (p p' : Params) (xdata ydata : list R) :
  Eg p = Eg p' -> Eb p = Eb p' -> q p = q p' -> mhcnp p = mhcnp p' ->
  ucvsq p = ucvsq p' -> gamma_safe p = gamma_safe p' ->
  fsum2d p xdata ydata = fsum2d p' xdata ydata.
Proof.
  intros Hg Hb Hq Hm Hu Hs. rewrite !fsum2d_eq.
  rewrite (model_curve_ext p p' xdata Hg Hb Hq Hm Hu Hs).
  rewrite (exciton_series_ext p p' xdata Hg Hb Hq Hs).
  rewrite (band_integral_ext p p' xdata Hg Hb Hm Hs).
  now rewrite Hu, Hb, Hm.
Qed.

(** X4.  [fsum2d] depends on the linewidth only through [abs(gamma)]: negating
    [Gamma] changes none of its four results, nor whether it raises. *)
Theorem fsum2d_even_in_Gamma (p : Params) (xdata ydata : list R) :
  fsum2d (mkParams (Eg p) (Eb p) (- Gamma p) (ucvsq p) (mhcnp p) (q p))
    xdata ydata
  = fsum2d p xdata ydata.
Proof.
  apply fsum2d_ext; try reflexivity.
  unfold gamma_safe. cbn [Gamma]. now rewrite Rabs_Ropp.
Qed.

Lemma vscale_vscale (c d : R) (a : list R) :
  vscale c (vscale d a) = vscale (c * d) a.
Proof.
  unfold vscale. rewrite map_map. apply map_ext. intros; ring.
Qed.

(** X5.  The three curves of [fsum2d] are linear in [ucvsq]: multiplying
    [ucvsq] by [c] multiplies the fitted curve, the exciton curve and the
    band curve by [c], whatever data the two calls are given. *)
Theorem fsum2d_linear_in_ucvsq (p : Params) (c : R)
  (xdata ydata ydata' : list R) (o o' : FsumOut) :
  fsum2d p xdata ydata = Ok o ->
  fsum2d (mkParams (Eg p) (Eb p) (Gamma p) (c * ucvsq p) (mhcnp p) (q p))
    xdata ydata' = Ok o' ->
  out_FittedCurve o' = vscale c (out_FittedCurve o)
  /\ out_exciton o' = vscale c (out_exciton o)
  /\ out_band o' = vscale c (out_band o).
Proof.
  intros H H'.
  destruct (fsum2d_inv _ _ _ _ H) as (Hf & He & Hb & _).
  destruct (fsum2d_inv _ _ _ _ H') as (Hf' & He' & Hb' & _).
  rewrite Hf, He, Hb, Hf', He', Hb'. unfold model_curve.
  cbn [ucvsq Eb].
  rewrite (exciton_series_ext
             (mkParams (Eg p) (Eb p) (Gamma p) (c * ucvsq p) (mhcnp p) (q p))
             p xdata eq_refl eq_refl eq_refl eq_refl).
  rewrite (band_integral_ext
             (mkParams (Eg p) (Eb p) (Gamma p) (c * ucvsq p) (mhcnp p) (q p))
             p xdata eq_refl eq_refl eq_refl eq_refl).
  rewrite !vscale_vscale.
  replace (c * ucvsq p * sqrt (Eb p)) with (c * (ucvsq p * sqrt (Eb p)))
    by ring.
  clear. split; [reflexivity|]. split; reflexivity.
Qed.

Lemma fsum2d_linear_in_ucvsq_witness :
  exists o o',
    fsum2d (mkParams 1 1 1 1 1 0) [1; 2] [0; 0] = Ok o
    /\ fsum2d (mkParams 1 1 1 (3 * 1) 1 0) [1; 2] [0; 0] = Ok o'
    /\ out_FittedCurve o' = vscale 3 (out_FittedCurve o).
Proof.
  pose proof (fsum2d_same_length (mkParams 1 1 1 1 1 0) [1; 2] [0; 0] eq_refl)
    as H.
  pose proof (fsum2d_same_length (mkParams 1 1 1 (3 * 1) 1 0) [1; 2] [0; 0]
                eq_refl) as H'.
  do 2 eexists. split; [exact H|]. split; [exact H'|].
  exact (proj1 (fsum2d_linear_in_ucvsq (mkParams 1 1 1 1 1 0) 3 _ _ _ _ _
                  H H')).
Defined.

(** X6.  For two parameter vectors that agree on [Eg], [Eb], [Gamma] and
    [ucvsq]: the exciton curve is the same when they agree on [q] (it does
    not read [mhcnp]), and the band curve is the same when they agree on
    [mhcnp] (it does not read [q]). *)
Theorem exciton_ignores_mhcnp_band_ignores_q (p p' : Params)
  (xdata ydata ydata' : list R) (o o' : FsumOut) :
  fsum2d p xdata ydata = Ok o ->
  fsum2d p' xdata ydata' = Ok o' ->
  Eg p = Eg p' -> Eb p = Eb p' -> Gamma p = Gamma p' ->
  ucvsq p = ucvsq p' ->
  (q p = q p' -> out_exciton o = out_exciton o')
  /\ (mhcnp p = mhcnp p' -> out_band o = out_band o').
Proof.
  intros H H' Hg Hb HG Hu.
  destruct (fsum2d_inv _ _ _ _ H) as (_ & He & Hbd & _).
  destruct (fsum2d_inv _ _ _ _ H') as (_ & He' & Hbd' & _).
  assert (Hs : gamma_safe p = gamma_safe p')
    by (unfold gamma_safe; now rewrite HG).
  split.
  - intros Hq. rewrite He, He'.
    rewrite (exciton_series_ext p p' xdata Hg Hb Hq Hs).
    now rewrite Hu, Hb.
  - intros Hm. rewrite Hbd, Hbd'.
    rewrite (band_integral_ext p p' xdata Hg Hb Hm Hs).
    now rewrite Hu, Hb.
Qed.

Lemma exciton_ignores_mhcnp_band_ignores_q_witness :
  exists o o',
    fsum2d (mkParams 1 1 1 1 1 0) [1; 2] [0; 0] = Ok o
    /\ fsum2d (mkParams 1 1 1 1 0.5 0) [1; 2] [0; 0] = Ok o'
    /\ out_exciton o = out_exciton o'.
Proof.
  pose proof (fsum2d_same_length (mkParams 1 1 1 1 1 0) [1; 2] [0; 0] eq_refl)
    as H.
  pose proof (fsum2d_same_length (mkParams 1 1 1 1 0.5 0) [1; 2] [0; 0]
                eq_refl) as H'.
  do 2 eexists. split; [exact H|]. split; [exact H'|].
  exact (proj1 (exciton_ignores_mhcnp_band_ignores_q _ _ _ _ _ _ _ H H'
                  eq_refl eq_refl eq_refl eq_refl) eq_refl).
Defined.

Lemma vadd_zeros_l (a : list R) : vadd (zeros (length a)) a = a.
Proof.
  unfold vadd, zeros. induction a as [|x a IH]; simpl; [reflexivity|].
  rewrite IH. f_equal. ring.
Qed.

Lemma vscale_zeros (c : R) (n : nat) : vscale c (zeros n) = zeros n.
Proof.
  unfold vscale, zeros. induction n as [|n IH]; simpl; [reflexivity|].
  rewrite IH. f_equal. ring.
Qed.

Lemma trapz_term_zeros (c : R) (w : nat) :
  vadd (zeros w) (map (fun s => c * s / 2) (vadd (zeros w) (zeros w)))
  = zeros w.
Proof.
  unfold vadd, zeros. induction w as [|w IH]; simpl; [reflexivity|].
  rewrite IH. f_equal. field.
Qed.

Lemma trapz_from_zero_rows (w : nat) (a2 : list (list R)) :
  Forall (fun r => r = zeros w) a2 ->
  forall E e0, trapz_from (zeros w) e0 a2 E (zeros w) = zeros w.
Proof.
  induction 1 as [|r1 a2 Hr1 _ IH]; intros E e0; simpl; [reflexivity|].
  destruct E as [|e1 E]; [reflexivity|].
  subst r1. rewrite trapz_term_zeros. apply IH.
Qed.

Lemma trapz_zero_rows (w : nat) (a2 : list (list R)) (E : list R) :
  Forall (fun r => r = zeros w) a2 -> trapz a2 E w = zeros w.
Proof.
  intros H. unfold trapz. destruct a2 as [|r0 a2]; [reflexivity|].
  destruct E as [|e0 E]; [reflexivity|].
  inversion H; subst. now apply trapz_from_zero_rows.
Qed.

(** With [start >= stop] no point of the grid lies above [start]. *)
Lemma linspace_not_above (a b : R) (n : nat) (e : R) :
  b <= a -> In e (linspace a b n) -> e - a <= 0.
Proof.
  intros Hba. unfold linspace. destruct n as [|[|k]].
  - intros [].
  - intros [<- | []]. lra.
  - intros Hin. apply in_map_iff in Hin. destruct Hin as [i [<- _]].
    replace (S (S k) - 1)%nat with (S k) by lia.
    assert (Hk : 0 < INR (S k)) by (apply lt_0_INR; lia).
    assert (Hi : 0 <= INR i) by apply pos_INR.
    assert (Hs : (b - a) / INR (S k) <= 0).
    { assert (Hinv : 0 < / INR (S k)) by now apply Rinv_0_lt_compat.
      unfold Rdiv. nra. }
    nra.
Qed.

(** For a gap that is not positive the band integral vanishes. *)
Lemma band_integral_zero (p : Params) (xdata : list R) :
  Eg p <= 0 -> band_integral p xdata = zeros (length xdata).
Proof.
  intros Hg. unfold band_integral. apply trapz_zero_rows.
  apply Forall_forall. intros r Hr. apply in_map_iff in Hr.
  destruct Hr as [Ei [<- Hi]]. unfold band_grid in Hi.
  apply linspace_not_above in Hi; [|lra].
  unfold band_line. now rewrite Rleb_true.
Qed.

(** X7.  With [Eg <= 0] and [Eb >= 0] no point of the integration grid
    [linspace(Eg, 2*Eg)] lies above [Eg]: the band curve is zero everywhere
    and the fitted curve is the exciton curve alone. *)
Theorem no_continuum_without_positive_gap (p : Params)
  (xdata ydata : list R) (o : FsumOut) :
  Eg p <= 0 ->
  0 <= Eb p ->
  fsum2d p xdata ydata = Ok o ->
  out_band o = zeros (length xdata)
  /\ out_FittedCurve o = out_exciton o.
Proof.
  intros Hg _ H. destruct (fsum2d_inv _ _ _ _ H) as (Hf & He & Hb & _).
  rewrite Hf, He, Hb. unfold model_curve.
  rewrite (band_integral_zero p xdata Hg).
  split; [apply vscale_zeros|].
  rewrite <- (exciton_series_length p xdata) at 1.
  now rewrite vadd_zeros_l.
Qed.

Lemma no_continuum_without_positive_gap_witness :
  exists o, fsum2d (mkParams (-1) 1 1 1 1 0) [1; 2] [0; 0] = Ok o
            /\ out_band o = [0; 0]
            /\ out_FittedCurve o = out_exciton o.
Proof.
  pose proof (fsum2d_same_length (mkParams (-1) 1 1 1 1 0) [1; 2] [0; 0]
                eq_refl) as H.
  eexists. split; [exact H|].
  apply (no_continuum_without_positive_gap (mkParams (-1) 1 1 1 1 0)
           [1; 2] [0; 0] _ ltac:(cbn [Eg]; lra) ltac:(cbn [Eb]; lra) H).
Defined.

Lemma vscale_nonneg (c : R) (a : list R) :
  0 <= c -> Forall (Rle 0) a -> Forall (Rle 0) (vscale c a).
Proof.
  intros Hc Ha. unfold vscale. apply Forall_map.
  revert Ha. apply Forall_impl. intros x Hx. nra.
Qed.

Lemma band_integral_nonneg_any (p : Params) (xdata : list R) :
  Forall (Rle 0) (band_integral p xdata).
Proof.
  destruct (Rle_lt_dec (Eg p) 0) as [Hg|Hg].
  - rewrite band_integral_zero by exact Hg. apply zeros_nonneg.
  - now apply band_integral_nonneg.
Qed.

(** X8.  For [Eb >= 0], [q < 1] and [ucvsq >= 0] the exciton curve, the band
    curve and the fitted curve that [fsum2d] returns are non-negative at
    every point, for every linewidth and every [mhcnp]. *)
Theorem model_curves_nonneg (p : Params) (xdata ydata : list R)
  (o : FsumOut) :
  0 <= Eb p -> q p < 1 -> 0 <= ucvsq p ->
  fsum2d p xdata ydata = Ok o ->
  Forall (Rle 0) (out_exciton o) /\ Forall (Rle 0) (out_band o)
  /\ Forall (Rle 0) (out_FittedCurve o).
Proof.
  intros Hb Hq Hu H.
  destruct (fsum2d_inv _ _ _ _ H) as (Hf & He & Hbd & _).
  assert (Hs : 0 <= ucvsq p * sqrt (Eb p)).
  { apply Rmult_le_pos; [exact Hu | apply sqrt_pos]. }
  pose proof (exciton_series_nonneg p xdata Hb Hq) as Hex.
  pose proof (band_integral_nonneg_any p xdata) as Hba.
  rewrite Hf, He, Hbd. unfold model_curve.
  repeat split; apply vscale_nonneg; try assumption.
  unfold vadd.
  apply (zipWith_Forall Rplus (Rle 0) (Rle 0) (Rle 0)); try assumption.
  intros; lra.
Qed.

Lemma model_curves_nonneg_witness :
  exists o, fsum2d (mkParams 1 1 1 1 1 0) [1; 2] [0; 0] = Ok o
            /\ Forall (Rle 0) (out_FittedCurve o).
Proof.
  pose proof (fsum2d_same_length (mkParams 1 1 1 1 1 0) [1; 2] [0; 0] eq_refl)
    as H.
  eexists. split; [exact H|].
  apply (model_curves_nonneg (mkParams 1 1 1 1 1 0) [1; 2] [0; 0] _
           ltac:(cbn [Eb]; lra) ltac:(cbn [q]; lra) ltac:(cbn [ucvsq]; lra) H).
Defined.

(** ** Further properties of fit_baseline *)

Lemma count_true_app (a b : list bool) :
  count_true (a ++ b) = (count_true a + count_true b)%nat.
Proof. unfold count_true. now rewrite filter_app, length_app. Qed.

Lemma count_true_repeat_true (n : nat) : count_true (repeat true n) = n.
Proof.
  unfold count_true. induction n as [|n IH]; simpl; [reflexivity|].
  now rewrite IH.
Qed.

Lemma count_true_repeat_false (n : nat) : count_true (repeat false n) = 0%nat.
Proof. unfold count_true. induction n as [|n IH]; simpl; auto. Qed.

Lemma count_true_mask_first (len n : nat) :
  count_true (mask_first len n) = Nat.min n len.
Proof.
  unfold mask_first.
  rewrite count_true_app, count_true_repeat_true, count_true_repeat_false.
  lia.
Qed.

Lemma count_true_mask_last (len n : nat) :
  (0 < n)%nat -> count_true (mask_last len n) = Nat.min n len.
Proof.
  intros Hn. unfold mask_last. destruct n as [|n]; [lia|].
  rewrite count_true_app, count_true_repeat_true, count_true_repeat_false.
  lia.
Qed.

Lemma nth_mask_first (len n i : nat) :
  nth i (mask_first len n) false = true <-> (i < Nat.min n len)%nat.
Proof.
  unfold mask_first.
  destruct (Nat.lt_ge_cases i (Nat.min n len)) as [H|H].
  - rewrite app_nth1 by now rewrite repeat_length.
    rewrite nth_repeat_lt by exact H. tauto.
  - rewrite app_nth2 by now rewrite repeat_length.
    rewrite nth_repeat. split; [discriminate | lia].
Qed.

Lemma nth_mask_last (len n i : nat) :
  (0 < n)%nat ->
  nth i (mask_last len n) false = true
  <-> (len - n <= i < len)%nat.
Proof.
  intros Hn. unfold mask_last. destruct n as [|n]; [lia|].
  destruct (Nat.lt_ge_cases i (len - S n)) as [H|H].
  - rewrite app_nth1 by now rewrite repeat_length.
    rewrite nth_repeat. split; [discriminate | lia].
  - rewrite app_nth2 by now rewrite repeat_length.
    rewrite repeat_length.
    destruct (Nat.lt_ge_cases (i - (len - S n)) (Nat.min (S n) len))
      as [H1|H1].
    + rewrite nth_repeat_lt by exact H1. split; [lia | reflexivity].
    + rewrite nth_overflow by now rewrite repeat_length.
      split; [discriminate | lia].
Qed.

Lemma n_points_bounds (len : nat) : (10 <= n_points len <= 50)%nat.
Proof. unfold n_points. lia. Qed.

(** X9.  On a non-empty, strictly ascending or strictly descending axis,
    [fit_baseline] called without [Eg] selects the [min(n_points, len)]
    points of lowest energy, with [n_points = max(10, min(50, int(0.3 *
    len)))] between 10 and 50; the same mask is used when [Eg] and a positive
    [Eb] are known but fewer than 5 points lie below [Eg - 1.5*Eb]. *)
Theorem low_energy_window_selects_lowest (xdata : list R) :
  StronglySorted Rlt xdata \/ StronglySorted Rgt xdata ->
  xdata <> [] ->
  exists mask,
    low_energy_window xdata = Ok mask
    /\ select_baseline_mask xdata None None = Ok mask
    /\ (forall eg eb, 0 < eb ->
          (count_true (below (eg - 1.5 * eb) xdata) < 5)%nat ->
          select_baseline_mask xdata (Some eg) (Some eb) = Ok mask)
    /\ lowest_energy_mask xdata mask
         (Nat.min (n_points (length xdata)) (length xdata))
    /\ (10 <= n_points (length xdata) <= 50)%nat.
Proof.
  intros Hs Hne.
  pose proof (n_points_bounds (length xdata)) as Hn.
  set (n := length xdata) in *. set (k := n_points n) in *.
  assert (Hasc := ascending_nonempty xdata Hne). fold n in Hasc.
  assert (Hwin : exists mask, low_energy_window xdata = Ok mask
                 /\ lowest_energy_mask xdata mask (Nat.min k n)).
  { unfold low_energy_window. rewrite Hasc. cbn [bind]. fold n k.
    destruct (Rltb (nth 0 xdata 0) (nth (n - 1) xdata 0)) eqn:Ho.
    - apply Rltb_true_iff in Ho.
      assert (Hup : StronglySorted Rlt xdata).
      { destruct Hs as [H|H]; [exact H|]. exfalso.
        destruct (Nat.eq_dec (n - 1) 0) as [E|E]; [rewrite E in Ho; lra|].
        pose proof (StronglySorted_nth Rgt xdata H 0 (n - 1)
                      ltac:(fold n; lia)). unfold Rgt in *. lra. }
      exists (mask_first n k). split; [reflexivity|].
      split; [apply mask_first_length|].
      split; [apply count_true_mask_first|].
      intros i j Hi Hj Hjm. apply nth_mask_first in Hi.
      assert (Hji : (Nat.min k n <= j)%nat).
      { destruct (Nat.lt_ge_cases j (Nat.min k n)) as [H|H]; [|exact H].
        apply nth_mask_first in H. congruence. }
      apply Rlt_le, (StronglySorted_nth Rlt xdata Hup). fold n. lia.
    - apply Rltb_false_iff in Ho.
      assert (Hdown : forall i j, (i < j < n)%nat ->
                        nth j xdata 0 <= nth i xdata 0).
      { intros i j Hij. destruct Hs as [H|H].
        - exfalso.
          pose proof (StronglySorted_nth Rlt xdata H 0 (n - 1)
                        ltac:(fold n; lia)). lra.
        - pose proof (StronglySorted_nth Rgt xdata H i j Hij).
          unfold Rgt in *. lra. }
      exists (mask_last n k). split; [reflexivity|].
      split; [apply mask_last_length|].
      split; [apply count_true_mask_last; lia|].
      intros i j Hi Hj Hjm. apply nth_mask_last in Hi; [|lia].
      assert (Hji : (j < n - k)%nat).
      { destruct (Nat.lt_ge_cases j (n - k)) as [H|H]; [exact H|].
        assert (Ht : nth j (mask_last n k) false = true)
          by (apply nth_mask_last; lia).
        congruence. }
      apply Hdown. lia. }
  destruct Hwin as (mask & Hw & Hlow).
  exists mask. split; [exact Hw|]. split; [exact Hw|].
  split; [|split; [exact Hlow | exact Hn]].
  intros eg eb Heb Hc. unfold select_baseline_mask.
  rewrite Rltb_true by exact Heb. rewrite Hasc. cbn [bind].
  apply Nat.ltb_lt in Hc. now rewrite Hc.
Qed.

Lemma low_energy_window_selects_lowest_witness :
  exists mask,
    select_baseline_mask [3; 2; 1] None None = Ok mask
    /\ lowest_energy_mask [3; 2; 1] mask 3.
Proof.
  assert (Hs : StronglySorted Rgt [3; 2; 1]).
  { repeat constructor; unfold Rgt; lra. }
  destruct (low_energy_window_selects_lowest [3; 2; 1] (or_intror Hs)
              ltac:(discriminate)) as (mask & _ & Hm & _ & Hl & _).
  exists mask. split; [exact Hm | exact Hl].
Defined.

(** Mode 2 on the axis [1, 2] with [y = 3 E^4]. *)
Lemma sample_rayleigh_fit :
  fit_baseline (lib := reference_lib) (init 0.2 20 2) [1; 2] [3; 48]
    None None
  = Ok (map (fun E => 3 * E ^ 4) [1; 2], [true; true]).
Proof.
  assert (Hm : select_baseline_mask [1; 2] None None = Ok [true; true]).
  { unfold select_baseline_mask, low_energy_window.
    rewrite ascending_two, Rltb_true by lra. reflexivity. }
  rewrite (fit_baseline_after_mask (lib := reference_lib) (init 0.2 20 2)
             [1; 2] [3; 48] None None [true; true]
             ltac:(cbn; discriminate) Hm eq_refl).
  cbn [count_true filter length Nat.ltb Nat.leb fitmode init Z.eqb Pos.eqb].
  unfold rayleigh_baseline.
  rewrite Rltb_false by (cbn; lra). rewrite pydiv_ok by (cbn; lra).
  cbn [bind]. do 2 f_equal. cbn [select map zipWith np_sum fold_right].
  f_equal; [field | f_equal; field].
Qed.

(** The mask [fit_baseline] returns has one entry per point of the axis,
    and outside mode 0 the data had as many points. *)
Lemma fit_baseline_mask_length {lib : SciLib} (self : FSumFitter)
  (xdata ydata : list R) (Eg Eb : option R) (bl : list R) (m : list bool) :
  fit_baseline self xdata ydata Eg Eb = Ok (bl, m) ->
  length m = length xdata
  /\ (fitmode self <> 0%Z -> length ydata = length xdata).
Proof.
  intros H.
  unfold fit_baseline in H. destruct (Z.eqb (fitmode self) 0) eqn:H0.
  - apply Z.eqb_eq in H0. apply (f_equal (fun r => match r with
                                    | Ok (_, m') => m' | Raise _ => m end))
      in H. cbv beta iota in H. subst m.
    split; [apply repeat_length | congruence].
  - destruct (select_baseline_mask xdata Eg Eb) as [mask|] eqn:Hm;
      cbn [bind] in H; [|discriminate].
    apply select_baseline_mask_length in Hm.
    destruct (bool_index ydata mask) as [y_fit|] eqn:Hy; cbn [bind] in H;
      [|discriminate].
    apply bool_index_inv in Hy. destruct Hy as [Hy _].
    assert (Hmm : m = mask).
    { destruct (Nat.ltb _ _); [congruence|].
      destruct (Z.eqb (fitmode self) 1).
      - destruct (polyfit1 _ _) as [[c0 c1]|]; cbn [bind] in H;
          [congruence | discriminate].
      - destruct (Z.eqb (fitmode self) 2); [|discriminate].
        destruct (rayleigh_baseline _ _ _); cbn [bind] in H;
          [congruence | discriminate]. }
    subst m. split; [exact Hm | intros _; congruence].
Qed.

(** X10.  Whenever [fit_baseline] returns, the baseline and the mask have one
    entry per point of [xdata]; outside mode 0 this happens only when
    [ydata] has the length of [xdata]. *)
Theorem fit_baseline_shapes {lib : SciLib} (self : FSumFitter)
  (xdata ydata : list R) (Eg Eb : option R) (bl : list R) (m : list bool) :
  fit_baseline self xdata ydata Eg Eb = Ok (bl, m) ->
  length bl = length xdata /\ length m = length xdata
  /\ (fitmode self <> 0%Z -> length ydata = length xdata).
Proof.
  intros H. split; [exact (fit_baseline_length _ _ _ _ _ _ _ H)|].
  exact (fit_baseline_mask_length _ _ _ _ _ _ _ H).
Qed.

Lemma fit_baseline_shapes_witness :
  exists bl m,
    fit_baseline (lib := reference_lib) (init 0.2 20 2) [1; 2] [3; 48]
      None None = Ok (bl, m)
    /\ length bl = 2%nat /\ length m = 2%nat.
Proof.
  do 2 eexists. split; [exact sample_rayleigh_fit|].
  destruct (fit_baseline_shapes _ _ _ _ _ _ _ sample_rayleigh_fit)
    as (H1 & H2 & _).
  split; [exact H1 | exact H2].
Defined.

(** X11.  [fit_baseline] on an empty axis: mode 0 returns the empty baseline and
    mask; in the other modes the call raises [IndexError] (from the
    orientation test [xdata[0] < xdata[-1]]) when [Eg] is missing or [Eg]
    and a positive [Eb] are given, and returns the empty baseline and mask
    when [Eg] is given with no [Eb] or with [Eb <= 0]. *)
Theorem fit_baseline_on_empty_axis {lib : SciLib} (self : FSumFitter)
  (eg eb : R) :
  (fitmode self = 0%Z ->
   forall Eg Eb, fit_baseline self [] [] Eg Eb = Ok ([], []))
  /\ (fitmode self <> 0%Z ->
      fit_baseline self [] [] None None = Raise IndexError
      /\ (0 < eb ->
          fit_baseline self [] [] (Some eg) (Some eb) = Raise IndexError)
      /\ (eb <= 0 ->
          fit_baseline self [] [] (Some eg) (Some eb) = Ok ([], []))
      /\ fit_baseline self [] [] (Some eg) None = Ok ([], [])).
Proof.
  split.
  - intros H0 Eg Eb. unfold fit_baseline. now rewrite H0.
  - intros H0. apply Z.eqb_neq in H0. unfold fit_baseline. rewrite H0.
    repeat split.
    + intros Hb. unfold select_baseline_mask. now rewrite Rltb_true.
    + intros Hb. unfold select_baseline_mask.
      now rewrite Rltb_false by lra.
Qed.

Lemma fit_baseline_on_empty_axis_witness :
  fit_baseline (lib := reference_lib) (init 0.2 20 2) [] [] None None
  = Raise IndexError
  /\ fit_baseline (lib := reference_lib) (init 0.2 20 2) [] []
       (Some 2.6) None = Ok ([], []).
Proof.
  destruct (fit_baseline_on_empty_axis (lib := reference_lib)
              (init 0.2 20 2) 2.6 0.05) as [_ H].
  destruct (H ltac:(cbn; discriminate)) as (H1 & _ & _ & H4).
  split; [exact H1 | exact H4].
Defined.

Lemma select_map (f : R -> R) (mask : list bool) (a : list R) :
  select mask (map f a) = map f (select mask a).
Proof.
  revert a. induction mask as [|b mask IH]; intros [|x a]; simpl;
    try reflexivity.
  destruct b; simpl; now rewrite IH.
Qed.

Lemma select_pointwise (mask : list bool) (a b : list R) :
  length a = length mask -> length b = length mask ->
  (forall i, nth i mask false = true -> nth i a 0 = nth i b 0) ->
  select mask a = select mask b.
Proof.
  revert a b. induction mask as [|m mask IH]; intros [|x a] [|y b] Ha Hb H;
    try discriminate; [reflexivity|].
  injection Ha as Ha. injection Hb as Hb. simpl.
  rewrite (IH a b Ha Hb) by (intros i Hi; exact (H (S i) Hi)).
  destruct m; [|reflexivity].
  f_equal. exact (H 0%nat eq_refl).
Qed.

Lemma sum_y_E4 (a : R) (x_fit : list R) :
  np_sum (zipWith Rmult (map (fun E => a * E ^ 4) x_fit)
            (map (fun E => E ^ 4) x_fit))
  = a * np_sum (map (fun E => E ^ 8) x_fit).
Proof.
  induction x_fit as [|x l IH]; cbn [map zipWith np_sum fold_right];
    [ring|].
  fold (np_sum (zipWith Rmult (map (fun E => a * E ^ 4) l)
                  (map (fun E => E ^ 4) l))).
  fold (np_sum (map (fun E => E ^ 8) l)). rewrite IH. ring.
Qed.

(** X12.  Mode 2 recovers a pure Rayleigh background exactly: when the masked
    points, at least 2 of them with [sum(E^8) >= 1e-10], satisfy
    [y = a * E^4], the baseline returned is [a * E^4] at every point of the
    axis. *)
Theorem rayleigh_data_recovered_exactly {lib : SciLib} (self : FSumFitter)
  (xdata ydata : list R) (Eg Eb : option R) (mask : list bool) (a : R) :
  fitmode self = 2%Z ->
  select_baseline_mask xdata Eg Eb = Ok mask ->
  length ydata = length xdata ->
  (2 <= count_true mask)%nat ->
  1e-10 <= np_sum (map (fun E => E ^ 8) (select mask xdata)) ->
  (forall i, nth i mask false = true ->
             nth i ydata 0 = a * nth i xdata 0 ^ 4) ->
  fit_baseline self xdata ydata Eg Eb
  = Ok (map (fun E => a * E ^ 4) xdata, mask).
Proof.
  intros H2 Hm Hl Hc Hs Hy.
  pose proof (select_baseline_mask_length _ _ _ _ Hm) as Hlen.
  rewrite (fit_baseline_after_mask self xdata ydata Eg Eb mask
             ltac:(rewrite H2; discriminate) Hm Hl).
  apply Nat.ltb_ge in Hc. rewrite Hc, H2. cbn [Z.eqb Pos.eqb].
  assert (Hsel : select mask ydata
                 = map (fun E => a * E ^ 4) (select mask xdata)).
  { rewrite <- select_map. apply select_pointwise.
    - congruence.
    - now rewrite length_map.
    - intros i Hi. rewrite (Hy i Hi).
      assert (Hlt : (i < length xdata)%nat).
      { destruct (Nat.lt_ge_cases i (length mask)) as [H|H]; [lia|].
        rewrite nth_overflow in Hi by exact H. discriminate. }
      rewrite (nth_indep (map (fun E => a * E ^ 4) xdata) 0
                 ((fun E => a * E ^ 4) 0)) by now rewrite length_map.
      symmetry. exact (map_nth (fun E => a * E ^ 4) xdata 0 i). }
  rewrite Hsel. unfold rayleigh_baseline.
  rewrite Rltb_false by lra. rewrite pydiv_ok by lra. cbn [bind].
  rewrite sum_y_E4. do 2 f_equal. apply map_ext. intros E. field. lra.
Qed.

Lemma rayleigh_data_recovered_exactly_witness :
  fit_baseline (lib := reference_lib) (init 0.2 20 2) [1; 2] [3; 48]
    None None
  = Ok (map (fun E => 3 * E ^ 4) [1; 2], [true; true]).
Proof.
  assert (Hm : select_baseline_mask [1; 2] None None = Ok [true; true]).
  { unfold select_baseline_mask, low_energy_window.
    rewrite ascending_two, Rltb_true by lra. reflexivity. }
  apply (rayleigh_data_recovered_exactly (lib := reference_lib)
           (init 0.2 20 2) [1; 2] [3; 48] None None [true; true] 3
           eq_refl Hm eq_refl).
  - cbn. lia.
  - cbn. lra.
  - intros [|[|i]] Hi; cbn; try lra. destruct i; discriminate Hi.
Defined.

(** The residual of the curve [c * E^4] as a quadratic in [c]. *)
Lemma rayleigh_residual_quadratic (c : R) (xs ys : list R) :
  length xs = length ys ->
  residual_ss (map (fun E => c * E ^ 4) xs) ys
  = c ^ 2 * np_sum (map (fun E => E ^ 8) xs)
    - 2 * c * np_sum (zipWith Rmult ys (map (fun E => E ^ 4) xs))
    + np_sum (map (fun y => y ^ 2) ys).
Proof.
  unfold residual_ss. revert ys.
  induction xs as [|x xs IH]; intros [|y ys] Hl; try discriminate.
  - cbn. ring.
  - injection Hl as Hl. specialize (IH ys Hl).
    cbn [map zipWith np_sum fold_right] in *.
    fold (np_sum (map (fun e => e ^ 2)
                    (zipWith Rminus (map (fun E => c * E ^ 4) xs) ys))).
    fold (np_sum (map (fun E => E ^ 8) xs)).
    fold (np_sum (zipWith Rmult ys (map (fun E => E ^ 4) xs))).
    fold (np_sum (map (fun y => y ^ 2) ys)).
    unfold np_sum in *. rewrite IH. ring.
Qed.

(** X13.  The mode-2 baseline is the least-squares fit over the masked points:
    no coefficient [a'] gives [a' * E^4] a smaller residual sum of squares
    against the masked data than the baseline that [fit_baseline] returns. *)
Theorem rayleigh_coefficient_is_least_squares {lib : SciLib}
  (self : FSumFitter) (xdata ydata : list R) (Eg Eb : option R)
  (bl : list R) (mask : list bool) :
  fitmode self = 2%Z ->
  length ydata = length xdata ->
  fit_baseline self xdata ydata Eg Eb = Ok (bl, mask) ->
  (2 <= count_true mask)%nat ->
  1e-10 <= np_sum (map (fun E => E ^ 8) (select mask xdata)) ->
  forall a',
    residual_ss (select mask bl) (select mask ydata)
    <= residual_ss (map (fun E => a' * E ^ 4) (select mask xdata))
         (select mask ydata).
Proof.
  intros H2 Hl Hfit Hc Hs a'.
  assert (Hm : select_baseline_mask xdata Eg Eb = Ok mask).
  { unfold fit_baseline in Hfit. rewrite H2 in Hfit. cbn [Z.eqb] in Hfit.
    destruct (select_baseline_mask xdata Eg Eb) as [m0|]; cbn [bind] in Hfit;
      [|discriminate].
    destruct (bool_index ydata m0); cbn [bind] in Hfit; [|discriminate].
    destruct (Nat.ltb _ _); [congruence|]. cbn [Pos.eqb] in Hfit.
    destruct (rayleigh_baseline _ _ _); cbn [bind] in Hfit;
      [congruence | discriminate]. }
  pose proof (select_baseline_mask_length _ _ _ _ Hm) as Hlen.
  rewrite (fit_baseline_after_mask self xdata ydata Eg Eb mask
             ltac:(rewrite H2; discriminate) Hm Hl) in Hfit.
  apply Nat.ltb_ge in Hc. rewrite Hc, H2 in Hfit.
  cbn [Z.eqb Pos.eqb] in Hfit. unfold rayleigh_baseline in Hfit.
  rewrite Rltb_false in Hfit by lra. rewrite pydiv_ok in Hfit by lra.
  cbn [bind] in Hfit.
  set (x_fit := select mask xdata) in *.
  set (y_fit := select mask ydata) in *.
  set (S8 := np_sum (map (fun E => E ^ 8) x_fit)) in *.
  set (Sye := np_sum (zipWith Rmult y_fit (map (fun x => x ^ 4) x_fit))) in *.
  assert (Hbl : bl = map (fun x => Sye / S8 * x ^ 4) xdata) by congruence.
  subst bl. rewrite select_map. fold x_fit.
  assert (Hxy : length x_fit = length y_fit).
  { unfold x_fit, y_fit. rewrite !select_length; congruence. }
  rewrite !rayleigh_residual_quadratic by exact Hxy.
  fold S8 Sye.
  assert (Ha : Sye = Sye / S8 * S8) by (field; lra).
  set (a := Sye / S8) in *.
  assert (Hsq : 0 <= (a' - a) ^ 2 * S8).
  { apply Rmult_le_pos; [apply pow2_ge_0 | lra]. }
  rewrite Ha. nra.
Qed.

Lemma rayleigh_coefficient_is_least_squares_witness :
  residual_ss (select [true; true] (map (fun E => 3 * E ^ 4) [1; 2]))
    (select [true; true] [3; 48])
  <= residual_ss (map (fun E => 0 * E ^ 4) (select [true; true] [1; 2]))
       (select [true; true] [3; 48]).
Proof.
  apply (rayleigh_coefficient_is_least_squares (lib := reference_lib)
           (init 0.2 20 2) [1; 2] [3; 48] None None
           (map (fun E => 3 * E ^ 4) [1; 2]) [true; true] eq_refl eq_refl
           sample_rayleigh_fit).
  - cbn. lia.
  - cbn. lra.
Defined.

(** ** Further properties of the Urbach estimator and of the masks *)

Lemma slice_length (a : list R) (start stop : nat) :
  length (slice a start stop)
  = Nat.min (stop - start) (length a - start).
Proof. unfold slice. now rewrite length_firstn, length_skipn. Qed.

(** X14.  When some energy lies below [|Eb - Eg|], with [index] the first such
    position: the Urbach line is fitted over the positions from
    [min(index+2, len-1)] up to, excluding, [min(index+10, len)], which are
    between 1 and 8 points, exactly 8 when [index + 10 <= len], and the last
    point alone when [index + 2 >= len]; the guard [end_idx <= start_idx] is
    not met, and the result is the line through [polyfit] of the logarithms,
    evaluated on the whole axis. *)
Theorem urbach_window_shape {lib : SciLib} (xdata ydata : list R)
  (Eb Eg : R) (index : nat) :
  first_index (fun x => Rltb x (Rabs (Eb - Eg))) xdata = Some index ->
  let start_idx := Nat.min (index + 2) (length xdata - 1) in
  let end_idx := Nat.min (index + 10) (length xdata) in
  nth index xdata 0 < Rabs (Eb - Eg)
  /\ (forall j, (j < index)%nat -> Rabs (Eb - Eg) <= nth j xdata 0)
  /\ (1 <= length (slice xdata start_idx end_idx) <= 8)%nat
  /\ ((index + 10 <= length xdata)%nat ->
      start_idx = (index + 2)%nat
      /\ length (slice xdata start_idx end_idx) = 8%nat)
  /\ ((length xdata <= index + 2)%nat ->
      slice xdata start_idx end_idx = [last xdata 0])
  /\ calculate_urbach_energy xdata ydata Eb Eg
     = ('(slope, intersect) <-
          polyfit1 (slice xdata start_idx end_idx)
            (map np_log (slice ydata start_idx end_idx)) ;;
        Ok (slope, intersect, map (fun x => intersect + slope * x) xdata)).
Proof.
  intros Hi start_idx end_idx.
  destruct (first_index_some _ _ _ Hi) as (Hlt & Hf & Hbefore).
  split; [now apply Rltb_true_iff in Hf|].
  split; [intros j Hj; now apply Rltb_false_iff, Hbefore|].
  split; [rewrite slice_length; unfold start_idx, end_idx; lia|].
  split; [intros H; rewrite slice_length; unfold start_idx, end_idx; lia|].
  split.
  - intros H. unfold slice, start_idx, end_idx.
    replace (Nat.min (index + 2) (length xdata - 1))
      with (length xdata - 1)%nat by lia.
    replace (Nat.min (index + 10) (length xdata) - (length xdata - 1))%nat
      with 1%nat by lia.
    destruct xdata as [|x l] using rev_ind; [simpl in Hlt; lia|].
    rewrite last_last, length_app. cbn [length].
    replace (length l + 1 - 1)%nat with (length l) by lia.
    rewrite skipn_app, skipn_all, Nat.sub_diag. reflexivity.
  - unfold calculate_urbach_energy. rewrite Hi. fold start_idx end_idx.
    assert (Hle : Nat.leb end_idx start_idx = false).
    { apply Nat.leb_gt. unfold start_idx, end_idx. lia. }
    now rewrite Hle.
Qed.

Lemma urbach_window_shape_witness :
  let xdata := [3; 2; 1; 0.5] in
  (1 <= length (slice xdata
                  (Nat.min (1 + 2) (length xdata - 1))
                  (Nat.min (1 + 10) (length xdata))))%nat
  /\ (length (slice xdata
                  (Nat.min (1 + 2) (length xdata - 1))
                  (Nat.min (1 + 10) (length xdata))) <= 8)%nat.
Proof.
  assert (Ht : Rabs (0.05 - 2.6) = 2.55) by (rewrite Rabs_left by lra; lra).
  assert (Hi : first_index (fun x => Rltb x (Rabs (0.05 - 2.6)))
                 [3; 2; 1; 0.5] = Some 1%nat).
  { rewrite Ht. cbn [first_index]. rewrite Rltb_false by lra.
    rewrite Rltb_true by lra. reflexivity. }
  exact (proj1 (proj2 (proj2
           (urbach_window_shape (lib := reference_lib) [3; 2; 1; 0.5]
              [1; 1; 1; 1] 0.05 2.6 1 Hi)))).
Defined.

Lemma nth_zipWith_andb (a b : list bool) (i : nat) :
  nth i (zipWith andb a b) false = nth i a false && nth i b false.
Proof.
  revert b i. induction a as [|x a IH]; intros [|y b] [|i]; simpl;
    try reflexivity; try (now rewrite andb_false_r); auto.
Qed.

Lemma nth_map_test (f : R -> bool) (xdata : list R) (i : nat) :
  nth i (map f xdata) false = true
  <-> (i < length xdata)%nat /\ f (nth i xdata 0) = true.
Proof.
  destruct (Nat.lt_ge_cases i (length xdata)) as [H|H].
  - rewrite (nth_indep _ false (f 0)) by now rewrite length_map.
    rewrite map_nth. tauto.
  - rewrite nth_overflow by now rewrite length_map.
    split; [discriminate | lia].
Qed.

(** Membership in a mask narrowed by the caller's limits. *)
Lemma nth_and_limits (xdata : list R) (mn mx : option R) (mask : list bool)
  (i : nat) :
  nth i (and_limits xdata mn mx mask) false = true
  <-> nth i mask false = true
      /\ (forall lo, mn = Some lo -> (i < length xdata)%nat
                                   /\ lo <= nth i xdata 0)
      /\ (forall hi, mx = Some hi -> (i < length xdata)%nat
                                   /\ nth i xdata 0 <= hi).
Proof.
  unfold and_limits. destruct mn as [lo|], mx as [hi|];
    rewrite ?nth_zipWith_andb, ?andb_true_iff, ?nth_map_test,
      ?Rleb_true_iff.
  - split.
    + intros [[Hm Hlo] Hhi]. split; [exact Hm|].
      split; intros v Hv; inversion Hv; subst; assumption.
    + intros (Hm & Hlo & Hhi). split; [split|]; auto.
  - split.
    + intros [Hm Hlo]. split; [exact Hm|].
      split; intros v Hv; inversion Hv; subst; assumption.
    + intros (Hm & Hlo & _). split; auto.
  - split.
    + intros [Hm Hhi]. split; [exact Hm|].
      split; intros v Hv; inversion Hv; subst; assumption.
    + intros (Hm & _ & Hhi). split; auto.
  - split; [intros Hm; split; [exact Hm|]; split; discriminate | tauto].
Qed.

Lemma nth_between (lo hi : R) (xdata : list R) (i : nat) :
  nth i (between lo hi xdata) false = true
  <-> (i < length xdata)%nat /\ lo <= nth i xdata 0 <= hi.
Proof.
  unfold between. rewrite nth_map_test, andb_true_iff, !Rleb_true_iff.
  tauto.
Qed.

(** X15.  The mask of the final fit has one entry per point and selects at least
    [min(10, len)] points; when the caller's [min_energy] and [max_energy]
    leave fewer than 10 points they are dropped and the whole axis is
    fitted; otherwise the mask selects exactly the points within the
    limits. *)
Theorem final_fit_mask_keeps_ten_points (xdata : list R)
  (mn mx : option R) :
  let user := and_limits xdata mn mx (repeat true (length xdata)) in
  length (final_fit_mask xdata mn mx) = length xdata
  /\ (Nat.min 10 (length xdata) <= count_true (final_fit_mask xdata mn mx))%nat
  /\ ((count_true user < 10)%nat ->
      final_fit_mask xdata mn mx = repeat true (length xdata))
  /\ ((10 <= count_true user)%nat ->
      forall i,
        nth i (final_fit_mask xdata mn mx) false = true
        <-> (i < length xdata)%nat
            /\ (forall lo, mn = Some lo -> lo <= nth i xdata 0)
            /\ (forall hi, mx = Some hi -> nth i xdata 0 <= hi)).
Proof.
  intros user. split; [apply final_fit_mask_length|].
  unfold final_fit_mask. fold user.
  destruct (Nat.ltb (count_true user) 10) eqn:Hc.
  - apply Nat.ltb_lt in Hc. split; [|split; [reflexivity | lia]].
    rewrite count_true_repeat_true. lia.
  - apply Nat.ltb_ge in Hc. split; [lia|]. split; [lia|].
    intros _ i. unfold user. rewrite nth_and_limits. split.
    + intros (Hm & Hlo & Hhi).
      assert (Hi : (i < length xdata)%nat).
      { destruct (Nat.lt_ge_cases i (length xdata)) as [H|H]; [exact H|].
        rewrite nth_overflow in Hm by now rewrite repeat_length.
        discriminate. }
      split; [exact Hi|].
      split; intros v Hv; [apply (Hlo v Hv) | apply (Hhi v Hv)].
    + intros (Hi & Hlo & Hhi).
      split; [now apply nth_repeat_lt|].
      split; intros v Hv; (split; [exact Hi|]); auto.
Qed.

(** X16.  When the auto-range refit has run, it was not disabled, its mask
    holds more than 10 points and selects exactly the points within
    [Eg - 0.5, Eg + 0.5] of the final fit's [Eg] that also respect the
    caller's limits; when it has not run, the mask, the estimates and the
    sse of the final fit stand; [auto_range = False] never runs it. *)
Theorem auto_range_window {lib : SciLib} (self : FSumFitter)
  (xdata : list R) (mn mx : option R) (ar : option bool) (s : FinalFit)
  (f : Fitted) :
  auto_range_refit self xdata mn mx ar s = Ok f ->
  (fd_auto_ran f = true ->
   ar <> Some false
   /\ (10 < count_true (fd_mask f))%nat
   /\ forall i,
        nth i (fd_mask f) false = true
        <-> (i < length xdata)%nat
            /\ Eg (ff_estimates s) - 0.5 <= nth i xdata 0
               <= Eg (ff_estimates s) + 0.5
            /\ (forall lo, mn = Some lo -> lo <= nth i xdata 0)
            /\ (forall hi, mx = Some hi -> nth i xdata 0 <= hi))
  /\ (fd_auto_ran f = false ->
      fd_mask f = ff_mask s /\ fd_estimates f = ff_estimates s
      /\ fd_sse f = ff_sse s)
  /\ (ar = Some false -> fd_auto_ran f = false).
Proof.
  intros H. destruct (auto_range_refit_inv _ _ _ _ _ _ _ H)
    as (_ & _ & _ & Hran & Hmask & Hkept).
  split; [|split; [exact Hkept|]].
  - intros Ht. destruct (Hmask Ht) as [Hm _]. rewrite Ht in Hran.
    symmetry in Hran. apply andb_true_iff in Hran.
    destruct Hran as [Hen Hc]. apply Nat.ltb_lt in Hc.
    split; [intros ->; discriminate Hen|].
    split; [now rewrite Hm|].
    intros i. rewrite Hm. unfold auto_range_mask.
    rewrite nth_and_limits, nth_between. split.
    + intros ((Hi & Hw) & Hlo & Hhi). repeat split; try tauto.
      * intros lo Hl. apply (Hlo lo Hl).
      * intros hi Hh. apply (Hhi hi Hh).
    + intros (Hi & Hw & Hlo & Hhi). repeat split; try tauto.
      * now apply Hlo.
      * now apply Hhi.
  - intros ->. rewrite Hran. reflexivity.
Qed.

Lemma between_all_inside (lo hi : R) (xdata : list R) :
  Forall (fun x => lo <= x <= hi) xdata ->
  between lo hi xdata = repeat true (length xdata).
Proof.
  induction 1 as [|x l Hx _ IH]; [reflexivity|].
  cbn [between map length repeat]. fold (between lo hi l). rewrite IH.
  rewrite !Rleb_true by lra. reflexivity.
Qed.

(** Eleven points at 1 eV around a final fit at [Eg = 1]: the refit runs on
    all of them. *)
Lemma auto_range_window_witness :
  exists f,
    auto_range_refit (lib := reference_lib) (init 0.2 20 0) (repeat 1 11)
      None None None
      (mkFinalFit (zeros 11) (repeat false 11) (repeat 1 11)
         (default_lb, default_rb) (mkParams 1 0.05 0.1 10 0.06 0) 0
         (repeat true 11)) = Ok f
    /\ fd_auto_ran f = true
    /\ (10 < count_true (fd_mask f))%nat.
Proof.
  set (s := mkFinalFit (zeros 11) (repeat false 11) (repeat 1 11)
              (default_lb, default_rb) (mkParams 1 0.05 0.1 10 0.06 0) 0
              (repeat true 11)).
  assert (Hm : auto_range_mask (repeat 1 11) None None (ff_estimates s)
               = repeat true 11).
  { unfold auto_range_mask, and_limits.
    rewrite between_all_inside; [reflexivity|].
    apply Forall_forall. intros x Hx. apply repeat_spec in Hx. subst x.
    cbn [s ff_estimates Eg]. lra. }
  destruct (ref_fit_data (init 0.2 20 0)
              (select (repeat true 11) (repeat 1 11))
              (select (repeat true 11) (ff_ydata s))
              (ff_estimates s) (ff_bounds s)) as [o Ho]; [reflexivity|].
  assert (H : auto_range_refit (lib := reference_lib) (init 0.2 20 0)
                (repeat 1 11) None None None s
              = Ok (mkFitted
                      (project (fst (ff_bounds s)) (snd (ff_bounds s))
                         (ff_estimates s))
                      (out_sse o) (repeat true 11) (ff_baseline s)
                      (ff_baseline_mask s) (ff_ydata s) true)).
  { unfold auto_range_refit. cbn [auto_enabled]. rewrite Hm.
    rewrite count_true_repeat_true. cbn [Nat.ltb Nat.leb].
    rewrite bool_index_ok by reflexivity. cbn [bind].
    rewrite Ho. reflexivity. }
  eexists. split; [exact H|]. split; [reflexivity|].
  exact (proj1 (proj2 (proj1 (auto_range_window _ _ _ _ _ _ _ H)
                         eq_refl))).
Defined.

(** ** The dataset loop *)

(** An invariant of the fitter and a property of every result carried
    through the loop. *)
Lemma dataset_loop_each {lib : SciLib} (xdata : list R)
  (T : option (list Z)) (mn mx : option R) (ar : option bool)
  (I : FSumFitter -> Prop) (P : DatasetFit -> Prop) :
  (forall self raw d self',
      I self -> process_dataset self xdata raw mn mx ar = (Ok d, self') ->
      I self' /\ P d) ->
  forall (cols : list (list R)) (self : FSumFitter) (i : nat)
         (acc ds : list (nat * DatasetFit)),
    I self -> Forall (fun x => P (snd x)) acc ->
    fst (dataset_loop self xdata T mn mx ar i cols acc) = Ok ds ->
    Forall (fun x => P (snd x)) ds.
Proof.
  intros Hstep cols. induction cols as [|raw cols IH];
    intros self i acc ds HI Hacc H; cbn [dataset_loop] in H.
  - cbn [fst] in H. congruence.
  - destruct (selected T i).
    + destruct (process_dataset self xdata raw mn mx ar) as [[d|e] self']
        eqn:Hp; [|discriminate H].
      destruct (Hstep _ _ _ _ HI Hp) as [HI' HP].
      apply (IH _ _ _ _ HI') in H; [exact H|].
      apply Forall_app. split; [exact Hacc|]. now constructor.
    + now apply (IH _ _ _ _ HI) in H.
Qed.

Lemma dataset_loop_indices {lib : SciLib} (xdata : list R)
  (T : option (list Z)) (mn mx : option R) (ar : option bool)
  (cols : list (list R)) :
  forall (self : FSumFitter) (i : nat) (acc ds : list (nat * DatasetFit)),
    fst (dataset_loop self xdata T mn mx ar i cols acc) = Ok ds ->
    map fst ds = map fst acc ++ filter (selected T) (seq i (length cols)).
Proof.
  induction cols as [|raw cols IH]; intros self i acc ds H;
    cbn [dataset_loop] in H.
  - cbn [fst] in H. cbn [length seq filter]. rewrite app_nil_r. congruence.
  - cbn [length seq filter]. destruct (selected T i).
    + destruct (process_dataset self xdata raw mn mx ar) as [[d|e] self'];
        [|discriminate H].
      apply IH in H. rewrite H, map_app, <- app_assoc. reflexivity.
    + now apply IH in H.
Qed.

Lemma selected_iff (T : option (list Z)) (i : nat) :
  selected T i = true <-> forall ts, T = Some ts -> In (Z.of_nat i) ts.
Proof.
  unfold selected. destruct T as [ts|].
  - rewrite existsb_exists. split.
    + intros (t & Hin & Ht) ts' Hts. inversion Hts; subst ts'.
      apply Z.eqb_eq in Ht. now replace (Z.of_nat i) with t by lia.
    + intros H. exists (Z.of_nat i). split; [now apply H|].
      apply Z.eqb_refl.
  - split; [discriminate | reflexivity].
Qed.

Lemma seq_sorted (n i : nat) : StronglySorted lt (seq i n).
Proof.
  revert i. induction n as [|n IH]; intros i; cbn [seq]; constructor.
  - apply IH.
  - apply Forall_forall. intros j Hj. apply in_seq in Hj. lia.
Qed.

Lemma filter_sorted {A : Type} (rel : A -> A -> Prop) (f : A -> bool)
  (l : list A) :
  StronglySorted rel l -> StronglySorted rel (filter f l).
Proof.
  induction 1 as [|x l Hs IH Hx]; cbn [filter]; [constructor|].
  destruct (f x); [|exact IH]. constructor; [exact IH|].
  apply Forall_forall. intros y Hy. apply filter_In in Hy.
  rewrite Forall_forall in Hx. now apply Hx.
Qed.

(** X17.  When [process_file] returns, the datasets it reports are, in ascending
    order and without repetition, exactly the column numbers [1 .. n] that
    the caller's 1-indexed list [T] names (entries of [T] outside [1 .. n]
    are ignored); with [T = None] every column is reported. *)
Theorem processed_datasets_are_the_selected_columns {lib : SciLib}
  (self : FSumFitter) (t : Table) (T : option (list Z))
  (mn mx : option R) (ar : option bool) (ds : list (nat * DatasetFit)) :
  fst (process_file self t T mn mx ar) = Ok ds ->
  map fst ds = filter (selected T) (seq 1 (length (columns t)))
  /\ StronglySorted lt (map fst ds)
  /\ (forall j, In j (map fst ds)
                <-> (1 <= j <= length (columns t))%nat
                    /\ (forall ts, T = Some ts -> In (Z.of_nat j) ts))
  /\ (T = None -> length ds = length (columns t)).
Proof.
  intros H. unfold process_file in H.
  destruct (energy_axis t) as [xdata|e]; [|discriminate H].
  apply dataset_loop_indices in H. cbn [map app] in H.
  split; [exact H|]. rewrite H.
  split; [apply filter_sorted, seq_sorted|]. split.
  - intros j. rewrite filter_In, in_seq, selected_iff. split.
    + intros [Hj Hs]. split; [lia | exact Hs].
    + intros [Hj Hs]. split; [lia | exact Hs].
  - intros ->. apply (f_equal (@length nat)) in H.
    rewrite length_map in H. rewrite H. cbn [selected].
    assert (Hall : forall l : list nat, filter (fun _ => true) l = l).
    { induction l as [|x l IH]; cbn [filter]; [reflexivity|].
      now rewrite IH. }
    now rewrite Hall, length_seq.
Qed.

Lemma processed_datasets_are_the_selected_columns_witness :
  exists ds,
    fst (process_file (lib := reference_lib) (init 0.2 20 0)
           (mkTable [1; 2; 3] [[1; 1; 1]]) None None None None) = Ok ds
    /\ map fst ds = [1%nat].
Proof.
  destruct sample_process_file as (d & Hd & _).
  assert (Hfst : fst (process_file (lib := reference_lib) (init 0.2 20 0)
                        (mkTable [1; 2; 3] [[1; 1; 1]]) None None None None)
                 = Ok [(1%nat, d)]) by now rewrite Hd.
  exists [(1%nat, d)]. split; [exact Hfst|].
  exact (proj1 (processed_datasets_are_the_selected_columns _ _ _ _ _ _ _
                  Hfst)).
Defined.

(** Fewer than 10 of the 3 points lie above 2 eV: the limit is dropped. *)
Lemma final_fit_mask_keeps_ten_points_witness :
  final_fit_mask [1; 2; 3] (Some 2) None = repeat true 3.
Proof.
  apply (proj1 (proj2 (proj2
           (final_fit_mask_keeps_ten_points [1; 2; 3] (Some 2) None)))).
  eapply Nat.le_lt_trans; [apply count_true_le_length|].
  rewrite and_limits_length by apply repeat_length. cbn [length]. lia.
Defined.

(** ** Shapes of what process_file keeps *)

(** What step 6 leaves behind, with the bounds and the optimiser call that
    produced the estimates. *)
Lemma final_fit_steps {lib : SciLib} (self : FSumFitter)
  (xdata raw_i : list R) (mn mx : option R) (s : FinalFit) :
  final_fit self xdata raw_i mn mx = Ok s ->
  exists bl e st xs ys o,
    initial_bandgap self xdata raw_i = Ok (bl, e)
    /\ ff_bounds s = dynamic_bounds self e
    /\ fit_data self xs ys (Some st) (Some (dynamic_bounds self e))
       = Ok (ff_estimates s, o)
    /\ length (ff_baseline s) = length xdata
    /\ length (ff_baseline_mask s) = length xdata.
Proof.
  unfold final_fit. intros H. inv_bind H. inversion H; subst; clear H.
  cbn [ff_bounds ff_estimates ff_baseline ff_baseline_mask].
  match goal with
  | Hi : initial_bandgap _ _ _ = Ok (?bl, ?e),
    Hf : fit_data _ (select (final_fit_mask _ _ _) ?xs) ?ys (Some ?st) _
         = Ok (_, ?o) |- _ =>
      exists bl, e, st, (select (final_fit_mask xdata mn mx) xs), ys, o
  end.
  split; [reflexivity|]. split; [reflexivity|].
  split; [assumption|].
  match goal with
  | Hb : (if Z.eqb (fitmode self) 0 then _ else _) = Ok (_, _) |- _ =>
      destruct (Z.eqb (fitmode self) 0);
      [inversion Hb; subst; now rewrite zeros_length, repeat_length|];
      split; [exact (fit_baseline_length _ _ _ _ _ _ _ Hb)
             | exact (proj1 (fit_baseline_mask_length _ _ _ _ _ _ _ Hb))]
  end.
Qed.

(** The estimates after the auto-range step come from the final fit or
    from one more optimiser call within the same bounds. *)
Lemma auto_range_refit_estimates {lib : SciLib} (self : FSumFitter)
  (xdata : list R) (mn mx : option R) (ar : option bool) (s : FinalFit)
  (f : Fitted) :
  auto_range_refit self xdata mn mx ar s = Ok f ->
  fd_estimates f = ff_estimates s
  \/ exists xs ys o,
       fit_data self xs ys (Some (ff_estimates s)) (Some (ff_bounds s))
       = Ok (fd_estimates f, o).
Proof.
  unfold auto_range_refit. intros H.
  destruct (auto_enabled ar); [|inversion H; now left].
  destruct (Nat.ltb 10 _); [|inversion H; now left].
  inv_bind H. inversion H; subst; clear H. cbn [fd_estimates].
  right. eauto.
Qed.

Lemma urbach_curve_length {lib : SciLib} (xdata ydata : list R) (Eb Eg : R)
  (slope intersect : R) (curve : list R) :
  calculate_urbach_energy xdata ydata Eb Eg = Ok (slope, intersect, curve) ->
  length curve = length xdata.
Proof.
  unfold calculate_urbach_energy. intros H.
  destruct (first_index _ xdata);
    [destruct (Nat.leb _ _)|];
    try (inversion H; subst; apply zeros_length).
  inv_bind H. inversion H; subst. apply length_map.
Qed.

(** Everything kept for one dataset has one entry per point of the axis,
    and the total curve is the sum of its two parts. *)
Lemma process_dataset_shapes {lib : SciLib} (self self' : FSumFitter)
  (xdata raw_i : list R) (mn mx : option R) (ar : option bool)
  (d : DatasetFit) :
  process_dataset self xdata raw_i mn mx ar = (Ok d, self') ->
  let n := length xdata in
  length (fit_curve d) = n /\ length (fit_exciton d) = n
  /\ length (fit_band d) = n /\ length (fit_urbach d) = n
  /\ length (fit_baseline_curve d) = n /\ length (fit_cleandata d) = n
  /\ length (fit_mask d) = n /\ length (fit_baseline_mask d) = n
  /\ fit_curve d = vadd (fit_band d) (fit_exciton d).
Proof.
  intros H. cbv zeta. unfold process_dataset, fit_dataset in H.
  destruct (final_fit self xdata raw_i mn mx) as [s|] eqn:Hs;
    cbn [bind] in H; [|discriminate H].
  destruct (auto_range_refit self xdata mn mx ar s) as [f|] eqn:Hf;
    [|discriminate H].
  assert (Hd : report_dataset xdata f = Ok d) by congruence. clear H.
  destruct (final_fit_inv _ _ _ _ _ _ Hs) as (Hm & Hy & _).
  destruct (final_fit_steps _ _ _ _ _ _ Hs)
    as (bl & e & st & xs & ys & o & _ & _ & _ & Hbl & Hbm).
  destruct (auto_range_refit_inv _ _ _ _ _ _ _ Hf)
    as (Hfy & Hfb & Hfm & _ & Hran & Hkept).
  assert (Hmask : length (fd_mask f) = length xdata).
  { destruct (fd_auto_ran f).
    - rewrite (proj1 (Hran eq_refl)). apply auto_range_mask_length.
    - rewrite (proj1 (Hkept eq_refl)), Hm. apply final_fit_mask_length. }
  unfold report_dataset in Hd.
  destruct (fsum2d (fd_estimates f) xdata (fd_ydata f)) as [o'|] eqn:Ho;
    cbn [bind] in Hd; [|discriminate Hd].
  destruct (r_squared _ _ _) as [quality|]; cbn [bind] in Hd;
    [|discriminate Hd].
  destruct (calculate_urbach_energy _ _ _ _) as [[[slope intersect] ur]|]
    eqn:Hu; cbn [bind] in Hd; [|discriminate Hd].
  apply urbach_curve_length in Hu.
  destruct (fsum2d_out_shapes _ _ _ _ Ho) as (Hsum & Hl1 & Hl2 & Hl3).
  apply (f_equal (fun r => match r with Ok v => v | Raise _ => d end)) in Hd.
  cbv beta iota in Hd. subst d.
  cbn [fit_curve fit_exciton fit_band fit_urbach fit_baseline_curve
         fit_cleandata fit_mask fit_baseline_mask].
  rewrite Hfy, Hfb, Hfm.
  repeat split; assumption.
Qed.

(** X18.  When [process_file] returns, the energy axis has the length of the
    first column, and for every reported dataset the fitted, exciton, band,
    Urbach and baseline curves, the cleaned data and the two masks all have
    one entry per point of that axis; the fitted curve stored is the sum of
    the band and exciton curves stored. *)
Theorem process_file_result_shapes {lib : SciLib} (self : FSumFitter)
  (t : Table) (T : option (list Z)) (mn mx : option R) (ar : option bool)
  (ds : list (nat * DatasetFit)) :
  fst (process_file self t T mn mx ar) = Ok ds ->
  exists xdata,
    energy_axis t = Ok xdata
    /\ length xdata = length (xdata_original t)
    /\ forall j d, In (j, d) ds ->
         length (fit_curve d) = length xdata
         /\ length (fit_exciton d) = length xdata
         /\ length (fit_band d) = length xdata
         /\ length (fit_urbach d) = length xdata
         /\ length (fit_baseline_curve d) = length xdata
         /\ length (fit_cleandata d) = length xdata
         /\ length (fit_mask d) = length xdata
         /\ length (fit_baseline_mask d) = length xdata
         /\ fit_curve d = vadd (fit_band d) (fit_exciton d).
Proof.
  intros H. unfold process_file in H.
  destruct (energy_axis t) as [xdata|e] eqn:Hx; [|discriminate H].
  exists xdata. split; [reflexivity|]. split.
  - unfold energy_axis in Hx. destruct (is_nm t); [|congruence].
    clear H. revert xdata Hx.
    induction (xdata_original t) as [|x l IH]; intros xdata Hx;
      cbn [mapM] in Hx.
    + inversion Hx. reflexivity.
    + inv_bind Hx. inversion Hx; subst. cbn [length]. f_equal.
      now apply IH.
  - intros j d Hin.
    apply (dataset_loop_each xdata T mn mx ar (fun _ => True)
             (fun d =>
                length (fit_curve d) = length xdata
                /\ length (fit_exciton d) = length xdata
                /\ length (fit_band d) = length xdata
                /\ length (fit_urbach d) = length xdata
                /\ length (fit_baseline_curve d) = length xdata
                /\ length (fit_cleandata d) = length xdata
                /\ length (fit_mask d) = length xdata
                /\ length (fit_baseline_mask d) = length xdata
                /\ fit_curve d = vadd (fit_band d) (fit_exciton d)))
      in H.
    + rewrite Forall_forall in H. exact (H (j, d) Hin).
    + intros self0 raw d0 self0' _ Hp. split; [exact I|].
      exact (process_dataset_shapes _ _ _ _ _ _ _ _ Hp).
    + exact I.
    + constructor.
Qed.

Lemma process_file_result_shapes_witness :
  exists d,
    fst (process_file (lib := reference_lib) (init 0.2 20 0)
           (mkTable [1; 2; 3] [[1; 1; 1]]) None None None None)
    = Ok [(1%nat, d)]
    /\ length (fit_curve d) = 3%nat
    /\ fit_curve d = vadd (fit_band d) (fit_exciton d).
Proof.
  destruct sample_process_file as (d & Hd & _).
  assert (Hfst : fst (process_file (lib := reference_lib) (init 0.2 20 0)
                        (mkTable [1; 2; 3] [[1; 1; 1]]) None None None None)
                 = Ok [(1%nat, d)]) by now rewrite Hd.
  exists d. split; [exact Hfst|].
  destruct (process_file_result_shapes _ _ _ _ _ _ _ Hfst)
    as (xdata & Hx & Hlen & Hall).
  destruct (Hall 1%nat d (or_introl eq_refl)) as (H1 & _ & _ & _ & _ & _ & _
                                                 & _ & Hsum).
  split; [|exact Hsum]. rewrite H1, Hlen. reflexivity.
Defined.

(** ** Bounds of the optimiser *)

(** Over the reals the upper [Eg] bound always exceeds the lower one: the
    widening to [+-0.3] is never taken. *)
Lemma dynamic_bounds_eq (self : FSumFitter) (e : R) :
  dynamic_bounds self e
  = (set_Eg (lb self) (e - 0.2), set_Eg (rb self) (e + 0.2)).
Proof.
  unfold dynamic_bounds. cbn [set_Eg Eg]. rewrite Rleb_false by lra.
  reflexivity.
Qed.

Lemma dynamic_bounds_ordered (self : FSumFitter) (e : R) :
  ordered (lb self) (rb self) ->
  ordered (fst (dynamic_bounds self e)) (snd (dynamic_bounds self e)).
Proof.
  rewrite dynamic_bounds_eq. unfold ordered.
  cbn [fst snd set_Eg Eg Eb Gamma ucvsq mhcnp q].
  intros (_ & H). split; [lra | exact H].
Qed.

Lemma fit_data_within {lib : SciLib} (self : FSumFitter)
  (xs ys : list R) (st : option Params) (b : Params * Params)
  (est : Params) (o : FsumOut) :
  respects_bounds lib -> ordered (fst b) (snd b) ->
  fit_data self xs ys st (Some b) = Ok (est, o) ->
  within (fst b) (snd b) est.
Proof.
  intros Hlib Hord H. unfold fit_data in H.
  destruct (minimize _ _ _ _) as [x|] eqn:Hmin; cbn [bind] in H;
    [|discriminate H].
  destruct (fsum2d x xs ys); cbn [bind] in H; [|discriminate H].
  assert (x = est) by congruence. subst x.
  exact (Hlib _ _ _ _ _ Hord Hmin).
Qed.

Lemma process_dataset_within {lib : SciLib} (self self' : FSumFitter)
  (xdata raw_i : list R) (mn mx : option R) (ar : option bool)
  (d : DatasetFit) :
  respects_bounds lib -> ordered (lb self) (rb self) ->
  process_dataset self xdata raw_i mn mx ar = (Ok d, self') ->
  exists bl e,
    initial_bandgap self xdata raw_i = Ok (bl, e)
    /\ within (set_Eg (lb self) (e - 0.2)) (set_Eg (rb self) (e + 0.2))
         (fit_estimates d).
Proof.
  intros Hlib Hord H. unfold process_dataset, fit_dataset in H.
  destruct (final_fit self xdata raw_i mn mx) as [s|] eqn:Hs;
    cbn [bind] in H; [|discriminate H].
  destruct (auto_range_refit self xdata mn mx ar s) as [f|] eqn:Hf;
    [|discriminate H].
  assert (Hd : report_dataset xdata f = Ok d) by congruence. clear H.
  destruct (report_dataset_inv _ _ _ Hd) as (He & _). rewrite He.
  destruct (final_fit_steps _ _ _ _ _ _ Hs)
    as (bl & e & st & xs & ys & o & Hi & Hb & Hfit & _).
  exists bl, e. split; [exact Hi|].
  pose proof (dynamic_bounds_ordered self e Hord) as Hord'.
  apply (fit_data_within _ _ _ _ _ _ _ Hlib Hord') in Hfit.
  destruct (auto_range_refit_estimates _ _ _ _ _ _ _ Hf)
    as [-> | (xs' & ys' & o' & Hfit')].
  - now rewrite dynamic_bounds_eq in Hfit.
  - rewrite Hb in Hfit'.
    apply (fit_data_within _ _ _ _ _ _ _ Hlib Hord') in Hfit'.
    now rewrite dynamic_bounds_eq in Hfit'.
Qed.

(** The detection of the initial [Eg] reads the fitter's mode only. *)
Lemma initial_bandgap_fitmode {lib : SciLib} (s1 s2 : FSumFitter)
  (xdata raw_i : list R) :
  fitmode s1 = fitmode s2 ->
  initial_bandgap s1 xdata raw_i = initial_bandgap s2 xdata raw_i.
Proof.
  intros H.
  unfold initial_bandgap, initial_baseline, bandgap_data, fit_baseline.
  rewrite H. reflexivity.
Qed.

(** Every entry that the dataset loop adds comes from one run of the loop
    body on the column of that index, on a fitter that satisfies whatever
    the loop body preserves. *)
Lemma dataset_loop_results_on {lib : SciLib} (xdata : list R)
  (T : option (list Z)) (mn mx : option R) (ar : option bool)
  (I : FSumFitter -> Prop) :
  (forall self raw,
      I self -> I (snd (process_dataset self xdata raw mn mx ar))) ->
  forall (cols : list (list R)) (self : FSumFitter) (i : nat)
         (acc ds : list (nat * DatasetFit)),
    I self ->
    fst (dataset_loop self xdata T mn mx ar i cols acc) = Ok ds ->
    forall j d, In (j, d) ds ->
      In (j, d) acc
      \/ exists self_j self_j' raw_j,
           I self_j /\ (i <= j)%nat /\ nth_error cols (j - i) = Some raw_j
           /\ process_dataset self_j xdata raw_j mn mx ar = (Ok d, self_j').
Proof.
  intros Hstep cols.
  induction cols as [|raw_i cols IH]; intros self i acc ds HI Hds j d Hin;
    cbn [dataset_loop] in Hds.
  - cbn [fst] in Hds. inversion Hds; subst. now left.
  - assert (Hnext : forall self1 acc1,
              I self1 ->
              fst (dataset_loop self1 xdata T mn mx ar (S i) cols acc1)
              = Ok ds ->
              In (j, d) acc1
              \/ exists self_j self_j' raw_j,
                   I self_j /\ (i <= j)%nat
                   /\ nth_error (raw_i :: cols) (j - i) = Some raw_j
                   /\ process_dataset self_j xdata raw_j mn mx ar
                      = (Ok d, self_j')).
    { intros self1 acc1 HI1 H1.
      destruct (IH self1 (S i) acc1 ds HI1 H1 j d Hin)
        as [Ha | (sj & sj' & rj & HIj & Hle & Hn & Hp)]; [now left|].
      right. exists sj, sj', rj. repeat split; [exact HIj | lia | | exact Hp].
      replace (j - i)%nat with (S (j - S i)) by lia. exact Hn. }
    destruct (selected T i); [|now apply (Hnext self acc)].
    pose proof (Hstep self raw_i HI) as HI1.
    destruct (process_dataset self xdata raw_i mn mx ar) as [[d1|e] self1]
      eqn:Hp; [|discriminate Hds].
    cbn [snd] in HI1.
    destruct (Hnext self1 (acc ++ [(i, d1)]) HI1 Hds) as [Ha | Hr];
      [|now right].
    apply in_app_or in Ha. destruct Ha as [Ha | [Ha | []]]; [now left|].
    inversion Ha; subst. right. exists self, self1, raw_i.
    repeat split; [exact HI | lia | now rewrite Nat.sub_diag | exact Hp].
Qed.

(** X19.  With an optimiser that keeps [result.x] inside feasible bounds (as
    L-BFGS-B does) and a fitter whose [lb <= rb]: for every dataset [j]
    reported, the reported [Eg] lies within 0.2 eV of the [Eg] that the
    detection step finds on column [j] of the table over its energy axis,
    whatever the [Eg] entries of [self.lb] and [self.rb] are, and the other
    five parameters lie within [self.lb] and [self.rb]; so
    [Deff = 3 - 2*q] lies between [3 - 2*rb[5]] and [3 - 2*lb[5]], that is
    in [0, 3] for the bounds of the constructor. *)
Theorem estimates_stay_within_bounds {lib : SciLib} (self : FSumFitter)
  (t : Table) (T : option (list Z)) (mn mx : option R) (ar : option bool)
  (ds : list (nat * DatasetFit)) :
  respects_bounds lib ->
  ordered (lb self) (rb self) ->
  fst (process_file self t T mn mx ar) = Ok ds ->
  forall j d, In (j, d) ds ->
    (exists xdata raw_j bl e,
        energy_axis t = Ok xdata
        /\ (1 <= j)%nat /\ nth_error (columns t) (j - 1) = Some raw_j
        /\ initial_bandgap self xdata raw_j = Ok (bl, e)
        /\ e - 0.2 <= Eg (fit_estimates d) <= e + 0.2)
    /\ Eb (lb self) <= Eb (fit_estimates d) <= Eb (rb self)
    /\ Gamma (lb self) <= Gamma (fit_estimates d) <= Gamma (rb self)
    /\ ucvsq (lb self) <= ucvsq (fit_estimates d) <= ucvsq (rb self)
    /\ mhcnp (lb self) <= mhcnp (fit_estimates d) <= mhcnp (rb self)
    /\ q (lb self) <= q (fit_estimates d) <= q (rb self)
    /\ 3 - 2 * q (rb self) <= Deff (fit_estimates d) <= 3 - 2 * q (lb self).
Proof.
  intros Hlib Hord H j d Hin. unfold process_file in H.
  destruct (energy_axis t) as [xdata|e]; [|discriminate H].
  assert (Hstep : forall s raw,
            (fitmode s = fitmode self /\ lb s = lb self /\ rb s = rb self) ->
            fitmode (snd (process_dataset s xdata raw mn mx ar))
            = fitmode self
            /\ lb (snd (process_dataset s xdata raw mn mx ar)) = lb self
            /\ rb (snd (process_dataset s xdata raw mn mx ar)) = rb self).
  { intros s raw (Hm & Hl & Hr).
    pose proof (process_dataset_frame s xdata raw mn mx ar) as Hframe.
    cbv zeta in Hframe. destruct Hframe as (_ & _ & Hm' & Hl' & Hr' & _).
    repeat split; congruence. }
  destruct (dataset_loop_results_on xdata T mn mx ar
              (fun s => fitmode s = fitmode self /\ lb s = lb self
                        /\ rb s = rb self)
              Hstep (columns t) self 1 [] ds
              (conj eq_refl (conj eq_refl eq_refl)) H j d Hin)
    as [[] | (self_j & self_j' & raw_j & (Hm & Hl & Hr) & Hle & Hn & Hp)].
  assert (Hord' : ordered (lb self_j) (rb self_j)) by now rewrite Hl, Hr.
  destruct (process_dataset_within _ _ _ _ _ _ _ _ Hlib Hord' Hp)
    as (bl & e & Hi & Hw).
  rewrite Hl, Hr in Hw.
  rewrite (initial_bandgap_fitmode self_j self _ _ Hm) in Hi.
  unfold within in Hw. cbn [set_Eg Eg Eb Gamma ucvsq mhcnp q] in Hw.
  destruct Hw as (Hg & Hb & HG & Hu & Hmh & Hq).
  split.
  - exists xdata, raw_j, bl, e.
    split; [reflexivity|]. split; [exact Hle|]. split; [exact Hn|].
    split; assumption.
  - repeat (split; [assumption|]). unfold Deff. lra.
Qed.

Lemma np_clip_within (lo hi x : R) : lo <= hi -> lo <= np_clip lo hi x <= hi.
Proof.
  intros H. unfold np_clip, Rmin, Rmax.
  destruct (Rle_dec x lo); destruct (Rle_dec _ hi); lra.
Qed.

Lemma reference_respects_bounds : respects_bounds reference_lib.
Proof.
  intros f x0 lo hi x (H1 & H2 & H3 & H4 & H5 & H6) H.
  cbn [minimize reference_lib] in H. unfold ref_minimize in H.
  destruct (f _); cbn [bind] in H; [|discriminate H].
  assert (Hx : x = project lo hi x0) by congruence. subst x.
  unfold within, project. cbn [Eg Eb Gamma ucvsq mhcnp q].
  repeat split; now apply np_clip_within.
Qed.

Lemma default_bounds_ordered : ordered default_lb default_rb.
Proof.
  unfold ordered, default_lb, default_rb. cbn [Eg Eb Gamma ucvsq mhcnp q].
  repeat split; lra.
Qed.

(** With the bounds of the constructor, [0 <= Deff <= 3], and the reported
    [Eg] is within 0.2 eV of the detected 1 eV. *)
Lemma estimates_stay_within_bounds_witness :
  exists d,
    fst (process_file (lib := reference_lib) (init 0.2 20 0)
           (mkTable [1; 2; 3] [[1; 1; 1]]) None None None None)
    = Ok [(1%nat, d)]
    /\ 0 <= Deff (fit_estimates d) <= 3
    /\ 0.01 <= Eb (fit_estimates d) <= 0.2
    /\ 1 - 0.2 <= Eg (fit_estimates d) <= 1 + 0.2.
Proof.
  destruct sample_process_file as (d & Hd & _).
  assert (Hfst : fst (process_file (lib := reference_lib) (init 0.2 20 0)
                        (mkTable [1; 2; 3] [[1; 1; 1]]) None None None None)
                 = Ok [(1%nat, d)]) by now rewrite Hd.
  exists d. split; [exact Hfst|].
  destruct (estimates_stay_within_bounds (lib := reference_lib)
              (init 0.2 20 0) (mkTable [1; 2; 3] [[1; 1; 1]])
              None None None None [(1%nat, d)]
              reference_respects_bounds default_bounds_ordered Hfst
              1%nat d (or_introl eq_refl))
    as ((xdata & raw_j & bl & e & Hx & _ & Hn & Hi & Hg) & Hb & _ & _ & _ & _
        & HD).
  cbn [init lb rb default_lb default_rb Eb q] in Hb, HD.
  split; [lra|]. split; [lra|].
  assert (Hxd : xdata = [1; 2; 3]).
  { unfold energy_axis, is_nm, np_mean in Hx.
    cbn [xdata_original np_sum fold_right length INR] in Hx.
    rewrite Rltb_false in Hx by lra. congruence. }
  assert (Hr : raw_j = [1; 1; 1]) by (cbn in Hn; congruence).
  subst xdata raw_j. rewrite sample_initial_bandgap in Hi.
  assert (He : e = 1) by congruence. subst e. exact Hg.
Defined.

(** ** The energy axis *)

Lemma map_sorted_reverse (f : R -> R) (l : list R) :
  Forall (Rlt 0) l ->
  (forall x y, 0 < x -> x < y -> f y < f x) ->
  StronglySorted Rlt l -> StronglySorted Rgt (map f l).
Proof.
  intros Hpos Hf Hs. induction Hs as [|x l Hs IH Hx]; cbn [map];
    constructor.
  - apply IH. now inversion Hpos.
  - apply Forall_forall. intros y Hy. apply in_map_iff in Hy.
    destruct Hy as (z & <- & Hz). rewrite Forall_forall in Hx.
    apply Hf; [now inversion Hpos | now apply Hx].
Qed.

Lemma inverse_decreasing (x y : R) :
  0 < x -> x < y -> 1239.84193 / y < 1239.84193 / x.
Proof.
  intros Hx Hy. unfold Rdiv. apply Rmult_lt_compat_l; [lra|].
  apply Rinv_lt_contravar; [nra | exact Hy].
Qed.

(** X20.  For a first column of positive values: with mean at most 50 it is
    taken as the energy axis unchanged; with mean above 50 it is converted
    by [1239.84193 / x], the energies are positive, converting them back
    gives the wavelengths again, and a strictly ascending wavelength column
    gives a strictly descending energy axis, on which the orientation test
    [xdata[0] < xdata[-1]] is false. *)
Theorem wavelength_axis_is_converted (t : Table) :
  Forall (Rlt 0) (xdata_original t) ->
  (np_mean (xdata_original t) <= 50 ->
   energy_axis t = Ok (xdata_original t))
  /\ (50 < np_mean (xdata_original t) ->
      exists xdata,
        energy_axis t = Ok xdata
        /\ xdata = map (fun x => 1239.84193 / x) (xdata_original t)
        /\ Forall (Rlt 0) xdata
        /\ map (fun e => 1239.84193 / e) xdata = xdata_original t
        /\ (StronglySorted Rlt (xdata_original t) ->
            StronglySorted Rgt xdata
            /\ ((2 <= length xdata)%nat -> ascending xdata = Ok false))).
Proof.
  intros Hpos. unfold energy_axis, is_nm. split; intros Hm.
  - now rewrite Rltb_false by lra.
  - rewrite Rltb_true by exact Hm.
    exists (map (fun x => 1239.84193 / x) (xdata_original t)).
    split.
    { apply mapM_ok. intros a Ha. rewrite Forall_forall in Hpos.
      apply pydiv_ok. specialize (Hpos a Ha). lra. }
    split; [reflexivity|]. split.
    { apply Forall_forall. intros e He. apply in_map_iff in He.
      destruct He as (x & <- & Hx). rewrite Forall_forall in Hpos.
      specialize (Hpos x Hx). apply Rdiv_lt_0_compat; lra. }
    split.
    { rewrite map_map. rewrite <- (map_id (xdata_original t)) at 2.
      apply map_ext_in. intros x Hx. rewrite Forall_forall in Hpos.
      specialize (Hpos x Hx). field. lra. }
    intros Hs.
    assert (Hd : StronglySorted Rgt
                   (map (fun x => 1239.84193 / x) (xdata_original t))).
    { apply map_sorted_reverse; [exact Hpos | | exact Hs].
      intros x y. apply inverse_decreasing. }
    split; [exact Hd|]. intros Hlen.
    rewrite ascending_nonempty
      by (intros Hnil; rewrite Hnil in Hlen; cbn in Hlen; lia).
    pose proof (StronglySorted_nth Rgt _ Hd 0
                  (length (map (fun x => 1239.84193 / x)
                             (xdata_original t)) - 1) ltac:(lia)) as Hn.
    unfold Rgt in Hn. rewrite Rltb_false by lra. reflexivity.
Qed.

Lemma wavelength_axis_is_converted_witness :
  exists xdata,
    energy_axis (mkTable [400; 800] []) = Ok xdata
    /\ ascending xdata = Ok false.
Proof.
  assert (Hpos : Forall (Rlt 0) [400; 800])
    by (repeat constructor; lra).
  assert (Hm : 50 < np_mean [400; 800])
    by (unfold np_mean; cbn [np_sum fold_right length INR]; lra).
  assert (Hs : StronglySorted Rlt [400; 800])
    by (repeat constructor; lra).
  destruct (proj2 (wavelength_axis_is_converted (mkTable [400; 800] [])
                     Hpos) Hm)
    as (xdata & Hx & Heq & _ & _ & Hsorted).
  exists xdata. split; [exact Hx|].
  apply (proj2 (Hsorted Hs)). rewrite Heq. cbn. lia.
Defined.

(** ** plot_results: the grid of subplots *)

Lemma np_ceil_spec (x : R) : IZR (np_ceil x) - 1 < x <= IZR (np_ceil x).
Proof.
  unfold np_ceil. rewrite minus_IZR. destruct (archimed (- x)) as [H1 H2].
  lra.
Qed.

Lemma np_ceil_pos (x : R) : 0 < x -> (0 < np_ceil x)%Z.
Proof.
  intros H. apply lt_IZR. pose proof (np_ceil_spec x). lra.
Qed.

Lemma INR_to_nat_ceil (x : R) :
  0 < x -> INR (Z.to_nat (np_ceil x)) - 1 < x <= INR (Z.to_nat (np_ceil x)).
Proof.
  intros H. rewrite INR_IZR_INZ, Z2Nat.id
    by (pose proof (np_ceil_pos x H); lia).
  apply np_ceil_spec.
Qed.

(** X21.  For at least one processed dataset, [plot_results] computes its grid
    without a division fault, with [n_cols] the least integer whose square
    is at least [num_datasets]; the grid has a subplot for every dataset
    ([axes[idx]] is in range), fewer than [n_cols] unused subplots, and
    [n_rows <= n_cols <= n_rows + 1]. *)
Theorem plot_grid_holds_every_dataset (num_datasets : nat) :
  (0 < num_datasets)%nat ->
  exists n_rows n_cols,
    plot_grid num_datasets = Ok (Some (n_rows, n_cols))
    /\ (num_datasets <= n_rows * n_cols)%nat
    /\ (n_rows * n_cols < num_datasets + n_cols)%nat
    /\ (n_rows <= n_cols <= n_rows + 1)%nat
    /\ ((n_cols - 1) * (n_cols - 1) < num_datasets <= n_cols * n_cols)%nat.
Proof.
  intros Hn. unfold plot_grid.
  destruct (Nat.eqb_spec num_datasets 0) as [->|_]; [lia|].
  assert (HnR : 1 <= INR num_datasets).
  { change 1 with (INR 1). apply le_INR. lia. }
  assert (Hsq : 0 < sqrt (INR num_datasets)) by (apply sqrt_lt_R0; lra).
  set (c := Z.to_nat (np_ceil (sqrt (INR num_datasets)))).
  pose proof (INR_to_nat_ceil _ Hsq) as Hc. fold c in Hc.
  assert (HcR : 0 < INR c) by lra.
  rewrite pydiv_ok by lra. cbn [bind].
  assert (Hratio : 0 < INR num_datasets / INR c)
    by (apply Rdiv_lt_0_compat; lra).
  set (r := Z.to_nat (np_ceil (INR num_datasets / INR c))).
  pose proof (INR_to_nat_ceil _ Hratio) as Hr. fold r in Hr.
  exists r, c. split; [reflexivity|].
  pose proof (sqrt_sqrt (INR num_datasets) ltac:(lra)) as Hss.
  assert (Hrc1 : INR num_datasets <= INR r * INR c).
  { destruct Hr as [_ Hr].
    apply (Rmult_le_compat_r (INR c)) in Hr; [|lra].
    unfold Rdiv in Hr. rewrite Rmult_assoc, Rinv_l, Rmult_1_r in Hr by lra.
    exact Hr. }
  assert (Hrc2 : (INR r - 1) * INR c < INR num_datasets).
  { destruct Hr as [Hr _].
    apply (Rmult_lt_compat_r (INR c)) in Hr; [|lra].
    unfold Rdiv in Hr. rewrite Rmult_assoc, Rinv_l, Rmult_1_r in Hr by lra.
    exact Hr. }
  assert (Hcc1 : INR num_datasets <= INR c * INR c) by nra.
  assert (Hcc2 : (INR c - 1) * (INR c - 1) < INR num_datasets \/ c = 1%nat).
  { destruct (Nat.eq_dec c 1) as [|Hne]; [now right | left].
    assert (1 <= INR c - 1).
    { assert (2 <= INR c); [|lra]. change 2 with (INR 2). apply le_INR.
      assert (c <> 0%nat) by (intros Hz; rewrite Hz in HcR; cbn in HcR; lra).
      lia. }
    nra. }
  assert (N1 : (num_datasets <= r * c)%nat).
  { apply INR_le. now rewrite mult_INR. }
  assert (N2 : (r * c < num_datasets + c)%nat).
  { apply INR_lt. rewrite mult_INR, plus_INR. lra. }
  assert (N3 : (num_datasets <= c * c)%nat).
  { apply INR_le. now rewrite mult_INR. }
  assert (N4 : ((c - 1) * (c - 1) < num_datasets)%nat).
  { destruct Hcc2 as [H|H]; [|rewrite H; cbn; lia].
    apply INR_lt. rewrite mult_INR, minus_INR.
    - exact H.
    - assert (c <> 0%nat) by (intros Hz; rewrite Hz in HcR; cbn in HcR; lra).
      lia. }
  repeat split; try assumption; nia.
Qed.

Lemma plot_grid_holds_every_dataset_witness :
  exists n_rows n_cols,
    plot_grid 5 = Ok (Some (n_rows, n_cols))
    /\ (5 <= n_rows * n_cols)%nat.
Proof.
  destruct (plot_grid_holds_every_dataset 5 ltac:(lia))
    as (r & c & H & Hle & _).
  exists r, c. split; assumption.
Defined.

(** ** The reported quality *)

Lemma process_dataset_quality_le_1 {lib : SciLib}
  (self self' : FSumFitter) (xdata raw_i : list R) (mn mx : option R)
  (ar : option bool) (d : DatasetFit) :
  process_dataset self xdata raw_i mn mx ar = (Ok d, self') ->
  fit_quality d <= 1.
Proof.
  intros H. pose proof (process_dataset_quality _ _ _ _ _ _ _ _ H) as Hq.
  cbv zeta in Hq. destruct Hq as (_ & (o & Ho & Hpos & Hzero) & _).
  apply fsum2d_sse_nonneg in Ho.
  set (y_fit := select (fit_mask d) (fit_cleandata d)) in *.
  set (ss_tot := np_sum (map (fun y => (y - np_mean y_fit) ^ 2) y_fit)) in *.
  assert (Hss : 0 <= ss_tot).
  { unfold ss_tot.
    rewrite <- (map_map (fun y => y - np_mean y_fit) (fun e => e ^ 2)).
    apply np_sum_squares_nonneg. }
  destruct (Rle_lt_or_eq_dec 0 ss_tot Hss) as [Hlt | Heq].
  - rewrite (Hpos Hlt).
    assert (0 <= out_sse o / ss_tot); [|lra].
    apply Rmult_le_pos; [exact Ho|]. apply Rlt_le, Rinv_0_lt_compat, Hlt.
  - rewrite (Hzero (eq_sym Heq)). lra.
Qed.

(** X22.  Every R^2 that [process_file] reports is at most 1 (it may be
    negative). *)
Theorem reported_quality_at_most_one {lib : SciLib} (self : FSumFitter)
  (t : Table) (T : option (list Z)) (mn mx : option R) (ar : option bool)
  (ds : list (nat * DatasetFit)) :
  fst (process_file self t T mn mx ar) = Ok ds ->
  forall j d, In (j, d) ds -> fit_quality d <= 1.
Proof.
  intros H j d Hin. unfold process_file in H.
  destruct (energy_axis t) as [xdata|e]; [|discriminate H].
  apply (dataset_loop_each xdata T mn mx ar (fun _ => True)
           (fun d => fit_quality d <= 1)) in H.
  - rewrite Forall_forall in H. exact (H (j, d) Hin).
  - intros s raw d0 s' _ Hp. split; [exact I|].
    exact (process_dataset_quality_le_1 _ _ _ _ _ _ _ _ Hp).
  - exact I.
  - constructor.
Qed.

Lemma reported_quality_at_most_one_witness :
  exists d,
    fst (process_file (lib := reference_lib) (init 0.2 20 0)
           (mkTable [1; 2; 3] [[1; 1; 1]]) None None None None)
    = Ok [(1%nat, d)]
    /\ fit_quality d <= 1.
Proof.
  destruct sample_process_file as (d & Hd & _).
  assert (Hfst : fst (process_file (lib := reference_lib) (init 0.2 20 0)
                        (mkTable [1; 2; 3] [[1; 1; 1]]) None None None None)
                 = Ok [(1%nat, d)]) by now rewrite Hd.
  exists d. split; [exact Hfst|].
  exact (reported_quality_at_most_one _ _ _ _ _ _ _ Hfst 1%nat d
           (or_introl eq_refl)).
Defined.

(** ** The warm start stays feasible *)

Lemma feasible_seed_iff (self : FSumFitter) :
  feasible_seed self
  <-> Eb (lb self) <= 0.050 <= Eb (rb self)
      /\ Gamma (lb self) <= Gamma (start_point self) <= Gamma (rb self)
      /\ ucvsq (lb self) <= ucvsq (start_point self) <= ucvsq (rb self)
      /\ mhcnp (lb self) <= mhcnp (start_point self) <= mhcnp (rb self)
      /\ q (lb self) <= 0.0 <= q (rb self).
Proof.
  unfold feasible_seed. split.
  - intros H. specialize (H 0). rewrite dynamic_bounds_eq in H.
    unfold within, dynamic_start_point in H.
    cbn [fst snd set_Eg set_Eb set_q Eg Eb Gamma ucvsq mhcnp q] in H.
    tauto.
  - intros H e. rewrite dynamic_bounds_eq.
    unfold within, dynamic_start_point.
    cbn [fst snd set_Eg set_Eb set_q Eg Eb Gamma ucvsq mhcnp q].
    split; [lra | tauto].
Qed.

(** The fitter after one iteration, whatever its outcome: untouched, or
    with a [start_point] taken from the optimiser. *)
Lemma process_dataset_state {lib : SciLib} (self : FSumFitter)
  (xdata raw_i : list R) (mn mx : option R) (ar : option bool) :
  respects_bounds lib -> ordered (lb self) (rb self) ->
  let self' := snd (process_dataset self xdata raw_i mn mx ar) in
  lb self' = lb self /\ rb self' = rb self
  /\ (start_point self' = start_point self
      \/ exists e, within (set_Eg (lb self) (e - 0.2))
                     (set_Eg (rb self) (e + 0.2)) (start_point self')).
Proof.
  intros Hlib Hord. cbv zeta.
  pose proof (process_dataset_frame self xdata raw_i mn mx ar) as Hframe.
  cbv zeta in Hframe. destruct Hframe as (_ & _ & _ & Hl & Hr & _).
  split; [exact Hl|]. split; [exact Hr|].
  unfold process_dataset, fit_dataset.
  destruct (final_fit self xdata raw_i mn mx) as [s|] eqn:Hs;
    cbn [bind]; [|now left].
  destruct (auto_range_refit self xdata mn mx ar s) as [f|] eqn:Hf;
    [|now left].
  right. cbn [snd set_start_point start_point].
  destruct (final_fit_steps _ _ _ _ _ _ Hs)
    as (bl & e & st & xs & ys & o & Hi & Hb & Hfit & _).
  exists e.
  pose proof (dynamic_bounds_ordered self e Hord) as Hord'.
  apply (fit_data_within _ _ _ _ _ _ _ Hlib Hord') in Hfit.
  destruct (auto_range_refit_estimates _ _ _ _ _ _ _ Hf)
    as [-> | (xs' & ys' & o' & Hfit')].
  - now rewrite dynamic_bounds_eq in Hfit.
  - rewrite Hb in Hfit'.
    apply (fit_data_within _ _ _ _ _ _ _ Hlib Hord') in Hfit'.
    now rewrite dynamic_bounds_eq in Hfit'.
Qed.

Lemma dataset_loop_state {lib : SciLib} (xdata : list R)
  (T : option (list Z)) (mn mx : option R) (ar : option bool)
  (I : FSumFitter -> Prop) :
  (forall self raw,
      I self -> I (snd (process_dataset self xdata raw mn mx ar))) ->
  forall (cols : list (list R)) (self : FSumFitter) (i : nat)
         (acc : list (nat * DatasetFit)),
    I self -> I (snd (dataset_loop self xdata T mn mx ar i cols acc)).
Proof.
  intros Hstep cols. induction cols as [|raw cols IH];
    intros self i acc HI; cbn [dataset_loop]; [exact HI|].
  destruct (selected T i); [|now apply IH].
  pose proof (Hstep self raw HI) as HI'.
  destruct (process_dataset self xdata raw mn mx ar) as [[d|e] self'];
    cbn [snd] in HI'; [now apply IH | exact HI'].
Qed.

(** X23.  With an optimiser that keeps [result.x] inside feasible bounds and a
    fitter whose [lb <= rb]: if the seed of the preliminary fit (the
    [start_point] with [Eg], [Eb = 0.050], [q = 0] overwritten) lies within
    the dynamic bounds before [process_file], it does so after it, whatever
    the outcome of the call; the fitter made by the constructor has this
    property. *)
Theorem warm_start_stays_feasible {lib : SciLib} (self : FSumFitter)
  (t : Table) (T : option (list Z)) (mn mx : option R) (ar : option bool) :
  respects_bounds lib ->
  ordered (lb self) (rb self) ->
  feasible_seed self ->
  feasible_seed (snd (process_file self t T mn mx ar)).
Proof.
  intros Hlib Hord Hfeas. unfold process_file.
  destruct (energy_axis t) as [xdata|e]; [|exact Hfeas].
  pose (I := fun s : FSumFitter =>
               lb s = lb self /\ rb s = rb self /\ feasible_seed s).
  assert (HI : I (snd (dataset_loop self xdata T mn mx ar 1 (columns t) []))).
  { apply dataset_loop_state;
      [|split; [reflexivity|]; split; [reflexivity | exact Hfeas]].
    intros s raw (Hl & Hr & Hf).
    assert (Hord' : ordered (lb s) (rb s)) by now rewrite Hl, Hr.
    destruct (process_dataset_state s xdata raw mn mx ar Hlib Hord')
      as (Hl' & Hr' & Hsp).
    split; [congruence|]. split; [congruence|].
    apply feasible_seed_iff. apply feasible_seed_iff in Hf.
    rewrite Hl', Hr'. destruct Hsp as [-> | (e & Hw)]; [exact Hf|].
    unfold within in Hw. cbn [set_Eg Eg Eb Gamma ucvsq mhcnp q] in Hw.
    tauto. }
  exact (proj2 (proj2 HI)).
Qed.

Lemma init_feasible_seed (dE : R) (ns mode : Z) :
  feasible_seed (init dE ns mode).
Proof.
  apply feasible_seed_iff.
  cbn [init lb rb start_point default_lb default_rb default_start_point
         Eb Gamma ucvsq mhcnp q].
  repeat split; lra.
Qed.

Lemma warm_start_stays_feasible_witness :
  let self' :=
    snd (process_file (lib := reference_lib) (init 0.2 20 0)
           (mkTable [1; 2; 3] [[1; 1; 1]]) None None None None) in
  within (fst (dynamic_bounds self' 1)) (snd (dynamic_bounds self' 1))
    (dynamic_start_point self' 1).
Proof.
  exact (warm_start_stays_feasible (lib := reference_lib) (init 0.2 20 0)
           (mkTable [1; 2; 3] [[1; 1; 1]]) None None None None
           reference_respects_bounds default_bounds_ordered
           (init_feasible_seed 0.2 20 0) 1).
Defined.
